(** * NEAtetris: the rules engine of [game.py]

    A shallow embedding of the [Game] class of [src/game.py]: the per-tick
    [update] method (gravity, lock delay, lock and clear, next piece), the
    corner-based T-spin classification and the hold mechanic.

    [game.py] imports its collaborators ([Grid], [Tetromino],
    [PieceGenerator], [Score], [TetrisAI], the constants, the presentation
    objects) from the other modules of the repository.  Their data is
    modelled as far as [game.py] reads and writes it; their methods are the
    fields of type classes, so that every statement about [Game] holds for
    any implementation of them. *)

From stdpp Require Import base option list strings sorting.
From Stdlib Require Import ZArith Lia.

Local Open Scope Z_scope.

(** ** Data *)

(** A cell of [grid.cells]: the integer [0] when empty, otherwise the colour
    of the block locked there (an RGB tuple, see
    [create_line_clear_particles] and [draw_ghost_piece]). *)
Inductive Cell : Type :=
| CInt (n : Z)
| CColor (r g b : Z).

#[global] Instance Cell_eq_dec : EqDecision Cell.
Proof. solve_decision. Defined.

(** Python's [bool(c)]: an integer is true when it is not zero, a
    three-element tuple is always true. *)
Definition truthy (c : Cell) : bool :=
  match c with
  | CInt n => negb (n =? 0)
  | CColor _ _ _ => true
  end.

(** Python's [c != 0]: a tuple never equals the integer [0]. *)
Definition cell_ne_zero (c : Cell) : bool :=
  match c with
  | CInt n => negb (n =? 0)
  | CColor _ _ _ => true
  end.

(** The fields of a [Grid] that [game.py] reads ([x_offset] and [cell_size]
    only serve drawing). *)
Record Grid : Type := mkGrid {
  width : Z;
  height : Z;
  cells : list (list Cell)
}.

(** The fields of a [Tetromino] that [game.py] reads and writes. *)
Record Tetromino : Type := mkTetromino {
  shape_name : string;
  x : Z;
  y : Z;
  rotation_state : Z;
  lock_delay_active : bool;
  lock_delay_timer : Z;
  lock_moves_count : Z;
  is_locked : bool
}.

Definition set_lock_delay_active (v : bool) (p : Tetromino) : Tetromino :=
  mkTetromino (shape_name p) (x p) (y p) (rotation_state p) v
    (lock_delay_timer p) (lock_moves_count p) (is_locked p).

Definition set_lock_delay_timer (v : Z) (p : Tetromino) : Tetromino :=
  mkTetromino (shape_name p) (x p) (y p) (rotation_state p)
    (lock_delay_active p) v (lock_moves_count p) (is_locked p).

Definition set_lock_moves_count (v : Z) (p : Tetromino) : Tetromino :=
  mkTetromino (shape_name p) (x p) (y p) (rotation_state p)
    (lock_delay_active p) (lock_delay_timer p) v (is_locked p).

Definition set_is_locked (v : bool) (p : Tetromino) : Tetromino :=
  mkTetromino (shape_name p) (x p) (y p) (rotation_state p)
    (lock_delay_active p) (lock_delay_timer p) (lock_moves_count p) v.

(** What [check_t_spin] returns: [False], ["mini"] or ["normal"]. *)
Inductive TSpin : Type :=
| NoSpin
| SpinMini
| SpinNormal.

(** The values [current_screen] takes (the strings of the source). *)
Inductive Screen : Type :=
| ScreenMenu
| ScreenTransitionToGame
| ScreenCountdown
| ScreenGame
| ScreenPause
| ScreenGameOver
| ScreenEnterName
| ScreenHighScores.

(** The dictionary returned by [TetrisAI.get_best_move]. *)
Record BestMove : Type := mkBestMove {
  bm_rotation : Z;
  bm_x : Z;
  bm_y : Z
}.

(** A [Tetromino] object is referred to by its address in the heap of the
    pieces allocated so far. *)
Definition loc : Type := nat.

(** ** Python list indexing

    [l[i]] with Python's semantics: a negative index counts from the end, an
    index out of range raises [IndexError] (here [None]). *)
Definition py_index {A : Type} (l : list A) (i : Z) : option A :=
  if decide (0 <= i) then l !! Z.to_nat i
  else if decide (- Z.of_nat (length l) <= i)
       then l !! Z.to_nat (Z.of_nat (length l) + i)
       else None.

(** ** Collaborators of [game.py] *)

(** [constants.py]: the timing constants, in the milliseconds of
    [pygame.time.get_ticks]. *)
Class Constants : Type := {
  INITIAL_DROP_SPEED : Z;
  MIN_DROP_SPEED : Z;
  SPEED_INCREMENT : Z;
  LOCK_DELAY : Z;
  MAX_LOCK_MOVES : Z
}.

(** [tetromino.py]: a piece keeps a reference to the grid of the game, which
    its methods consult; the grid is therefore passed to each method, so that
    a piece always sees the grid as the game last left it.  A method that
    mutates the piece returns the new value of the piece. *)
Class TetrominoOps : Type := {
  Tetromino_init : string -> Grid -> Tetromino;
  move : Z -> Z -> Grid -> Tetromino -> Tetromino * bool;
  rotate : Grid -> Tetromino -> Tetromino * bool;
  is_touching_ground : Grid -> Tetromino -> bool;
  update_position : Grid -> Tetromino -> Tetromino;
  reset_position : Grid -> Tetromino -> Tetromino
}.

(** [grid.py]. *)
Class GridOps : Type := {
  Grid_init : Z -> Z -> Grid;
  lock_piece : Grid -> Tetromino -> Grid;
  clear_lines : Grid -> Grid;
  is_board_clear : Grid -> bool;
  is_collision : Grid -> Tetromino -> bool
}.

(** [piece_generator.py]: [get_next_piece] builds the next piece (for the
    grid the generator was created with) and advances the generator;
    [preview_next_pieces] lists the upcoming shapes without consuming them. *)
Class GeneratorOps : Type := {
  PieceGenerator : Type;
  PieceGenerator_init : Grid -> PieceGenerator;
  get_next_piece : PieceGenerator -> Grid -> Tetromino * PieceGenerator;
  preview_next_pieces : PieceGenerator -> list string
}.

(** [score.py]: [Score.update] returns the score of the turn and the
    notifications, and changes the score object. *)
Class ScoreOps : Type := {
  Score : Type;
  Score_init : Score;
  level : Score -> Z;
  points : Score -> Z;
  Score_update : Z -> TSpin -> bool -> Z -> Z -> Z -> Score ->
                 (Z * list string) * Score;
  update_level : Score -> Score;
  add_tetris_clear_bonus : Score -> Z * Score
}.

(** [tetris_ai.py]: the move the evaluator picks for the active piece, if
    any. *)
Class AIOps : Type := {
  get_best_move : Grid -> Tetromino -> option BestMove
}.

(** The frame timers ([start_timer], [countdown_timer], [level_up_effect])
    are floating-point numbers decremented by [1/60] per frame and compared
    with [0]; the transition and the high-score table are presentation
    objects.  Only what [update] asks of them appears here. *)
Class FrameOps : Type := {
  Timer : Type;
  timer_three : Timer;
  timer_tick : Timer -> Timer;
  timer_expired : Timer -> bool;
  Transition : Type;
  transition_update : Transition -> Transition;
  transition_is_active : Transition -> bool;
  is_high_score : Z -> bool
}.

(** ** The state of a [Game]

    The fields of [Game.__init__] that the rules engine reads or writes,
    for a session that [start_new_game] has set up (so [grid],
    [piece_generator] and [score] are present).  The menu, the HUD, the
    particle system, the buttons and the key-repeat bookkeeping are
    presentation and are left out.

    [current_piece] and [held_piece] hold references: [heap] maps the address
    of every [Tetromino] object allocated so far to its current value, and a
    mutation through one reference is seen through every other reference to
    the same address. *)

Section GameModel.

Context {constants : Constants} {tetromino_ops : TetrominoOps}
        {grid_ops : GridOps} {generator_ops : GeneratorOps}
        {score_ops : ScoreOps} {ai_ops : AIOps} {frame_ops : FrameOps}.

Record Game : Type := mkGame {
  current_screen : Screen;
  mode : string;
  grid : Grid;
  piece_generator : PieceGenerator;
  heap : list Tetromino;
  current_piece : option loc;
  next_pieces : list string;
  score : Score;
  is_paused : bool;
  game_over : bool;
  drop_timer : Z;
  drop_speed : Z;
  last_update_time : Z;
  soft_drop_count : Z;
  drop_height : Z;
  last_rotation : bool;
  last_move_was_rotation : bool;
  hard_drop_count : Z;
  transition : Transition;
  level_up_effect : option Timer;
  start_timer : option Timer;
  countdown_timer : option Timer;
  held_piece : option loc;
  can_hold : bool;
  ai_debug_timer : Z
}.

Definition set_current_screen (v : Screen) (self : Game) : Game :=
  mkGame v (mode self) (grid self) (piece_generator self) (heap self)
    (current_piece self) (next_pieces self) (score self) (is_paused self)
    (game_over self) (drop_timer self) (drop_speed self)
    (last_update_time self) (soft_drop_count self) (drop_height self)
    (last_rotation self) (last_move_was_rotation self)
    (hard_drop_count self) (transition self) (level_up_effect self)
    (start_timer self) (countdown_timer self) (held_piece self)
    (can_hold self) (ai_debug_timer self).

Definition set_grid (v : Grid) (self : Game) : Game :=
  mkGame (current_screen self) (mode self) v (piece_generator self)
    (heap self) (current_piece self) (next_pieces self) (score self)
    (is_paused self) (game_over self) (drop_timer self) (drop_speed self)
    (last_update_time self) (soft_drop_count self) (drop_height self)
    (last_rotation self) (last_move_was_rotation self)
    (hard_drop_count self) (transition self) (level_up_effect self)
    (start_timer self) (countdown_timer self) (held_piece self)
    (can_hold self) (ai_debug_timer self).

Definition set_piece_generator (v : PieceGenerator) (self : Game) : Game :=
  mkGame (current_screen self) (mode self) (grid self) v (heap self)
    (current_piece self) (next_pieces self) (score self) (is_paused self)
    (game_over self) (drop_timer self) (drop_speed self)
    (last_update_time self) (soft_drop_count self) (drop_height self)
    (last_rotation self) (last_move_was_rotation self)
    (hard_drop_count self) (transition self) (level_up_effect self)
    (start_timer self) (countdown_timer self) (held_piece self)
    (can_hold self) (ai_debug_timer self).

Definition set_heap (v : list Tetromino) (self : Game) : Game :=
  mkGame (current_screen self) (mode self) (grid self)
    (piece_generator self) v (current_piece self) (next_pieces self)
    (score self) (is_paused self) (game_over self) (drop_timer self)
    (drop_speed self) (last_update_time self) (soft_drop_count self)
    (drop_height self) (last_rotation self) (last_move_was_rotation self)
    (hard_drop_count self) (transition self) (level_up_effect self)
    (start_timer self) (countdown_timer self) (held_piece self)
    (can_hold self) (ai_debug_timer self).

Definition set_current_piece (v : option loc) (self : Game) : Game :=
  mkGame (current_screen self) (mode self) (grid self)
    (piece_generator self) (heap self) v (next_pieces self) (score self)
    (is_paused self) (game_over self) (drop_timer self) (drop_speed self)
    (last_update_time self) (soft_drop_count self) (drop_height self)
    (last_rotation self) (last_move_was_rotation self)
    (hard_drop_count self) (transition self) (level_up_effect self)
    (start_timer self) (countdown_timer self) (held_piece self)
    (can_hold self) (ai_debug_timer self).

Definition set_next_pieces (v : list string) (self : Game) : Game :=
  mkGame (current_screen self) (mode self) (grid self)
    (piece_generator self) (heap self) (current_piece self) v (score self)
    (is_paused self) (game_over self) (drop_timer self) (drop_speed self)
    (last_update_time self) (soft_drop_count self) (drop_height self)
    (last_rotation self) (last_move_was_rotation self)
    (hard_drop_count self) (transition self) (level_up_effect self)
    (start_timer self) (countdown_timer self) (held_piece self)
    (can_hold self) (ai_debug_timer self).

Definition set_score (v : Score) (self : Game) : Game :=
  mkGame (current_screen self) (mode self) (grid self)
    (piece_generator self) (heap self) (current_piece self)
    (next_pieces self) v (is_paused self) (game_over self) (drop_timer self)
    (drop_speed self) (last_update_time self) (soft_drop_count self)
    (drop_height self) (last_rotation self) (last_move_was_rotation self)
    (hard_drop_count self) (transition self) (level_up_effect self)
    (start_timer self) (countdown_timer self) (held_piece self)
    (can_hold self) (ai_debug_timer self).

Definition set_is_paused (v : bool) (self : Game) : Game :=
  mkGame (current_screen self) (mode self) (grid self)
    (piece_generator self) (heap self) (current_piece self)
    (next_pieces self) (score self) v (game_over self) (drop_timer self)
    (drop_speed self) (last_update_time self) (soft_drop_count self)
    (drop_height self) (last_rotation self) (last_move_was_rotation self)
    (hard_drop_count self) (transition self) (level_up_effect self)
    (start_timer self) (countdown_timer self) (held_piece self)
    (can_hold self) (ai_debug_timer self).

Definition set_game_over (v : bool) (self : Game) : Game :=
  mkGame (current_screen self) (mode self) (grid self)
    (piece_generator self) (heap self) (current_piece self)
    (next_pieces self) (score self) (is_paused self) v (drop_timer self)
    (drop_speed self) (last_update_time self) (soft_drop_count self)
    (drop_height self) (last_rotation self) (last_move_was_rotation self)
    (hard_drop_count self) (transition self) (level_up_effect self)
    (start_timer self) (countdown_timer self) (held_piece self)
    (can_hold self) (ai_debug_timer self).

Definition set_drop_timer (v : Z) (self : Game) : Game :=
  mkGame (current_screen self) (mode self) (grid self)
    (piece_generator self) (heap self) (current_piece self)
    (next_pieces self) (score self) (is_paused self) (game_over self) v
    (drop_speed self) (last_update_time self) (soft_drop_count self)
    (drop_height self) (last_rotation self) (last_move_was_rotation self)
    (hard_drop_count self) (transition self) (level_up_effect self)
    (start_timer self) (countdown_timer self) (held_piece self)
    (can_hold self) (ai_debug_timer self).

Definition set_drop_speed (v : Z) (self : Game) : Game :=
  mkGame (current_screen self) (mode self) (grid self)
    (piece_generator self) (heap self) (current_piece self)
    (next_pieces self) (score self) (is_paused self) (game_over self)
    (drop_timer self) v (last_update_time self) (soft_drop_count self)
    (drop_height self) (last_rotation self) (last_move_was_rotation self)
    (hard_drop_count self) (transition self) (level_up_effect self)
    (start_timer self) (countdown_timer self) (held_piece self)
    (can_hold self) (ai_debug_timer self).

Definition set_last_update_time (v : Z) (self : Game) : Game :=
  mkGame (current_screen self) (mode self) (grid self)
    (piece_generator self) (heap self) (current_piece self)
    (next_pieces self) (score self) (is_paused self) (game_over self)
    (drop_timer self) (drop_speed self) v (soft_drop_count self)
    (drop_height self) (last_rotation self) (last_move_was_rotation self)
    (hard_drop_count self) (transition self) (level_up_effect self)
    (start_timer self) (countdown_timer self) (held_piece self)
    (can_hold self) (ai_debug_timer self).

Definition set_soft_drop_count (v : Z) (self : Game) : Game :=
  mkGame (current_screen self) (mode self) (grid self)
    (piece_generator self) (heap self) (current_piece self)
    (next_pieces self) (score self) (is_paused self) (game_over self)
    (drop_timer self) (drop_speed self) (last_update_time self) v
    (drop_height self) (last_rotation self) (last_move_was_rotation self)
    (hard_drop_count self) (transition self) (level_up_effect self)
    (start_timer self) (countdown_timer self) (held_piece self)
    (can_hold self) (ai_debug_timer self).

Definition set_drop_height (v : Z) (self : Game) : Game :=
  mkGame (current_screen self) (mode self) (grid self)
    (piece_generator self) (heap self) (current_piece self)
    (next_pieces self) (score self) (is_paused self) (game_over self)
    (drop_timer self) (drop_speed self) (last_update_time self)
    (soft_drop_count self) v (last_rotation self)
    (last_move_was_rotation self) (hard_drop_count self) (transition self)
    (level_up_effect self) (start_timer self) (countdown_timer self)
    (held_piece self) (can_hold self) (ai_debug_timer self).

Definition set_last_rotation (v : bool) (self : Game) : Game :=
  mkGame (current_screen self) (mode self) (grid self)
    (piece_generator self) (heap self) (current_piece self)
    (next_pieces self) (score self) (is_paused self) (game_over self)
    (drop_timer self) (drop_speed self) (last_update_time self)
    (soft_drop_count self) (drop_height self) v
    (last_move_was_rotation self) (hard_drop_count self) (transition self)
    (level_up_effect self) (start_timer self) (countdown_timer self)
    (held_piece self) (can_hold self) (ai_debug_timer self).

Definition set_last_move_was_rotation (v : bool) (self : Game) : Game :=
  mkGame (current_screen self) (mode self) (grid self)
    (piece_generator self) (heap self) (current_piece self)
    (next_pieces self) (score self) (is_paused self) (game_over self)
    (drop_timer self) (drop_speed self) (last_update_time self)
    (soft_drop_count self) (drop_height self) (last_rotation self) v
    (hard_drop_count self) (transition self) (level_up_effect self)
    (start_timer self) (countdown_timer self) (held_piece self)
    (can_hold self) (ai_debug_timer self).

Definition set_hard_drop_count (v : Z) (self : Game) : Game :=
  mkGame (current_screen self) (mode self) (grid self)
    (piece_generator self) (heap self) (current_piece self)
    (next_pieces self) (score self) (is_paused self) (game_over self)
    (drop_timer self) (drop_speed self) (last_update_time self)
    (soft_drop_count self) (drop_height self) (last_rotation self)
    (last_move_was_rotation self) v (transition self) (level_up_effect self)
    (start_timer self) (countdown_timer self) (held_piece self)
    (can_hold self) (ai_debug_timer self).

Definition set_transition (v : Transition) (self : Game) : Game :=
  mkGame (current_screen self) (mode self) (grid self)
    (piece_generator self) (heap self) (current_piece self)
    (next_pieces self) (score self) (is_paused self) (game_over self)
    (drop_timer self) (drop_speed self) (last_update_time self)
    (soft_drop_count self) (drop_height self) (last_rotation self)
    (last_move_was_rotation self) (hard_drop_count self) v
    (level_up_effect self) (start_timer self) (countdown_timer self)
    (held_piece self) (can_hold self) (ai_debug_timer self).

Definition set_level_up_effect (v : option Timer) (self : Game) : Game :=
  mkGame (current_screen self) (mode self) (grid self)
    (piece_generator self) (heap self) (current_piece self)
    (next_pieces self) (score self) (is_paused self) (game_over self)
    (drop_timer self) (drop_speed self) (last_update_time self)
    (soft_drop_count self) (drop_height self) (last_rotation self)
    (last_move_was_rotation self) (hard_drop_count self) (transition self) v
    (start_timer self) (countdown_timer self) (held_piece self)
    (can_hold self) (ai_debug_timer self).

Definition set_start_timer (v : option Timer) (self : Game) : Game :=
  mkGame (current_screen self) (mode self) (grid self)
    (piece_generator self) (heap self) (current_piece self)
    (next_pieces self) (score self) (is_paused self) (game_over self)
    (drop_timer self) (drop_speed self) (last_update_time self)
    (soft_drop_count self) (drop_height self) (last_rotation self)
    (last_move_was_rotation self) (hard_drop_count self) (transition self)
    (level_up_effect self) v (countdown_timer self) (held_piece self)
    (can_hold self) (ai_debug_timer self).

Definition set_countdown_timer (v : option Timer) (self : Game) : Game :=
  mkGame (current_screen self) (mode self) (grid self)
    (piece_generator self) (heap self) (current_piece self)
    (next_pieces self) (score self) (is_paused self) (game_over self)
    (drop_timer self) (drop_speed self) (last_update_time self)
    (soft_drop_count self) (drop_height self) (last_rotation self)
    (last_move_was_rotation self) (hard_drop_count self) (transition self)
    (level_up_effect self) (start_timer self) v (held_piece self)
    (can_hold self) (ai_debug_timer self).

Definition set_held_piece (v : option loc) (self : Game) : Game :=
  mkGame (current_screen self) (mode self) (grid self)
    (piece_generator self) (heap self) (current_piece self)
    (next_pieces self) (score self) (is_paused self) (game_over self)
    (drop_timer self) (drop_speed self) (last_update_time self)
    (soft_drop_count self) (drop_height self) (last_rotation self)
    (last_move_was_rotation self) (hard_drop_count self) (transition self)
    (level_up_effect self) (start_timer self) (countdown_timer self) v
    (can_hold self) (ai_debug_timer self).

Definition set_can_hold (v : bool) (self : Game) : Game :=
  mkGame (current_screen self) (mode self) (grid self)
    (piece_generator self) (heap self) (current_piece self)
    (next_pieces self) (score self) (is_paused self) (game_over self)
    (drop_timer self) (drop_speed self) (last_update_time self)
    (soft_drop_count self) (drop_height self) (last_rotation self)
    (last_move_was_rotation self) (hard_drop_count self) (transition self)
    (level_up_effect self) (start_timer self) (countdown_timer self)
    (held_piece self) v (ai_debug_timer self).

Definition set_ai_debug_timer (v : Z) (self : Game) : Game :=
  mkGame (current_screen self) (mode self) (grid self)
    (piece_generator self) (heap self) (current_piece self)
    (next_pieces self) (score self) (is_paused self) (game_over self)
    (drop_timer self) (drop_speed self) (last_update_time self)
    (soft_drop_count self) (drop_height self) (last_rotation self)
    (last_move_was_rotation self) (hard_drop_count self) (transition self)
    (level_up_effect self) (start_timer self) (countdown_timer self)
    (held_piece self) (can_hold self) v.

(** [Tetromino(...)]: a new object at a fresh address. *)
Definition alloc (p : Tetromino) (self : Game) : loc * Game :=
  (length (heap self), set_heap (heap self ++ [p]) self).

(** A mutation of the object at address [l]. *)
Definition store (l : loc) (p : Tetromino) (self : Game) : Game :=
  set_heap (<[l := p]> (heap self)) self.

(** ** Corner-based spin detection (lines 551-616) *)

(** [is_cell_filled]: [None] stands for the [IndexError] an access outside
    the lists would raise. *)
Definition is_cell_filled (self : Game) (x y : Z) : option bool :=
  if (x <? 0) || (x >=? width (grid self))
     || (y <? 0) || (y >=? height (grid self))
  then Some true
  else
    row ← py_index (cells (grid self)) y;
    c ← py_index row x;
    Some (truthy c).

Definition get_back_corners (piece : Tetromino) : list (Z * Z) :=
  if rotation_state piece =? 0 then
    [(x piece, y piece); (x piece + 2, y piece)]
  else if rotation_state piece =? 1 then
    [(x piece + 2, y piece); (x piece + 2, y piece + 2)]
  else if rotation_state piece =? 2 then
    [(x piece, y piece + 2); (x piece + 2, y piece + 2)]
  else
    [(x piece, y piece); (x piece, y piece + 2)].

Definition get_front_corners (piece : Tetromino) : list (Z * Z) :=
  if rotation_state piece =? 0 then
    [(x piece, y piece + 2); (x piece + 2, y piece + 2)]
  else if rotation_state piece =? 1 then
    [(x piece, y piece); (x piece, y piece + 2)]
  else if rotation_state piece =? 2 then
    [(x piece, y piece); (x piece + 2, y piece)]
  else
    [(x piece + 2, y piece); (x piece + 2, y piece + 2)].

(** [sum(1 for x, y in corners if self.is_cell_filled(x, y))]. *)
Fixpoint count_filled (self : Game) (corners : list (Z * Z)) : option Z :=
  match corners with
  | [] => Some 0
  | (cx, cy) :: rest =>
      filled ← is_cell_filled self cx cy;
      n ← count_filled self rest;
      Some ((if filled : bool then 1 else 0) + n)
  end.

(** The four cells [check_t_spin] inspects around the centre of the piece. *)
Definition t_spin_corners (piece : Tetromino) : list (Z * Z) :=
  let center_x := x piece + 1 in
  let center_y := y piece + 1 in
  [(center_x - 1, center_y - 1); (center_x + 1, center_y - 1);
   (center_x - 1, center_y + 1); (center_x + 1, center_y + 1)].

(** [check_t_spin]; reading [self.current_piece.shape_name] raises when there
    is no current piece. *)
Definition check_t_spin (self : Game) : option TSpin :=
  l ← current_piece self;
  piece ← heap self !! l;
  if negb (String.eqb (shape_name piece) "T")
     || negb (last_move_was_rotation self)
  then Some NoSpin
  else
    filled_corners ← count_filled self (t_spin_corners piece);
    filled_front_corners ← count_filled self (get_front_corners piece);
    filled_back_corners ← count_filled self (get_back_corners piece);
    if filled_corners >=? 3 then
      if filled_front_corners >=? 2 then Some SpinMini else Some SpinNormal
    else Some NoSpin.

(** ** [update]: the blocks of the game screen (lines 274-414) *)

(** [range(n)]. *)
Definition py_range (n : Z) : list Z :=
  map Z.of_nat (seq 0 (Z.to_nat n)).

(** The two statements that obtain a new active piece (lines 271-272,
    282-283, 399-400, 670-671): [get_next_piece] creates the piece, a new
    object, and the preview is refreshed from the advanced generator. *)
Definition take_next_piece (self : Game) : Game :=
  let '(piece, generator) :=
    get_next_piece (piece_generator self) (grid self) in
  let self := set_piece_generator generator self in
  let '(l, self) := alloc piece self in
  let self := set_current_piece (Some l) self in
  set_next_pieces (preview_next_pieces (piece_generator self)) self.

(** The AI block (lines 299-328), on the value of the current piece.
    Whether its two horizontal loops end depends on [Tetromino.move], so each
    consumes fuel and [None] is returned when it runs out. *)
Fixpoint ai_rotate (max_rotation_attempts : nat) (g : Grid)
    (target_rotation : Z) (p : Tetromino) : Tetromino :=
  match max_rotation_attempts with
  | O => p
  | S attempts =>
      if rotation_state p =? target_rotation then p
      else
        let '(p', rotated) := rotate g p in
        if rotated then ai_rotate attempts g target_rotation p' else p'
  end.

Fixpoint ai_move_right (fuel : nat) (g : Grid) (target_x : Z)
    (p : Tetromino) : option Tetromino :=
  if x p <? target_x then
    match fuel with
    | O => None
    | S fuel' =>
        let '(p', moved) := move 1 0 g p in
        if moved then ai_move_right fuel' g target_x p' else Some p'
    end
  else Some p.

Fixpoint ai_move_left (fuel : nat) (g : Grid) (target_x : Z)
    (p : Tetromino) : option Tetromino :=
  if x p >? target_x then
    match fuel with
    | O => None
    | S fuel' =>
        let '(p', moved) := move (-1) 0 g p in
        if moved then ai_move_left fuel' g target_x p' else Some p'
    end
  else Some p.

Definition ai_debug_interval : Z := 1000.

Definition ai_block (fuel : nat) (current_time : Z) (p : Tetromino)
    (self : Game) : option (Tetromino * Game) :=
  if String.eqb (mode self) "AI" && negb (is_paused self) then
    p ← match get_best_move (grid self) p with
        | Some best_move =>
            let p := ai_rotate 4 (grid self) (bm_rotation best_move) p in
            p ← ai_move_right fuel (grid self) (bm_x best_move) p;
            p ← ai_move_left fuel (grid self) (bm_x best_move) p;
            if y p <? bm_y best_move
            then Some (fst (move 0 1 (grid self) p))
            else Some p
        | None => Some p
        end;
    if current_time - ai_debug_timer self >? ai_debug_interval
    then Some (p, set_ai_debug_timer current_time self)
    else Some (p, self)
  else Some (p, self).

(** Gravity (lines 333-336), on the value of the current piece. *)
Definition apply_gravity (p : Tetromino) (self : Game) : Tetromino * Game :=
  if drop_timer self >? drop_speed self then
    let p := fst (move 0 1 (grid self) p) in
    let self := set_drop_timer 0 self in
    let self := set_drop_height (drop_height self + 1) self in
    (p, self)
  else (p, self).

(** Lock delay (lines 338-350), on the value of the current piece. *)
Definition handle_lock_delay (delta_time : Z) (g : Grid)
    (p : Tetromino) : Tetromino :=
  if lock_delay_active p then
    let p := set_lock_delay_timer (lock_delay_timer p + delta_time) p in
    if (lock_delay_timer p >=? LOCK_DELAY)
       || (lock_moves_count p >=? MAX_LOCK_MOVES) then
      if is_touching_ground g p then set_is_locked true p
      else
        let p := set_lock_delay_active false p in
        let p := set_lock_moves_count 0 p in
        set_lock_delay_timer 0 p
    else p
  else p.

(** [all(self.grid.cells[y][x] != 0 for x in ...)]: [all] stops at the first
    cell that is [0]. *)
Fixpoint row_is_full (g : Grid) (y : Z) (xs : list Z) : option bool :=
  match xs with
  | [] => Some true
  | x :: xs' =>
      row ← py_index (cells g) y;
      c ← py_index row x;
      if cell_ne_zero c then row_is_full g y xs' else Some false
  end.

(** The loop that fills [lines_to_clear] (lines 360-363), over the rows [ys]
    in the order given. *)
Fixpoint collect_full_rows (g : Grid) (ys : list Z) : option (list Z) :=
  match ys with
  | [] => Some []
  | y :: ys' =>
      full ← row_is_full g y (py_range (width g));
      rest ← collect_full_rows g ys';
      Some (if full : bool then y :: rest else rest)
  end.

(** [range(self.grid.height - 1, -1, -1)]. *)
Definition find_lines_to_clear (g : Grid) : option (list Z) :=
  collect_full_rows g (rev (py_range (height g))).

Definition update_drop_speed (self : Game) : Game :=
  set_drop_speed
    (Z.max MIN_DROP_SPEED
       (INITIAL_DROP_SPEED - (level (score self) - 1) * SPEED_INCREMENT))
    self.

(** [check_high_score]; the input box it creates is presentation. *)
Definition check_high_score (self : Game) : Game :=
  if is_high_score (points (score self))
  then set_current_screen ScreenEnterName self
  else set_current_screen ScreenHighScores self.

(** The object [self.current_piece] refers to. *)
Definition current (self : Game) : option Tetromino :=
  l ← current_piece self;
  heap self !! l.

(** Scoring, the reset of the per-piece counters, the level and the drop
    speed, the all-clear bonus (lines 371-397). *)
Definition score_and_reset (t_spin_type : TSpin) (lines_cleared : Z)
    (self : Game) : Game :=
  let '(turn_score, notifications, new_score) :=
    Score_update lines_cleared t_spin_type false (drop_height self)
      (soft_drop_count self) (hard_drop_count self) (score self) in
  let self := set_score new_score self in
  let self := set_drop_height 0 self in
  let self := set_soft_drop_count 0 self in
  let self := set_hard_drop_count 0 self in
  let self := set_last_rotation false self in
  let self := set_last_move_was_rotation false self in
  let self :=
    if lines_cleared >? 0
    then update_drop_speed (set_score (update_level (score self)) self)
    else self in
  if is_board_clear (grid self)
  then set_score (snd (add_tetris_clear_bonus (score self))) self
  else self.

(** The next piece and the spawn check (lines 399-406). *)
Definition spawn_after_lock (self : Game) : option Game :=
  let self := take_next_piece self in
  let self := set_can_hold true self in
  p ← current self;
  if is_collision (grid self) p then
    let self := set_game_over true self in
    let self := set_current_screen ScreenGameOver self in
    Some (check_high_score self)
  else Some self.

(** The body of [if self.current_piece.is_locked:] (lines 352-406). *)
Definition lock_and_advance (was_rotation : bool) (self : Game)
    : option Game :=
  t_spin_type ← (if was_rotation then check_t_spin self else Some NoSpin);
  p ← current self;
  let self := set_grid (lock_piece (grid self) p) self in
  lines_to_clear ← find_lines_to_clear (grid self);
  let lines_cleared := Z.of_nat (length lines_to_clear) in
  let self :=
    if lines_cleared >? 0
    then set_grid (clear_lines (grid self)) self
    else self in
  let self := score_and_reset t_spin_type lines_cleared self in
  spawn_after_lock self.

(** The body of [if self.current_piece:] (lines 295-406) for the piece at
    address [l]: the piece is read once, the blocks change its value, and the
    value is written back before [check_t_spin] reads it again. *)
Definition update_current_piece (fuel : nat) (current_time delta_time : Z)
    (l : loc) (self : Game) : option Game :=
  p ← heap self !! l;
  let p := update_position (grid self) p in
  '(p, self) ← ai_block fuel current_time p self;
  let was_rotation := last_move_was_rotation self in
  let '(p, self) := apply_gravity p self in
  let p := handle_lock_delay delta_time (grid self) p in
  let self := store l p self in
  if is_locked p then lock_and_advance was_rotation self else Some self.

(** The end of the game branch (lines 408-414). *)
Definition end_of_frame (self : Game) : Game :=
  let self := set_transition (transition_update (transition self)) self in
  match level_up_effect self with
  | Some t =>
      let t := timer_tick t in
      if timer_expired t then set_level_up_effect None self
      else set_level_up_effect (Some t) self
  | None => self
  end.

(** The game branch of [update] (lines 274-414). *)
Definition update_game (fuel : nat) (current_time : Z) (self : Game)
    : option Game :=
  match start_timer self with
  | Some t =>
      let t := timer_tick t in
      if timer_expired t then
        let self := set_start_timer None self in
        let self := take_next_piece self in
        Some (set_can_hold true self)
      else Some (set_start_timer (Some t) self)
  | None =>
      if game_over self || is_paused self then Some self
      else
        let delta_time := current_time - last_update_time self in
        let self := set_drop_timer (drop_timer self + delta_time) self in
        let self := set_last_update_time current_time self in
        self ← match current_piece self with
               | Some l =>
                   update_current_piece fuel current_time delta_time l self
               | None => Some self
               end;
        Some (end_of_frame self)
  end.

(** [update]: one frame.  [current_time] is what [pygame.time.get_ticks]
    returns in this frame; [None] is an exception, or the fuel of the AI
    loops running out. *)
Definition update (fuel : nat) (current_time : Z) (self : Game)
    : option Game :=
  match current_screen self with
  | ScreenMenu => Some self
  | ScreenTransitionToGame =>
      let self := set_transition (transition_update (transition self)) self in
      if negb (transition_is_active (transition self)) then
        let self := set_current_screen ScreenCountdown self in
        Some (set_countdown_timer (Some timer_three) self)
      else Some self
  | ScreenCountdown =>
      t ← countdown_timer self;
      let t := timer_tick t in
      let self := set_countdown_timer (Some t) self in
      if timer_expired t then
        let self := set_current_screen ScreenGame self in
        let self := take_next_piece self in
        Some (set_can_hold true self)
      else Some self
  | ScreenGame => update_game fuel current_time self
  | _ => Some self
  end.

(** ** Hold (lines 665-677, and the [K_c] key of [handle_events]) *)

Definition hold_piece (self : Game) : option Game :=
  match held_piece self with
  | None =>
      cur ← current self;
      let '(l, self) :=
        alloc (Tetromino_init (shape_name cur) (grid self)) self in
      let self := set_held_piece (Some l) self in
      Some (take_next_piece self)
  | Some lh =>
      cur ← current self;
      let temp_shape_name := shape_name cur in
      held ← heap self !! lh;
      let '(l, self) :=
        alloc (Tetromino_init (shape_name held) (grid self)) self in
      let self := set_current_piece (Some l) self in
      let self :=
        store l (reset_position (grid self)
                   (Tetromino_init (shape_name held) (grid self))) self in
      let '(l', self) :=
        alloc (Tetromino_init temp_shape_name (grid self)) self in
      Some (set_held_piece (Some l') self)
  end.

(** [elif event.key == pygame.K_c:] (lines 198-201). *)
Definition key_hold (self : Game) : option Game :=
  if can_hold self then
    self ← hold_piece self;
    Some (set_can_hold false self)
  else Some self.

(** ** Sessions (lines 105-127) *)

Definition start_new_game (current_time : Z) (self : Game) : Game :=
  let self := set_grid (Grid_init 10 20) self in
  let self := set_piece_generator (PieceGenerator_init (grid self)) self in
  let self := set_current_piece None self in
  let self :=
    set_next_pieces (preview_next_pieces (piece_generator self)) self in
  let self := set_score Score_init self in
  let self := set_is_paused false self in
  let self := set_game_over false self in
  let self := set_drop_timer 0 self in
  let self := set_drop_speed INITIAL_DROP_SPEED self in
  let self := set_last_update_time current_time self in
  let self := set_current_screen ScreenTransitionToGame self in
  let self := set_countdown_timer None self in
  let self := set_held_piece None self in
  set_can_hold true self.

Definition return_to_menu (self : Game) : Game :=
  let self := set_current_screen ScreenMenu self in
  let self := set_is_paused false self in
  set_game_over false self.

End GameModel.

(** ** A reference implementation of the collaborators

    Used to run the model on concrete boards. *)

Module Sample.

(** Modelled from the spec: the values of [constants.py], which the spec
    names without giving them; these are sample values in milliseconds. *)
#[export] Instance sample_constants : Constants := {
  INITIAL_DROP_SPEED := 1000;
  MIN_DROP_SPEED := 100;
  SPEED_INCREMENT := 50;
  LOCK_DELAY := 500;
  MAX_LOCK_MOVES := 15
}.

(** Modelled from the spec: the occupied offsets of a shape per rotation
    state (section 3), for the shapes T, O and I; the T piece lives in a 3x3
    box whose centre is at offset (1, 1). *)
Definition offsets (name : string) (rotation : Z) : list (Z * Z) :=
  if String.eqb name "T" then
    if rotation =? 0 then [(1, 0); (0, 1); (1, 1); (2, 1)]
    else if rotation =? 1 then [(1, 0); (1, 1); (2, 1); (1, 2)]
    else if rotation =? 2 then [(0, 1); (1, 1); (2, 1); (1, 2)]
    else [(1, 0); (0, 1); (1, 1); (1, 2)]
  else if String.eqb name "I" then
    if Z.even rotation then [(0, 1); (1, 1); (2, 1); (3, 1)]
    else [(2, 0); (2, 1); (2, 2); (2, 3)]
  else [(1, 0); (2, 0); (1, 1); (2, 1)].

Definition get_block_positions (p : Tetromino) : list (Z * Z) :=
  map (fun d => (x p + fst d, y p + snd d))
      (offsets (shape_name p) (rotation_state p)).

(** The cell at column [cx] of row [cy], when there is one. *)
Definition cell_at (g : Grid) (cx cy : Z) : option Cell :=
  if (0 <=? cx) && (cx <? width g) && (0 <=? cy) && (cy <? height g)
  then row ← py_index (cells g) cy; py_index row cx
  else None.

(** Modelled from the spec: [isCollision] (section 4.1): a cell outside the
    horizontal bounds or at or below the bottom bound, or one that overlaps
    a non-empty cell; cells above row 0 never collide. *)
Definition sample_is_collision (g : Grid) (p : Tetromino) : bool :=
  existsb
    (fun c =>
       (fst c <? 0) || (fst c >=? width g) || (snd c >=? height g)
       || match cell_at g (fst c) (snd c) with
          | Some v => cell_ne_zero v
          | None => false
          end)
    (get_block_positions p).

Definition with_position (nx ny nr : Z) (p : Tetromino) : Tetromino :=
  mkTetromino (shape_name p) nx ny nr (lock_delay_active p)
    (lock_delay_timer p) (lock_moves_count p) (is_locked p).

Definition sample_is_touching_ground (g : Grid) (p : Tetromino) : bool :=
  sample_is_collision g (with_position (x p) (y p + 1) (rotation_state p) p).

(** Modelled from the spec: a successful move or rotation of a piece whose
    lock delay is active counts as a lock move and restarts the timer
    (section 4.2). *)
Definition after_action (p : Tetromino) : Tetromino :=
  if lock_delay_active p then
    mkTetromino (shape_name p) (x p) (y p) (rotation_state p) true 0
      (lock_moves_count p + 1) (is_locked p)
  else p.

(** Modelled from the spec: [move] applies the translation only when the
    resulting position does not collide (section 4.2). *)
Definition sample_move (dx dy : Z) (g : Grid) (p : Tetromino)
    : Tetromino * bool :=
  let p' := with_position (x p + dx) (y p + dy) (rotation_state p) p in
  if sample_is_collision g p' then (p, false) else (after_action p', true).

(** Modelled from the spec: [rotate] without wall kicks (section 4.2). *)
Definition sample_rotate (g : Grid) (p : Tetromino) : Tetromino * bool :=
  let p' := with_position (x p) (y p) ((rotation_state p + 1) mod 4) p in
  if sample_is_collision g p' then (p, false) else (after_action p', true).

(** Modelled from the spec: [updatePosition] starts the lock delay of a piece
    that rests on something (section 4.2). *)
Definition sample_update_position (g : Grid) (p : Tetromino) : Tetromino :=
  if sample_is_touching_ground g p && negb (lock_delay_active p) then
    mkTetromino (shape_name p) (x p) (y p) (rotation_state p) true 0
      (lock_moves_count p) (is_locked p)
  else p.

Definition spawn_x (g : Grid) : Z := width g / 2 - 2.

Definition sample_init (name : string) (g : Grid) : Tetromino :=
  mkTetromino name (spawn_x g) 0 0 false 0 0 false.

Definition sample_reset_position (g : Grid) (p : Tetromino) : Tetromino :=
  with_position (spawn_x g) 0 0 p.

#[export] Instance sample_tetromino : TetrominoOps := {
  Tetromino_init := sample_init;
  move := sample_move;
  rotate := sample_rotate;
  is_touching_ground := sample_is_touching_ground;
  update_position := sample_update_position;
  reset_position := sample_reset_position
}.

Definition empty_row (w : Z) : list Cell := repeat (CInt 0) (Z.to_nat w).

Definition sample_grid_init (w h : Z) : Grid :=
  mkGrid w h (repeat (empty_row w) (Z.to_nat h)).

Definition set_cell (v : Cell) (c : Z * Z) (rows : list (list Cell))
    : list (list Cell) :=
  if (0 <=? fst c) && (0 <=? snd c) then
    match rows !! Z.to_nat (snd c) with
    | Some row =>
        <[Z.to_nat (snd c) := <[Z.to_nat (fst c) := v]> row]> rows
    | None => rows
    end
  else rows.

(** Modelled from the spec: [lock] writes the colour of the piece into every
    cell it occupies (section 4.1). *)
Definition sample_lock_piece (g : Grid) (p : Tetromino) : Grid :=
  mkGrid (width g) (height g)
    (foldr (set_cell (CColor 160 0 240)) (cells g) (get_block_positions p)).

Definition row_full (row : list Cell) : bool := forallb cell_ne_zero row.

(** Modelled from the spec: [clearRows] removes the full rows and backfills
    the top with empty rows (section 4.1). *)
Definition sample_clear_lines (g : Grid) : Grid :=
  let kept := filter (fun row => row_full row = false) (cells g) in
  mkGrid (width g) (height g)
    (repeat (empty_row (width g)) (length (cells g) - length kept)%nat
     ++ kept).

Definition sample_is_board_clear (g : Grid) : bool :=
  forallb (forallb (fun c => negb (cell_ne_zero c))) (cells g).

#[export] Instance sample_grid : GridOps := {
  Grid_init := sample_grid_init;
  lock_piece := sample_lock_piece;
  clear_lines := sample_clear_lines;
  is_board_clear := sample_is_board_clear;
  is_collision := sample_is_collision
}.

(** Modelled from the spec: a sequencer that deals its shapes from a queue
    and refills it with a bag when it runs out (section 4.3); the bag of this
    instance is dealt in a fixed order. *)
Definition bag : list string := ["T"; "O"; "I"]%string.

Definition sample_get_next_piece (queue : list string) (g : Grid)
    : Tetromino * list string :=
  match queue with
  | name :: rest => (sample_init name g, if rest is [] then bag else rest)
  | [] => (sample_init "T" g, ["O"; "I"]%string)
  end.

#[export] Instance sample_generator : GeneratorOps := {
  PieceGenerator := list string;
  PieceGenerator_init := fun _ => bag;
  get_next_piece := sample_get_next_piece;
  preview_next_pieces := take 3
}.

Record SampleScore : Type := mkSampleScore {
  s_points : Z;
  s_level : Z;
  s_lines : Z
}.

(** Modelled from the spec: base points per number of lines, multiplied by
    the level, plus a spin bonus and the drop bonuses (section 4.5); the
    level changes in [updateLevel] only. *)
Definition sample_score_update (lines : Z) (t_spin : TSpin) (_ : bool)
    (drop soft hard : Z) (sc : SampleScore)
    : (Z * list string) * SampleScore :=
  let base :=
    if lines =? 1 then 100 else if lines =? 2 then 300
    else if lines =? 3 then 500 else if lines =? 4 then 800 else 0 in
  let spin :=
    match t_spin with NoSpin => 0 | SpinMini => 100 | SpinNormal => 400 end in
  let turn := base * s_level sc + spin + soft + 2 * hard in
  (turn, if lines =? 4 then ["Tetris!"%string] else [],
   mkSampleScore (s_points sc + turn) (s_level sc) (s_lines sc + lines)).

Definition sample_update_level (sc : SampleScore) : SampleScore :=
  mkSampleScore (s_points sc) (1 + s_lines sc / 10) (s_lines sc).

Definition sample_clear_bonus (sc : SampleScore) : Z * SampleScore :=
  (2000, mkSampleScore (s_points sc + 2000) (s_level sc) (s_lines sc)).

#[export] Instance sample_score : ScoreOps := {
  Score := SampleScore;
  Score_init := mkSampleScore 0 1 0;
  level := s_level;
  points := s_points;
  Score_update := sample_score_update;
  update_level := sample_update_level;
  add_tetris_clear_bonus := sample_clear_bonus
}.

(** An evaluator that never proposes a move. *)
#[export] Instance sample_ai : AIOps := {
  get_best_move := fun _ _ => None
}.

(** Timers counted in frames of 1/60 second: the float 3 of line 266 is at
    or below 0 after 181 subtractions of [1/60], not after 180; a high-score
    table that accepts every positive score. *)
#[export] Instance sample_frame : FrameOps := {
  Timer := nat;
  timer_three := 181%nat;
  timer_tick := Nat.pred;
  timer_expired := fun t => Nat.eqb t 0;
  Transition := nat;
  transition_update := Nat.pred;
  transition_is_active := fun t => negb (Nat.eqb t 0);
  is_high_score := fun s => s >? 0
}.

End Sample.

(** ** Notions used to state the properties *)

(** The invariant of a [Grid]: [height] rows of [width] cells each. *)
Definition grid_wf (g : Grid) : bool :=
  (Z.of_nat (length (cells g)) =? height g)
  && forallb (fun row => Z.of_nat (length row) =? width g) (cells g).

Definition out_of_board (g : Grid) (c : Z * Z) : bool :=
  (fst c <? 0) || (fst c >=? width g) || (snd c <? 0) || (snd c >=? height g).

(** A cell counts as filled when it lies outside the board or holds a
    block. *)
Definition filled_at (g : Grid) (c : Z * Z) : bool :=
  out_of_board g c
  || match cells g !! Z.to_nat (snd c) with
     | Some row =>
         match row !! Z.to_nat (fst c) with
         | Some v => bool_decide (v ≠ CInt 0)
         | None => false
         end
     | None => false
     end.

(** How many of the cells [cs] are filled. *)
Definition filled_count (g : Grid) (cs : list (Z * Z)) : Z :=
  Z.of_nat (length (filter (fun c => filled_at g c = true) cs)).

(** Row [y] of the board has no empty cell. *)
Definition full_row (g : Grid) (y : Z) : Prop :=
  0 <= y < height g /\
  exists row, cells g !! Z.to_nat y = Some row /\ Forall (fun c => c ≠ CInt 0) row.

Section Frames.

Context {constants : Constants} {tetromino_ops : TetrominoOps}
        {grid_ops : GridOps} {generator_ops : GeneratorOps}
        {score_ops : ScoreOps} {ai_ops : AIOps} {frame_ops : FrameOps}.

(** A sequence of frames, one call of [update] per clock reading. *)
Fixpoint run_updates (fuel : nat) (times : list Z) (self : Game)
    : option Game :=
  match times with
  | [] => Some self
  | t :: times' => self' ← update fuel t self; run_updates fuel times' self'
  end.

(** The screens the session is on once it has ended (lines 404-406 and
    [check_high_score]). *)
Definition session_ended (self : Game) : Prop :=
  game_over self = true /\
  (current_screen self = ScreenEnterName \/
   current_screen self = ScreenHighScores).

(** [game_over] is only ever set together with the change of screen. *)
Definition over_inv (self : Game) : Prop :=
  game_over self = true -> session_ended self.

(** The two states agree on everything but the timers and counters of the
    frame. *)
Definition same_core (self self' : Game) : Prop :=
  heap self' = heap self /\ current_piece self' = current_piece self /\
  held_piece self' = held_piece self /\ grid self' = grid self /\
  score self' = score self /\ game_over self' = game_over self /\
  current_screen self' = current_screen self /\
  start_timer self' = start_timer self /\
  piece_generator self' = piece_generator self /\
  last_move_was_rotation self' = last_move_was_rotation self.

(** What one frame does to the objects of the heap and to [game_over]: the
    objects other than the current piece keep their value, the held piece is
    the same object, and [game_over] changes only by the session ending. *)
Definition frame_effect (self self' : Game) : Prop :=
  held_piece self' = held_piece self /\
  (forall a : loc, current_piece self ≠ Some a ->
     (a < length (heap self))%nat -> heap self' !! a = heap self !! a) /\
  (session_ended self' \/
   (game_over self' = game_over self /\
    (current_screen self' = current_screen self
     \/ game_over self = false))).

End Frames.

(** Reduces the projections of a [Game] applied to its field updates. *)
Ltac game_simpl :=
  cbn [store alloc set_current_screen set_grid set_piece_generator
       set_heap set_current_piece set_next_pieces set_score set_is_paused
       set_game_over set_drop_timer set_drop_speed set_last_update_time
       set_soft_drop_count set_drop_height set_last_rotation
       set_last_move_was_rotation set_hard_drop_count set_transition
       set_level_up_effect set_start_timer set_countdown_timer
       set_held_piece set_can_hold set_ai_debug_timer
       current_screen mode grid piece_generator heap current_piece
       next_pieces score is_paused game_over drop_timer drop_speed
       last_update_time soft_drop_count drop_height last_rotation
       last_move_was_rotation hard_drop_count transition level_up_effect
       start_timer countdown_timer held_piece can_hold ai_debug_timer
       fst snd mbind option_bind] in *.

(** The corner tables have four cases, the last one taking every rotation
    state other than 0, 1 and 2. *)
Ltac rotation_cases piece :=
  unfold get_front_corners, get_back_corners;
  destruct (rotation_state piece =? 0);
    [|destruct (rotation_state piece =? 1);
      [|destruct (rotation_state piece =? 2)]].

(** ** Concrete boards and sessions *)

Module Boards.

Import Sample.

(** A 10x20 board whose filled cells are [blocks]. *)
Definition board (blocks : list (Z * Z)) : Grid :=
  mkGrid 10 20
    (foldr (set_cell (CColor 128 128 128)) (cells (sample_grid_init 10 20))
       blocks).

(** A session on the game screen with the pieces [pieces] allocated, the
    current piece at address 0 when there is one. *)
Definition session (g : Grid) (pieces : list Tetromino) (rotated : bool)
    : Game :=
  mkGame ScreenGame "Classic Mode" g bag pieces
    (if pieces is [] then None else Some 0%nat) (take 3 bag)
    (mkSampleScore 0 1 0) false false 0 1000 0 0 0 false rotated 0
    0%nat None None None None true 0.

(** A T piece pointing down, its stem in a slot of the bottom row. *)
Definition t_down : Tetromino := mkTetromino "T" 3 17 2 true 0 0 false.

(** The slot with one block overhanging it on the left. *)
Definition pocket_normal : Game :=
  session (board [(3, 19); (5, 19); (3, 17)]) [t_down] true.

(** The slot with blocks overhanging it on both sides. *)
Definition pocket_mini : Game :=
  session (board [(3, 19); (5, 19); (3, 17); (5, 17)]) [t_down] true.

(** The same piece after 490 ms of lock delay. *)
Definition t_resting : Tetromino := mkTetromino "T" 3 17 2 true 490 0 false.

(** The bottom row filled but for the slot of the stem, nine lines cleared
    so far. *)
Definition line_ready : Game :=
  set_score (mkSampleScore 0 1 9)
    (session
       (board (map (fun c => (c, 19)) [0; 1; 2; 3; 5; 6; 7; 8; 9]))
       [t_down] true).

(** The same board with a block overhanging the slot, the piece 490 ms into
    its lock delay. *)
Definition about_to_lock : Game :=
  set_score (mkSampleScore 0 1 9)
    (session
       (board ((3, 17) :: map (fun c => (c, 19)) [0; 1; 2; 3; 5; 6; 7; 8; 9]))
       [t_resting] true).

(** A tower in column 4 that reaches row 1, where the next piece of the bag
    (a T) spawns; the current piece is an O to the right of it. *)
Definition o_piece : Tetromino := mkTetromino "O" 6 3 0 false 0 0 false.

Definition blocked : Game :=
  session (board (map (fun r => (4, Z.of_nat r)) (seq 1 19))) [o_piece]
    false.

(** A tower in column 3 that reaches row 1.  An O piece spawns on columns 4
    and 5, free of it; the I piece that follows the O in the bag spawns on
    the cells (3, 1) to (6, 1), the first of which is on the tower. *)
Definition tower : Grid :=
  board (map (fun r => (3, Z.of_nat r)) (seq 1 19)).

(** The state the lock step leaves on this board when it deals the O piece:
    the O at its spawn position, nothing held, the generator about to deal
    the I. *)
Definition crowded : Game :=
  set_next_pieces ["I"%string]
    (set_piece_generator ["I"%string]
       (session tower [sample_init "O" tower] false)).

(** A session that has ended, on the high-score screen. *)
Definition ended : Game :=
  set_current_screen ScreenHighScores (set_game_over true blocked).

End Boards.

(** ** Input handling (lines 129-236) and the remaining methods *)

(** [tetromino.py], the two methods that only the key handlers call:
    [hard_drop] returns the number of rows dropped. *)
Class TetrominoKeyOps : Type := {
  reset_lock_delay : Tetromino -> Tetromino;
  hard_drop : Grid -> Tetromino -> Tetromino * Z
}.

(** The keys [handle_events] distinguishes on the game screen. *)
Inductive Key : Type :=
| K_ESCAPE | K_p | K_LEFT | K_RIGHT | K_DOWN | K_UP | K_SPACE | K_c
| K_other.

(** A pygame event: its type and, for the keyboard events, the key; [OTHER]
    stands for every other event (mouse, window), told apart by a tag. *)
Inductive Event : Type :=
| QUIT
| KEYDOWN (key : Key)
| KEYUP (key : Key)
| OTHER (tag : nat).

(** [button.py]: whether [back_button.handle_event] runs the action of the
    button, [return_to_menu], for this event. *)
Class ButtonOps : Type := {
  back_button_fires : Event -> bool
}.

(** The drawing geometry of a grid ([grid.x_offset], [grid.y_offset] and
    [grid.cell_size]), in pixels. *)
Class GridGeometry : Type := {
  x_offset : Grid -> Z;
  y_offset : Grid -> Z;
  cell_size : Grid -> Z
}.

(** The key-repeat fields of [Game.__init__] (lines 97-103). *)
Record Keys : Type := mkKeys {
  left_pressed : bool;
  right_pressed : bool;
  down_pressed : bool;
  left_press_time : Z;
  right_press_time : Z;
  down_press_time : Z;
  last_movement_time : Z
}.

Definition press_left (t : Z) (k : Keys) : Keys :=
  mkKeys true (right_pressed k) (down_pressed k) t (right_press_time k)
    (down_press_time k) (last_movement_time k).

Definition press_right (t : Z) (k : Keys) : Keys :=
  mkKeys (left_pressed k) true (down_pressed k) (left_press_time k) t
    (down_press_time k) (last_movement_time k).

Definition press_down (t : Z) (k : Keys) : Keys :=
  mkKeys (left_pressed k) (right_pressed k) true (left_press_time k)
    (right_press_time k) t (last_movement_time k).

Definition release_left (k : Keys) : Keys :=
  mkKeys false (right_pressed k) (down_pressed k) (left_press_time k)
    (right_press_time k) (down_press_time k) (last_movement_time k).

Definition release_right (k : Keys) : Keys :=
  mkKeys (left_pressed k) false (down_pressed k) (left_press_time k)
    (right_press_time k) (down_press_time k) (last_movement_time k).

Definition release_down (k : Keys) : Keys :=
  mkKeys (left_pressed k) (right_pressed k) false (left_press_time k)
    (right_press_time k) (down_press_time k) (last_movement_time k).

Definition set_last_movement_time (t : Z) (k : Keys) : Keys :=
  mkKeys (left_pressed k) (right_pressed k) (down_pressed k)
    (left_press_time k) (right_press_time k) (down_press_time k) t.

(** Lines 24-25. *)
Definition INITIAL_DELAY : Z := 170.
Definition REPEAT_DELAY : Z := 50.

(** What a call of [handle_events] ends in: [exit()] after a [QUIT] event, or
    the new key state and game. *)
Inductive Outcome {G : Type} : Type :=
| Exited
| Running (keys : Keys) (game : G).
Arguments Outcome : clear implicits.

Section Input.

Context {constants : Constants} {tetromino_ops : TetrominoOps}
        {grid_ops : GridOps} {generator_ops : GeneratorOps}
        {score_ops : ScoreOps} {ai_ops : AIOps} {frame_ops : FrameOps}
        {key_ops : TetrominoKeyOps} {button_ops : ButtonOps}
        {geometry : GridGeometry}.

(** One attempt to move the piece at address [l], as the handlers of the
    arrow keys and the key repeat make it (lines 158-161, 166-169, 174-178,
    215-218, 223-226, 231-235); [soft] is set for the downward moves, which
    count as soft drops. *)
Definition translate (dx dy : Z) (soft : bool) (l : loc) (self : Game)
    : option Game :=
  p ← heap self !! l;
  let '(p, moved) := move dx dy (grid self) p in
  let self := store l p self in
  if moved then
    let self :=
      if soft then set_soft_drop_count (soft_drop_count self + 1) self
      else self in
    let self := set_last_move_was_rotation false self in
    if is_touching_ground (grid self) p
    then Some (store l (reset_lock_delay p) self)
    else Some self
  else Some self.

(** The guard of the arrow keys (lines 157, 165, 173). *)
Definition key_translate (dx dy : Z) (soft : bool) (self : Game)
    : option Game :=
  match current_piece self with
  | Some l =>
      if negb (is_paused self) && negb (game_over self)
      then translate dx dy soft l self
      else Some self
  | None => Some self
  end.

(** [K_UP] (lines 179-194); no guard: it raises without a current piece. *)
Definition key_rotate (self : Game) : option Game :=
  l ← current_piece self;
  p ← heap self !! l;
  let old_pos := (x p, y p) in
  let old_state := rotation_state p in
  let '(p', rotated) := rotate (grid self) p in
  let self := store l p' self in
  if rotated then
    if negb (old_state =? rotation_state p')
       || negb ((fst old_pos =? x p') && (snd old_pos =? y p')) then
      let self := set_last_move_was_rotation true self in
      if is_touching_ground (grid self) p'
      then Some (store l (reset_lock_delay p') self)
      else Some self
    else Some (set_last_move_was_rotation false self)
  else Some (set_last_move_was_rotation false self).

(** [K_SPACE] (lines 195-197); no guard either. *)
Definition key_hard_drop (self : Game) : option Game :=
  l ← current_piece self;
  p ← heap self !! l;
  let '(p', rows) := hard_drop (grid self) p in
  let self := store l p' self in
  let self := set_hard_drop_count rows self in
  Some (set_last_move_was_rotation false self).

(** The body of the event loop of the game screen for one event other than
    [QUIT] (lines 140-209). *)
Definition handle_game_event (current_time : Z) (event : Event)
    (keys : Keys) (self : Game) : option (Keys * Game) :=
  let self :=
    match event with
    | KEYDOWN K_ESCAPE => return_to_menu self
    | KEYDOWN K_p =>
        match current_screen self with
        | ScreenGame => set_is_paused (negb (is_paused self)) self
        | _ => self
        end
    | _ => self
    end in
  if is_paused self then
    Some (keys, if back_button_fires event then return_to_menu self else self)
  else
    match event with
    | KEYDOWN K_LEFT =>
        let keys := press_left current_time keys in
        self ← key_translate (-1) 0 false self; Some (keys, self)
    | KEYDOWN K_RIGHT =>
        let keys := press_right current_time keys in
        self ← key_translate 1 0 false self; Some (keys, self)
    | KEYDOWN K_DOWN =>
        let keys := press_down current_time keys in
        self ← key_translate 0 1 true self; Some (keys, self)
    | KEYDOWN K_UP => self ← key_rotate self; Some (keys, self)
    | KEYDOWN K_SPACE => self ← key_hard_drop self; Some (keys, self)
    | KEYDOWN K_c => self ← key_hold self; Some (keys, self)
    | KEYUP K_LEFT => Some (release_left keys, self)
    | KEYUP K_RIGHT => Some (release_right keys, self)
    | KEYUP K_DOWN => Some (release_down keys, self)
    | _ => Some (keys, self)
    end.

(** One of the three blocks of the key repeat (lines 213-219, 221-227,
    229-236). *)
Definition repeat_move (dx dy : Z) (soft : bool) (pressed : bool)
    (press_time current_time : Z) (l : loc) (keys : Keys) (self : Game)
    : option (Keys * Game) :=
  if pressed && (current_time - press_time >=? INITIAL_DELAY) then
    if current_time - last_movement_time keys >=? REPEAT_DELAY then
      self ← translate dx dy soft l self;
      Some (set_last_movement_time current_time keys, self)
    else Some (keys, self)
  else Some (keys, self).

(** The key repeat (lines 211-236). *)
Definition continuous_movement (current_time : Z) (keys : Keys)
    (self : Game) : option (Keys * Game) :=
  if negb (is_paused self) && negb (game_over self) then
    match current_piece self with
    | Some l =>
        '(keys, self) ← repeat_move (-1) 0 false (left_pressed keys)
                          (left_press_time keys) current_time l keys self;
        '(keys, self) ← repeat_move 1 0 false (right_pressed keys)
                          (right_press_time keys) current_time l keys self;
        repeat_move 0 1 true (down_pressed keys) (down_press_time keys)
          current_time l keys self
    | None => Some (keys, self)
    end
  else Some (keys, self).

(** The event loop of the game screen (lines 135-209): [QUIT] ends the
    process, the other events are handled in turn even after one of them has
    left the game screen. *)
Fixpoint process_events (current_time : Z) (events : list Event)
    (keys : Keys) (self : Game) : option (Outcome Game) :=
  match events with
  | [] => Some (Running keys self)
  | QUIT :: _ => Some Exited
  | event :: rest =>
      '(keys, self) ← handle_game_event current_time event keys self;
      process_events current_time rest keys self
  end.

(** The branch of [handle_events] for the game screen (lines 134-236), given
    the events [pygame.event.get()] returns. *)
Definition handle_events_game (current_time : Z) (events : list Event)
    (keys : Keys) (self : Game) : option (Outcome Game) :=
  r ← process_events current_time events keys self;
  match r with
  | Exited => Some Exited
  | Running keys self =>
      '(keys, self) ← continuous_movement current_time keys self;
      Some (Running keys self)
  end.

(** [create_line_clear_particles] (lines 618-630): the calls of
    [particle_system.add_particle] it makes, in order, each with the pixel
    position and the colour. *)
Fixpoint row_particles (g : Grid) (y : Z) (xs : list Z)
    : option (list (Z * Z * Cell)) :=
  match xs with
  | [] => Some []
  | x :: xs' =>
      row ← py_index (cells g) y;
      c ← py_index row x;
      rest ← row_particles g y xs';
      if cell_ne_zero c then
        let particle_x := x_offset g + x * cell_size g + cell_size g / 2 in
        let particle_y := y_offset g + y * cell_size g + cell_size g / 2 in
        Some (repeat (particle_x, particle_y, c) 5 ++ rest)
      else Some rest
  end.

Fixpoint create_line_clear_particles (g : Grid) (lines_to_clear : list Z)
    : option (list (Z * Z * Cell)) :=
  match lines_to_clear with
  | [] => Some []
  | y :: ys =>
      particles ← row_particles g y (py_range (width g));
      rest ← create_line_clear_particles g ys;
      Some (particles ++ rest)
  end.

(** [Game.update_level] (lines 636-640); [duration] is
    [self.level_up_duration]. *)
Definition Game_update_level (duration : Timer) (self : Game) : Game :=
  let old_level := level (score self) in
  let self := set_score (update_level (score self)) self in
  if level (score self) >? old_level
  then set_level_up_effect (Some duration) self
  else self.

(** *** Invariants of a session *)

(** Every reference to a piece points to an allocated object, and the held
    piece is not the current piece. *)
Definition refs_ok (self : Game) : Prop :=
  (forall l : loc, current_piece self = Some l ->
     (l < length (heap self))%nat) /\
  (forall l : loc, held_piece self = Some l ->
     (l < length (heap self))%nat) /\
  (forall l : loc, current_piece self = Some l ->
     held_piece self ≠ Some l).

(** The preview on display is the preview of the generator. *)
Definition preview_ok (self : Game) : Prop :=
  next_pieces self = preview_next_pieces (piece_generator self).

(** What [update] relies on from [grid.py]: a new grid satisfies the grid
    invariant, locking a piece and clearing lines keep it. *)
Definition grid_laws : Prop :=
  grid_wf (Grid_init 10 20) = true /\
  (forall g p, grid_wf g = true -> grid_wf (lock_piece g p) = true) /\
  (forall g, grid_wf g = true -> grid_wf (clear_lines g) = true).

(** The countdown screen is only entered with its timer set (line 266). *)
Definition countdown_ok (self : Game) : Prop :=
  current_screen self = ScreenCountdown -> countdown_timer self ≠ None.

(** What a frame keeps: the mode, the pause flag and the held piece; the
    objects already allocated stay allocated; a level-up effect that is off
    stays off; and the three conditions below survive. *)
Definition frame_keeps (self self' : Game) : Prop :=
  mode self' = mode self /\ is_paused self' = is_paused self /\
  held_piece self' = held_piece self /\
  (length (heap self) <= length (heap self'))%nat /\
  (level_up_effect self = None -> level_up_effect self' = None) /\
  (MIN_DROP_SPEED <= drop_speed self -> MIN_DROP_SPEED <= drop_speed self') /\
  (preview_ok self -> preview_ok self') /\
  (refs_ok self -> refs_ok self') /\
  (countdown_ok self -> countdown_ok self') /\
  (grid_laws -> grid_wf (grid self) = true -> grid_wf (grid self') = true).

(** What the input handling keeps: the playfield, the score, the speed and
    the timers of the frame are not its business. *)
Definition input_keeps (self self' : Game) : Prop :=
  grid self' = grid self /\ score self' = score self /\
  drop_speed self' = drop_speed self /\ drop_timer self' = drop_timer self /\
  drop_height self' = drop_height self /\
  last_update_time self' = last_update_time self /\
  level_up_effect self' = level_up_effect self /\
  mode self' = mode self /\
  (length (heap self) <= length (heap self'))%nat /\
  (preview_ok self -> preview_ok self') /\
  (refs_ok self -> refs_ok self') /\
  (over_inv self -> over_inv self') /\
  (current_screen self' = current_screen self
   \/ current_screen self' = ScreenMenu) /\
  countdown_timer self' = countdown_timer self.

(** The states a session goes through: a new game, then frames, input on the
    game screen, the return to the menu and the end of the name entry
    (line 248), in any order. *)
Inductive reachable : Game -> Prop :=
| reach_start (t : Z) (self : Game) : reachable (start_new_game t self)
| reach_update (fuel : nat) (t : Z) (self self' : Game) :
    reachable self -> update fuel t self = Some self' -> reachable self'
| reach_events (t : Z) (events : list Event) (keys keys' : Keys)
    (self self' : Game) :
    reachable self -> current_screen self = ScreenGame ->
    handle_events_game t events keys self = Some (Running keys' self') ->
    reachable self'
| reach_menu (self : Game) :
    reachable self -> reachable (return_to_menu self)
| reach_name (self : Game) :
    reachable self -> current_screen self = ScreenEnterName ->
    reachable (set_current_screen ScreenHighScores self).

(** A run of the game: in each frame the events are handled when the game
    screen is on, then the frame is updated; a frame is the clock and the
    events of the frame.  [None] when a call raises or the process exits. *)
Fixpoint run_frames (fuel : nat) (frames : list (Z * list Event))
    (keys : Keys) (self : Game) : option (Keys * Game) :=
  match frames with
  | [] => Some (keys, self)
  | (current_time, events) :: rest =>
      r ← match current_screen self with
          | ScreenGame => handle_events_game current_time events keys self
          | _ => Some (Running keys self)
          end;
      match r with
      | Exited => None
      | Running keys self =>
          self ← update fuel current_time self;
          run_frames fuel rest keys self
      end
  end.

(** The lock timer of a piece after the frames [deltas] of lock delay. *)
Definition lock_delay_frames (g : Grid) (deltas : list Z) (p : Tetromino)
    : Tetromino :=
  fold_left (fun q delta_time => handle_lock_delay delta_time g q) deltas p.

End Input.

(** ** The reference implementation, continued *)

Module SampleKeys.

Import Sample.

(** Modelled from the spec: [reset_lock_delay] restarts the lock timer
    (section 4.2). *)
Definition sample_reset_lock_delay (p : Tetromino) : Tetromino :=
  set_lock_delay_timer 0 p.

(** Modelled from the spec: [hardDrop] moves the piece down until it would
    collide, marks it locked and returns the number of rows
    (section 4.2). *)
Fixpoint drop_rows (fuel : nat) (g : Grid) (p : Tetromino)
    : Tetromino * Z :=
  match fuel with
  | O => (p, 0)
  | S fuel' =>
      if sample_is_touching_ground g p then (p, 0)
      else
        let '(q, rows) :=
          drop_rows fuel' g
            (with_position (x p) (y p + 1) (rotation_state p) p) in
        (q, rows + 1)
  end.

Definition sample_hard_drop (g : Grid) (p : Tetromino) : Tetromino * Z :=
  let '(q, rows) := drop_rows (Z.to_nat (height g) + 4) g p in
  (set_is_locked true q, rows).

#[export] Instance sample_keys : TetrominoKeyOps := {
  reset_lock_delay := sample_reset_lock_delay;
  hard_drop := sample_hard_drop
}.

(** A back button that reacts to the event tagged 1, a click on it. *)
#[export] Instance sample_button : ButtonOps := {
  back_button_fires :=
    fun event => match event with OTHER 1 => true | _ => false end
}.

(** Cells of 30 pixels, the board drawn at (50, 20). *)
#[export] Instance sample_geometry : GridGeometry := {
  x_offset := fun _ => 50;
  y_offset := fun _ => 20;
  cell_size := fun _ => 30
}.

(** No key held. *)
Definition no_keys : Keys := mkKeys false false false 0 0 0 0.

(** The left and the right key both held for 200 ms, no movement yet. *)
Definition both_held : Keys := mkKeys true true false 0 0 0 0.

(** The session with the T piece in its slot, paused. *)
Definition paused : Game := set_is_paused true Boards.pocket_normal.

(** A T piece in the left column of an empty board. *)
Definition at_wall : Game :=
  Boards.session (Boards.board [])
    [mkTetromino "T" 0 5 0 false 0 0 false] true.

(** An I piece held, a T piece falling. *)
Definition with_held : Game :=
  set_held_piece (Some 1%nat)
    (Boards.session (Boards.board [])
       [mkTetromino "T" 4 5 1 false 0 0 false;
        mkTetromino "I" 3 0 0 false 0 0 false] true).

(** A new game started from a finished session. *)
Definition fresh : Game := start_new_game 0 Boards.ended.

(** The events of a frame in which the piece is moved [n] columns to the
    right, respectively to the left, each key released at once, and then
    dropped. *)
Definition drop_at (n : nat) : list Event :=
  concat (repeat [KEYDOWN K_RIGHT; KEYUP K_RIGHT] n) ++ [KEYDOWN K_SPACE].

Definition drop_left (n : nat) : list Event :=
  concat (repeat [KEYDOWN K_LEFT; KEYUP K_LEFT] n) ++ [KEYDOWN K_SPACE].

(** A game of 195 frames at 16 ms per frame: the transition and the
    countdown (182 frames), then thirteen pieces, one per frame.  Eleven of
    them are piled up on the columns 6 to 9, the last of these an I piece
    that comes to rest on the cells (6, 1) to (9, 1); the ninth (an I) and
    the thirteenth (a T) go to the left of the pile. *)
Definition tower_game : list (Z * list Event) :=
  imap (fun i events => (16 * Z.of_nat (S i), events))
    (repeat [] 182
     ++ repeat (drop_at 3) 8 ++ [drop_left 3]
     ++ repeat (drop_at 3) 3 ++ [drop_at 0]).

(** The state this game leaves: the O piece has just spawned, free of the
    pile, and the generator deals an I next. *)
Definition played : Game :=
  default fresh (snd <$> run_frames 0 tower_game no_keys fresh).

(** The clock of [n] frames played at two seconds per frame. *)
Definition slow_frames (n : nat) : list Z :=
  map (fun i => 2000 * Z.of_nat i) (seq 1 n).

End SampleKeys.

(** ** Properties *)

Section Properties.

Context {constants : Constants} {tetromino_ops : TetrominoOps}
        {grid_ops : GridOps} {generator_ops : GeneratorOps}
        {score_ops : ScoreOps} {ai_ops : AIOps} {frame_ops : FrameOps}.

Implicit Types (self : Game) (g : Grid) (p piece : Tetromino).

(** *** Cells *)

Lemma truthy_ne_zero (c : Cell) : truthy c = cell_ne_zero c.
Proof. reflexivity. Qed.

Lemma cell_ne_zero_spec (c : Cell) : cell_ne_zero c = true <-> c ≠ CInt 0.
Proof.
  destruct c as [n|r gr b]; simpl.
  - rewrite negb_true_iff, Z.eqb_neq. split; [congruence|].
    intros Hne ->. by apply Hne.
  - split; [discriminate | done].
Qed.

Lemma cell_ne_zero_decide (c : Cell) :
  cell_ne_zero c = bool_decide (c ≠ CInt 0).
Proof.
  destruct (cell_ne_zero c) eqn:E; symmetry.
  - apply bool_decide_eq_true, cell_ne_zero_spec, E.
  - apply bool_decide_eq_false. rewrite <- cell_ne_zero_spec. congruence.
Qed.

Lemma py_index_in_range {A : Type} (l : list A) (i : Z) :
  0 <= i < Z.of_nat (length l) ->
  py_index l i = l !! Z.to_nat i /\ is_Some (l !! Z.to_nat i).
Proof.
  intros [H0 Hlt]. unfold py_index.
  destruct (decide (0 <= i)); [|lia]. split; [done|].
  apply lookup_lt_is_Some. lia.
Qed.

Lemma grid_wf_rows g :
  grid_wf g = true -> Z.of_nat (length (cells g)) = height g.
Proof.
  unfold grid_wf. rewrite andb_true_iff, Z.eqb_eq. tauto.
Qed.

Lemma grid_wf_row g (i : nat) (row : list Cell) :
  grid_wf g = true -> cells g !! i = Some row ->
  Z.of_nat (length row) = width g.
Proof.
  unfold grid_wf. rewrite andb_true_iff, forallb_forall.
  intros [_ Hall] Hrow. apply Z.eqb_eq, Hall.
  apply list_elem_of_In. eapply list_elem_of_lookup_2, Hrow.
Qed.

(** Inside the board of a well-formed grid both index operations of
    [is_cell_filled] hit an existing element. *)
Lemma grid_wf_cell g (cx cy : Z) :
  grid_wf g = true -> 0 <= cx < width g -> 0 <= cy < height g ->
  exists row c,
    cells g !! Z.to_nat cy = Some row /\ row !! Z.to_nat cx = Some c /\
    py_index (cells g) cy = Some row /\ py_index row cx = Some c.
Proof.
  intros Hwf Hx Hy.
  destruct (py_index_in_range (cells g) cy) as [Hrow [row Hrow']].
  { rewrite (grid_wf_rows g Hwf). lia. }
  destruct (py_index_in_range row cx) as [Hc [c Hc']].
  { rewrite (grid_wf_row g _ row Hwf Hrow'). lia. }
  exists row, c. repeat split; congruence.
Qed.

Lemma is_cell_filled_outside self (cx cy : Z) :
  cx < 0 \/ cx >= width (grid self) \/ cy < 0 \/ cy >= height (grid self) ->
  is_cell_filled self cx cy = Some true.
Proof.
  intros Hout. unfold is_cell_filled.
  destruct ((cx <? 0) || (cx >=? width (grid self))
            || (cy <? 0) || (cy >=? height (grid self))) eqn:E; [done|].
  rewrite !orb_false_iff in E. lia.
Qed.

Lemma is_cell_filled_inside self (cx cy : Z) :
  grid_wf (grid self) = true ->
  0 <= cx < width (grid self) -> 0 <= cy < height (grid self) ->
  exists row c,
    cells (grid self) !! Z.to_nat cy = Some row /\
    row !! Z.to_nat cx = Some c /\
    is_cell_filled self cx cy = Some (bool_decide (c ≠ CInt 0)).
Proof.
  intros Hwf Hx Hy.
  destruct (grid_wf_cell _ cx cy Hwf Hx Hy) as (row & c & Hr & Hc & Hr' & Hc').
  exists row, c. split; [done|]. split; [done|].
  unfold is_cell_filled.
  destruct ((cx <? 0) || (cx >=? width (grid self))
            || (cy <? 0) || (cy >=? height (grid self))) eqn:E.
  { rewrite !orb_true_iff in E. lia. }
  rewrite Hr'. simpl. rewrite Hc'. simpl.
  by rewrite truthy_ne_zero, cell_ne_zero_decide.
Qed.

(** On a well-formed grid [is_cell_filled] computes [filled_at]. *)
Lemma is_cell_filled_filled_at self (cx cy : Z) :
  grid_wf (grid self) = true ->
  is_cell_filled self cx cy = Some (filled_at (grid self) (cx, cy)).
Proof.
  intros Hwf. unfold filled_at, out_of_board. simpl.
  destruct ((cx <? 0) || (cx >=? width (grid self))
            || (cy <? 0) || (cy >=? height (grid self))) eqn:E.
  - apply is_cell_filled_outside. rewrite !orb_true_iff in E. lia.
  - rewrite !orb_false_iff in E.
    destruct (is_cell_filled_inside self cx cy Hwf) as (row & c & Hr & Hc & ->);
      [lia | lia |].
    by rewrite Hr, Hc.
Qed.

(** C5: on a grid that satisfies the grid invariant, [is_cell_filled] returns
    a value for every pair of integer coordinates (it never raises); it
    returns [True] for every coordinate outside the board; inside the board
    both list accesses hit an existing element at a non-negative index, and
    the result is [True] exactly when that cell is not [0]. *)
Theorem is_cell_filled_total_guarded self (cx cy : Z) :
  grid_wf (grid self) = true ->
  is_Some (is_cell_filled self cx cy) /\
  (cx < 0 \/ cx >= width (grid self) \/ cy < 0 \/ cy >= height (grid self) ->
   is_cell_filled self cx cy = Some true) /\
  (0 <= cx < width (grid self) -> 0 <= cy < height (grid self) ->
   exists row c,
     cells (grid self) !! Z.to_nat cy = Some row /\
     row !! Z.to_nat cx = Some c /\
     forall b, is_cell_filled self cx cy = Some b <-> (b = true <-> c ≠ CInt 0)).
Proof.
  intros Hwf. split; [|split].
  - rewrite is_cell_filled_filled_at by done. eauto.
  - apply is_cell_filled_outside.
  - intros Hx Hy.
    destruct (is_cell_filled_inside self cx cy Hwf Hx Hy)
      as (row & c & Hr & Hc & ->).
    exists row, c. split; [done|]. split; [done|].
    intros b. split.
    + intros [= <-]. apply bool_decide_eq_true.
    + intros Hb. f_equal. destruct b.
      * apply bool_decide_eq_true, Hb. done.
      * apply bool_decide_eq_false. intros Hne. by apply Hb in Hne.
Qed.

(** *** Corners *)

Lemma t_spin_corners_eq piece :
  t_spin_corners piece =
  [(x piece, y piece); (x piece + 2, y piece);
   (x piece, y piece + 2); (x piece + 2, y piece + 2)].
Proof.
  unfold t_spin_corners. simpl.
  by replace (x piece + 1 - 1) with (x piece) by lia;
     replace (y piece + 1 - 1) with (y piece) by lia;
     replace (x piece + 1 + 1) with (x piece + 2) by lia;
     replace (y piece + 1 + 1) with (y piece + 2) by lia.
Qed.

Lemma count_filled_wf self (cs : list (Z * Z)) :
  grid_wf (grid self) = true ->
  count_filled self cs = Some (filled_count (grid self) cs).
Proof.
  intros Hwf. unfold filled_count.
  induction cs as [|[cx cy] cs IH]; [done|].
  simpl count_filled. rewrite is_cell_filled_filled_at, IH by done. simpl.
  rewrite filter_cons.
  destruct (decide (filled_at (grid self) (cx, cy) = true)) as [->|Hf].
  - f_equal. simpl length. lia.
  - destruct (filled_at (grid self) (cx, cy)); [done|]. f_equal.
Qed.

(** C10: whatever the rotation state, the front and the back corners are four
    distinct cells, two and two, no cell is both a front and a back corner,
    and together they are exactly the four cells [check_t_spin] inspects,
    (x, y), (x+2, y), (x, y+2) and (x+2, y+2); hence, on every grid, the
    count of filled corners is the sum of the counts of filled front and
    filled back corners (and it raises exactly when one of those does). *)
Theorem front_back_corners_partition piece :
  t_spin_corners piece =
    [(x piece, y piece); (x piece + 2, y piece);
     (x piece, y piece + 2); (x piece + 2, y piece + 2)] /\
  length (get_front_corners piece) = 2%nat /\
  length (get_back_corners piece) = 2%nat /\
  NoDup (get_front_corners piece ++ get_back_corners piece) /\
  (forall c, c ∈ get_front_corners piece -> c ∉ get_back_corners piece) /\
  (forall c, c ∈ t_spin_corners piece <->
             c ∈ get_front_corners piece \/ c ∈ get_back_corners piece) /\
  forall self,
    count_filled self (t_spin_corners piece) =
    (front ← count_filled self (get_front_corners piece);
     back ← count_filled self (get_back_corners piece);
     Some (front + back)).
Proof.
  split; [apply t_spin_corners_eq|].
  split; [by rotation_cases piece|].
  split; [by rotation_cases piece|].
  split.
  { rotation_cases piece; simpl;
      repeat (apply NoDup_cons; split);
      rewrite ?elem_of_cons, ?elem_of_nil; try apply NoDup_nil;
      intuition (try discriminate; match goal with
                 | H : (_, _) = (_, _) |- _ => inversion H; lia end). }
  split.
  { intros c. rotation_cases piece;
      rewrite !elem_of_cons, !elem_of_nil;
      intuition (subst; match goal with
                 | H : (_, _) = (_, _) |- _ => inversion H; lia end). }
  split.
  { intros c. rewrite t_spin_corners_eq. rotation_cases piece;
      rewrite !elem_of_cons, !elem_of_nil; tauto. }
  intros self. rewrite t_spin_corners_eq.
  rotation_cases piece; simpl;
    destruct (is_cell_filled self (x piece) (y piece)) as [[]|];
    destruct (is_cell_filled self (x piece + 2) (y piece)) as [[]|];
    destruct (is_cell_filled self (x piece) (y piece + 2)) as [[]|];
    destruct (is_cell_filled self (x piece + 2) (y piece + 2)) as [[]|];
    reflexivity.
Qed.

(** *** Spin classification *)

Lemma check_t_spin_unfold self piece :
  current self = Some piece ->
  check_t_spin self =
  if negb (String.eqb (shape_name piece) "T")
     || negb (last_move_was_rotation self)
  then Some NoSpin
  else
    filled_corners ← count_filled self (t_spin_corners piece);
    filled_front_corners ← count_filled self (get_front_corners piece);
    filled_back_corners ← count_filled self (get_back_corners piece);
    if filled_corners >=? 3 then
      if filled_front_corners >=? 2 then Some SpinMini else Some SpinNormal
    else Some NoSpin.
Proof.
  unfold current, check_t_spin. intros Hcur.
  destruct (current_piece self) as [l|]; [|done]. simpl in *.
  by rewrite Hcur.
Qed.

(** On a well-formed grid [check_t_spin] returns a value, given by the counts
    of filled corners. *)
Lemma check_t_spin_wf self piece :
  current self = Some piece -> grid_wf (grid self) = true ->
  check_t_spin self =
  Some (if negb (String.eqb (shape_name piece) "T")
           || negb (last_move_was_rotation self)
        then NoSpin
        else if filled_count (grid self) (t_spin_corners piece) >=? 3 then
               if filled_count (grid self) (get_front_corners piece) >=? 2
               then SpinMini else SpinNormal
             else NoSpin).
Proof.
  intros Hcur Hwf. rewrite (check_t_spin_unfold self piece Hcur).
  destruct (negb (String.eqb (shape_name piece) "T")
            || negb (last_move_was_rotation self)); [done|].
  rewrite !count_filled_wf by done. simpl.
  by repeat case_match.
Qed.


(** *** Gravity and lock delay *)

Lemma ai_block_classic (fuel : nat) (t : Z) p self :
  mode self ≠ "AI"%string -> ai_block fuel t p self = Some (p, self).
Proof.
  intros Hmode. unfold ai_block.
  destruct (String.eqb_spec (mode self) "AI"); [done|]. done.
Qed.

(** Outside the AI mode the piece goes through [update_position], one
    gravity step and the lock-delay step, in this order, whatever the
    fuel. *)
Lemma update_current_piece_classic (fuel : nat) (t dt : Z) (l : loc)
    self p :
  mode self ≠ "AI"%string -> heap self !! l = Some p ->
  update_current_piece fuel t dt l self =
  let p1 := update_position (grid self) p in
  let p3 :=
    handle_lock_delay dt (grid (snd (apply_gravity p1 self)))
      (fst (apply_gravity p1 self)) in
  let s3 := store l p3 (snd (apply_gravity p1 self)) in
  if is_locked p3
  then lock_and_advance (last_move_was_rotation self) s3
  else Some s3.
Proof.
  intros Hmode Hp. unfold update_current_piece.
  rewrite Hp. cbn [mbind option_bind].
  rewrite ai_block_classic by done. cbn [mbind option_bind].
  by destruct (apply_gravity (update_position (grid self) p) self).
Qed.

(** The gravity step on its own: when the drop timer exceeds the drop
    speed, the piece becomes the result of one call [move(0, 1)], the drop
    timer is reset to 0, the drop height grows by one and nothing else
    changes; otherwise the piece and the whole state are left as they
    are. *)
Lemma apply_gravity_cases p self :
  (drop_timer self > drop_speed self ->
   apply_gravity p self =
   (fst (move 0 1 (grid self) p),
    set_drop_height (drop_height self + 1) (set_drop_timer 0 self)) /\
   drop_timer (snd (apply_gravity p self)) = 0 /\
   drop_height (snd (apply_gravity p self)) = drop_height self + 1) /\
  (drop_timer self <= drop_speed self ->
   apply_gravity p self = (p, self) /\
   drop_height (snd (apply_gravity p self)) = drop_height self).
Proof.
  unfold apply_gravity.
  destruct (Z.gtb_spec (drop_timer self) (drop_speed self)); split; intros;
    try lia; done.
Qed.

(** C2: when the lock delay of the piece is active and, with the elapsed time
    of the frame added, its timer has reached [LOCK_DELAY] or its move count
    has reached [MAX_LOCK_MOVES], the step marks the piece locked if it
    touches the ground at that instant; if it does not, the lock delay is
    switched off, the move count and the timer are reset to 0 and
    [is_locked] keeps its value, so the step is never what marks a piece
    that is off the ground as locked. *)
Theorem lock_delay_expiry (delta_time : Z) g p :
  lock_delay_active p = true ->
  lock_delay_timer p + delta_time >= LOCK_DELAY
  \/ lock_moves_count p >= MAX_LOCK_MOVES ->
  let ticked := set_lock_delay_timer (lock_delay_timer p + delta_time) p in
  let p' := handle_lock_delay delta_time g p in
  (is_touching_ground g ticked = true ->
   p' = set_is_locked true ticked /\ is_locked p' = true) /\
  (is_touching_ground g ticked = false ->
   lock_delay_active p' = false /\ lock_moves_count p' = 0 /\
   lock_delay_timer p' = 0 /\ is_locked p' = is_locked p) /\
  (is_locked p' = true -> is_locked p = false ->
   is_touching_ground g ticked = true).
Proof.
  intros Hactive Hexpired ticked p'. subst p'. unfold handle_lock_delay.
  rewrite Hactive. fold ticked.
  assert ((lock_delay_timer ticked >=? LOCK_DELAY)
          || (lock_moves_count ticked >=? MAX_LOCK_MOVES) = true) as ->.
  { apply orb_true_iff. subst ticked. simpl.
    destruct Hexpired; [left | right]; apply Z.geb_le; lia. }
  destruct (is_touching_ground g ticked); simpl.
  - repeat split; intros; done.
  - repeat split; intros; congruence.
Qed.

(** *** Full rows *)

Lemma rev_py_range_succ (n : nat) :
  rev (py_range (Z.of_nat (S n))) = Z.of_nat n :: rev (py_range (Z.of_nat n)).
Proof.
  unfold py_range. rewrite !Nat2Z.id, seq_S, map_app, rev_app_distr. done.
Qed.

(** The scan of a row from column [k] on. *)
Lemma row_is_full_from g (cy : Z) (row : list Cell) (n k : nat) :
  py_index (cells g) cy = Some row ->
  (k + n)%nat = length row ->
  row_is_full g cy (map Z.of_nat (seq k n)) =
  Some (forallb cell_ne_zero (drop k row)).
Proof.
  intros Hrow. revert k. induction n as [|n IH]; intros k Hlen.
  - simpl. by rewrite drop_ge by lia.
  - destruct (lookup_lt_is_Some_2 row k) as [c Hc]; [lia|].
    assert (py_index row (Z.of_nat k) = Some c) as Hidx.
    { destruct (py_index_in_range row (Z.of_nat k)) as [-> _]; [lia|].
      by rewrite Nat2Z.id. }
    simpl. rewrite Hrow. simpl. rewrite Hidx. simpl.
    rewrite (drop_S row c k Hc). simpl.
    destruct (cell_ne_zero c); [|done].
    apply IH. lia.
Qed.

Lemma forallb_ne_zero (row : list Cell) :
  forallb cell_ne_zero row = true <-> Forall (fun c => c ≠ CInt 0) row.
Proof.
  rewrite forallb_forall, Forall_forall.
  split; intros Hall c Hc; apply cell_ne_zero_spec, Hall;
    by apply list_elem_of_In.
Qed.

Lemma row_is_full_wf g (cy : Z) :
  grid_wf g = true -> 0 <= cy < height g ->
  exists full,
    row_is_full g cy (py_range (width g)) = Some full /\
    (full = true <-> full_row g cy).
Proof.
  intros Hwf Hy.
  destruct (py_index_in_range (cells g) cy) as [Hidx [row Hrow]].
  { rewrite (grid_wf_rows g Hwf). lia. }
  pose proof (grid_wf_row g _ row Hwf Hrow) as Hlen.
  exists (forallb cell_ne_zero row). split.
  - unfold py_range. rewrite (row_is_full_from g cy row); [done| |].
    + by rewrite Hidx.
    + rewrite <- Hlen. by rewrite Nat2Z.id.
  - rewrite forallb_ne_zero. unfold full_row. split.
    + intros Hall. split; [done|]. by exists row.
    + intros [_ (row' & Hrow' & Hall)]. congruence.
Qed.

(** The scan of the rows [n-1], ..., [0]. *)
Lemma collect_full_rows_desc g (n : nat) :
  grid_wf g = true -> Z.of_nat n <= height g ->
  exists rows,
    collect_full_rows g (rev (py_range (Z.of_nat n))) = Some rows /\
    (forall cy, cy ∈ rows <-> cy < Z.of_nat n /\ full_row g cy) /\
    StronglySorted Z.gt rows.
Proof.
  intros Hwf. induction n as [|n IH]; intros Hn.
  - exists []. split; [done|]. split; [|constructor].
    intros cy. rewrite elem_of_nil. unfold full_row. simpl. lia.
  - destruct IH as (rest & Hrest & Hin & Hsorted); [lia|].
    destruct (row_is_full_wf g (Z.of_nat n) Hwf) as (full & Hfull & Hiff);
      [lia|].
    rewrite rev_py_range_succ. simpl. rewrite Hfull. simpl.
    rewrite Hrest. simpl.
    destruct full.
    + exists (Z.of_nat n :: rest). split; [done|]. split.
      * intros cy. rewrite elem_of_cons, Hin. split.
        -- intros [->|[? ?]]; (split; [lia|]); [by apply Hiff | done].
        -- intros [Hlt Hfr].
           destruct (decide (cy = Z.of_nat n)) as [->|Hne]; [by left|].
           right. split; [|done]. destruct Hfr as [[? ?] _]. lia.
      * constructor; [done|]. apply Forall_forall. intros cy Hcy.
        apply Hin in Hcy. lia.
    + exists rest. split; [done|]. split; [|done].
      intros cy. rewrite Hin. split.
      * intros [? ?]. split; [lia | done].
      * intros [Hlt Hfr]. split; [|done].
        destruct (decide (cy = Z.of_nat n)) as [->|Hne]; [|lia].
        apply Hiff in Hfr. discriminate.
Qed.

Lemma find_lines_to_clear_wf g :
  grid_wf g = true ->
  exists rows,
    find_lines_to_clear g = Some rows /\
    (forall cy, cy ∈ rows <-> full_row g cy) /\
    StronglySorted Z.gt rows.
Proof.
  intros Hwf. unfold find_lines_to_clear.
  destruct (collect_full_rows_desc g (length (cells g)) Hwf)
    as (rows & Hrows & Hin & Hsorted).
  { rewrite (grid_wf_rows g Hwf). lia. }
  rewrite (grid_wf_rows g Hwf) in Hrows, Hin.
  exists rows. split; [done|]. split; [|done].
  intros cy. rewrite Hin. unfold full_row. intuition lia.
Qed.

(** *** The lock step *)

Lemma take_next_piece_fields self :
  let piece := fst (get_next_piece (piece_generator self) (grid self)) in
  let self' := take_next_piece self in
  heap self' = heap self ++ [piece] /\
  current_piece self' = Some (length (heap self)) /\
  current self' = Some piece /\
  grid self' = grid self /\ score self' = score self /\
  game_over self' = game_over self /\
  current_screen self' = current_screen self /\
  drop_speed self' = drop_speed self /\
  held_piece self' = held_piece self.
Proof.
  unfold take_next_piece, current.
  destruct (get_next_piece (piece_generator self) (grid self))
    as [piece generator].
  game_simpl. repeat split.
  rewrite lookup_app_r by lia. by rewrite Nat.sub_diag.
Qed.

Lemma check_high_score_fields self :
  let self' := check_high_score self in
  (current_screen self' = ScreenEnterName
   \/ current_screen self' = ScreenHighScores) /\
  heap self' = heap self /\ current_piece self' = current_piece self /\
  grid self' = grid self /\ score self' = score self /\
  game_over self' = game_over self /\ drop_speed self' = drop_speed self /\
  held_piece self' = held_piece self.
Proof.
  unfold check_high_score.
  destruct (is_high_score (points (score self))); game_simpl; tauto.
Qed.

(** The spawn check of the lock step: the state after it, and the end of the
    session when the new piece collides. *)
Lemma spawn_after_lock_spec self :
  let piece := fst (get_next_piece (piece_generator self) (grid self)) in
  exists self',
    spawn_after_lock self = Some self' /\
    current self' = Some piece /\
    grid self' = grid self /\ score self' = score self /\
    drop_speed self' = drop_speed self /\
    heap self' = heap self ++ [piece] /\
    current_piece self' = Some (length (heap self)) /\
    held_piece self' = held_piece self /\
    (is_collision (grid self) piece = true ->
     game_over self' = true /\
     (current_screen self' = ScreenEnterName
      \/ current_screen self' = ScreenHighScores)) /\
    (is_collision (grid self) piece = false ->
     game_over self' = game_over self /\
     current_screen self' = current_screen self).
Proof.
  intros piece. unfold spawn_after_lock.
  destruct (take_next_piece_fields self)
    as (Hheap & Hcp & Hcur & Hgrid & Hscore & Hover & Hscreen & Hspeed
        & Hheld).
  fold piece in Hheap, Hcur.
  assert (current (set_can_hold true (take_next_piece self)) = Some piece)
    as Hcur' by (by rewrite <- Hcur).
  rewrite Hcur'. simpl. rewrite Hgrid.
  destruct (is_collision (grid self) piece) eqn:Hcol.
  - eexists. split; [done|].
    match goal with
    | |- context [check_high_score ?s] =>
        destruct (check_high_score_fields s)
          as (Hs & Hh & Hc & Hg & Hsc & Hgo & Hds & Hhd)
    end.
    unfold current. rewrite Hc, Hh, Hg, Hsc, Hgo, Hds, Hhd.
    game_simpl. unfold current in Hcur. rewrite Hcp in Hcur.
    repeat split; done.
  - eexists. split; [done|]. game_simpl. repeat split; done.
Qed.

Lemma score_and_reset_fields (t : TSpin) (lines : Z) self :
  let scored :=
    snd (Score_update lines t false (drop_height self)
           (soft_drop_count self) (hard_drop_count self) (score self)) in
  let bonus sc :=
    if is_board_clear (grid self)
    then snd (add_tetris_clear_bonus sc) else sc in
  let self' := score_and_reset t lines self in
  grid self' = grid self /\ heap self' = heap self /\
  current_piece self' = current_piece self /\
  piece_generator self' = piece_generator self /\
  drop_height self' = 0 /\ soft_drop_count self' = 0 /\
  hard_drop_count self' = 0 /\ last_move_was_rotation self' = false /\
  (lines > 0 ->
   drop_speed self' =
     Z.max MIN_DROP_SPEED
       (INITIAL_DROP_SPEED - (level (update_level scored) - 1)
                             * SPEED_INCREMENT) /\
   score self' = bonus (update_level scored)) /\
  (lines <= 0 ->
   drop_speed self' = drop_speed self /\ score self' = bonus scored).
Proof.
  unfold score_and_reset, update_drop_speed.
  destruct (Score_update lines t false (drop_height self)
              (soft_drop_count self) (hard_drop_count self) (score self))
    as [[turn_score notifications] new_score].
  destruct (Z.gtb_spec lines 0); game_simpl;
    destruct (is_board_clear (grid self)); game_simpl;
    repeat split; intros; (done || lia).
Qed.

Lemma lock_and_advance_unfold (was : bool) self p (t : TSpin)
    (rows : list Z) :
  current self = Some p ->
  (if was then check_t_spin self else Some NoSpin) = Some t ->
  find_lines_to_clear (lock_piece (grid self) p) = Some rows ->
  lock_and_advance was self =
  spawn_after_lock
    (score_and_reset t (Z.of_nat (length rows))
       (if decide (rows = [])
        then set_grid (lock_piece (grid self) p) self
        else set_grid (clear_lines (lock_piece (grid self) p)) self)).
Proof.
  intros Hcur Ht Hrows. unfold lock_and_advance.
  rewrite Ht, Hcur. simpl. rewrite Hrows. simpl.
  destruct rows as [|r rows]; simpl; [done|].
  by destruct (decide (r :: rows = [])).
Qed.

Lemma t_spin_type_total (was : bool) self p :
  current self = Some p -> grid_wf (grid self) = true ->
  is_Some (if was then check_t_spin self else Some NoSpin).
Proof.
  intros Hcur Hwf. destruct was; [|done].
  rewrite (check_t_spin_wf self p Hcur Hwf). done.
Qed.

(** C4: in the lock step the rows to clear are computed on the board as
    [lock_piece] left it; the list holds exactly the indices of the rows of
    that board in which no cell is empty, in strictly decreasing order
    (bottom to top); rows are removed only afterwards, by [clear_lines] on
    that same board when the list is not empty, and the length of the list
    is the number of lines handed to the scoring. *)
Theorem lines_to_clear_post_lock (was : bool) self p :
  current self = Some p ->
  grid_wf (grid self) = true ->
  grid_wf (lock_piece (grid self) p) = true ->
  let locked := lock_piece (grid self) p in
  exists (rows : list Z) (t : TSpin),
    find_lines_to_clear locked = Some rows /\
    (forall cy, cy ∈ rows <-> full_row locked cy) /\
    StronglySorted Z.gt rows /\
    (if was then check_t_spin self else Some NoSpin) = Some t /\
    lock_and_advance was self =
    spawn_after_lock
      (score_and_reset t (Z.of_nat (length rows))
         (if decide (rows = [])
          then set_grid locked self
          else set_grid (clear_lines locked) self)).
Proof.
  intros Hcur Hwf Hwf' locked.
  destruct (find_lines_to_clear_wf locked Hwf') as (rows & Hrows & Hin & Hs).
  destruct (t_spin_type_total was self p Hcur Hwf) as [t Ht].
  exists rows, t. split; [done|]. split; [done|]. split; [done|].
  split; [done|]. by apply lock_and_advance_unfold.
Qed.

(** C6: after a lock that cleared at least one line the drop speed is
    [max(MIN_DROP_SPEED, INITIAL_DROP_SPEED - (level - 1) * SPEED_INCREMENT)]
    for the level that [update_level] has just computed; after a lock that
    cleared no line the drop speed is the one before the lock and
    [update_level] is not called, the score object being the result of
    [Score.update], with the all-clear bonus added if the board is empty; so
    the level is unchanged as long as those two methods do not write it. *)
Theorem drop_speed_after_lock (was : bool) self p :
  current self = Some p ->
  grid_wf (grid self) = true ->
  grid_wf (lock_piece (grid self) p) = true ->
  exists (rows : list Z) (t : TSpin) (self' : Game),
    find_lines_to_clear (lock_piece (grid self) p) = Some rows /\
    (if was then check_t_spin self else Some NoSpin) = Some t /\
    lock_and_advance was self = Some self' /\
    let scored :=
      snd (Score_update (Z.of_nat (length rows)) t false (drop_height self)
             (soft_drop_count self) (hard_drop_count self) (score self)) in
    (rows ≠ [] ->
     drop_speed self' =
       Z.max MIN_DROP_SPEED
         (INITIAL_DROP_SPEED - (level (update_level scored) - 1)
                               * SPEED_INCREMENT)) /\
    (rows = [] ->
     drop_speed self' = drop_speed self /\
     (score self' = scored
      \/ score self' = snd (add_tetris_clear_bonus scored)) /\
     ((forall n ts b d sd hd sc,
          level (snd (Score_update n ts b d sd hd sc)) = level sc) ->
      (forall sc, level (snd (add_tetris_clear_bonus sc)) = level sc) ->
      level (score self') = level (score self))).
Proof.
  intros Hcur Hwf Hwf'.
  destruct (find_lines_to_clear_wf _ Hwf') as (rows & Hrows & _ & _).
  destruct (t_spin_type_total was self p Hcur Hwf) as [t Ht].
  rewrite (lock_and_advance_unfold was self p t rows Hcur Ht Hrows).
  match goal with
  | |- context [spawn_after_lock ?s] =>
      destruct (spawn_after_lock_spec s)
        as (self' & Hspawn & _ & _ & Hscore & Hspeed & _)
  end.
  exists rows, t, self'. split; [done|]. split; [done|]. split; [done|].
  rewrite Hscore, Hspeed. clear Hspawn Hscore Hspeed.
  match goal with
  | |- context [score_and_reset t ?n ?s] =>
      destruct (score_and_reset_fields t n s)
        as (Hg & _ & _ & _ & _ & _ & _ & _ & Hpos & Hzero)
  end.
  split.
  - intros Hne. destruct (decide (rows = [])) as [->|_]; [done|].
    destruct Hpos as [-> _]; [destruct rows; [done | simpl; lia]|].
    done.
  - intros ->. simpl in *. destruct Hzero as [-> ->]; [lia|].
    game_simpl. split; [done|]. split.
    + destruct (is_board_clear (lock_piece (grid self) p)); auto.
    + intros Hupd Hbonus.
      destruct (is_board_clear (lock_piece (grid self) p));
        by rewrite ?Hbonus, Hupd.
Qed.

(** *** What a frame leaves alone *)

Lemma same_core_refl self : same_core self self.
Proof. by repeat split. Qed.

Lemma score_and_reset_frame (t : TSpin) (lines : Z) self :
  let self' := score_and_reset t lines self in
  heap self' = heap self /\ current_piece self' = current_piece self /\
  held_piece self' = held_piece self /\ grid self' = grid self /\
  game_over self' = game_over self /\
  current_screen self' = current_screen self.
Proof.
  unfold score_and_reset, update_drop_speed.
  destruct (Score_update lines t false (drop_height self)
              (soft_drop_count self) (hard_drop_count self) (score self))
    as [[turn_score notifications] new_score].
  destruct (lines >? 0); game_simpl;
    destruct (is_board_clear (grid self)); game_simpl; done.
Qed.

(** Whenever the lock step returns, it has allocated exactly one piece, kept
    the held piece, and either ended the session on one of the two final
    screens or left [game_over] and the screen as they were. *)
Lemma lock_and_advance_frame (was : bool) self self' :
  lock_and_advance was self = Some self' ->
  (exists piece, heap self' = heap self ++ [piece]) /\
  held_piece self' = held_piece self /\
  (session_ended self' \/
   (game_over self' = game_over self /\
    current_screen self' = current_screen self)).
Proof.
  unfold lock_and_advance. intros Hrun.
  destruct (if was then check_t_spin self else Some NoSpin) as [t|];
    [|done].
  destruct (current self) as [p|]; [|done].
  cbn [mbind option_bind] in Hrun.
  destruct (find_lines_to_clear _) as [rows|] in Hrun; [|done].
  cbn [mbind option_bind] in Hrun.
  match type of Hrun with
  | spawn_after_lock (score_and_reset ?t ?n ?s) = _ =>
      destruct (score_and_reset_frame t n s)
        as (Hh & _ & Hhd & _ & Hgo & Hscr);
      destruct (spawn_after_lock_spec (score_and_reset t n s))
        as (s' & Hs' & _ & _ & _ & _ & Hheap & _ & Hheld & Hcol & Hfree);
      assert (heap s = heap self /\ held_piece s = held_piece self /\
              game_over s = game_over self /\
              current_screen s = current_screen self) as (E1 & E2 & E3 & E4)
        by (destruct (Z.of_nat (length rows) >? 0); game_simpl; done)
  end.
  rewrite Hs' in Hrun. injection Hrun as <-.
  rewrite Hh, E1 in Hheap. rewrite Hhd, E2 in Hheld.
  split; [eauto|]. split; [done|].
  match type of Hcol with
  | is_collision ?g ?q = true -> _ => destruct (is_collision g q)
  end.
  - left. by apply Hcol.
  - right. destruct Hfree as [-> ->]; [done|]. by rewrite Hgo, Hscr, E3, E4.
Qed.

Lemma ai_block_same_core (fuel : nat) (t : Z) p self p' self' :
  ai_block fuel t p self = Some (p', self') -> same_core self self'.
Proof.
  unfold ai_block. intros Hrun.
  destruct (String.eqb (mode self) "AI" && negb (is_paused self)).
  - destruct (match get_best_move (grid self) p with
              | Some _ => _ | None => _ end) as [q|]; [|done].
    simpl in Hrun.
    destruct (t - ai_debug_timer self >? ai_debug_interval);
      injection Hrun as <- <-; by repeat split.
  - injection Hrun as <- <-. apply same_core_refl.
Qed.

Lemma apply_gravity_same_core p self :
  same_core self (snd (apply_gravity p self)).
Proof.
  unfold apply_gravity.
  destruct (drop_timer self >? drop_speed self); by repeat split.
Qed.

Lemma end_of_frame_same_core self : same_core self (end_of_frame self).
Proof.
  unfold end_of_frame. game_simpl.
  destruct (level_up_effect self) as [t|]; [|by repeat split].
  destruct (timer_expired (timer_tick t)); by repeat split.
Qed.

Lemma update_current_piece_frame (fuel : nat) (t dt : Z) (l : loc)
    self self' :
  current_piece self = Some l ->
  update_current_piece fuel t dt l self = Some self' ->
  frame_effect self self'.
Proof.
  unfold update_current_piece. intros Hl Hrun.
  destruct (heap self !! l) as [p|]; [|done].
  cbn [mbind option_bind] in Hrun.
  destruct (ai_block fuel t _ self) as [[p1 s1]|] eqn:Hai; [|done].
  apply ai_block_same_core in Hai as (Hh1 & Hc1 & Hd1 & _ & _ & Hg1 & Hs1 & _).
  cbn [mbind option_bind] in Hrun.
  pose proof (apply_gravity_same_core p1 s1)
    as (Hh2 & Hc2 & Hd2 & _ & _ & Hg2 & Hs2 & _).
  destruct (apply_gravity p1 s1) as [p2 s2]. cbn [snd] in *.
  assert (forall a : loc, current_piece self ≠ Some a ->
            heap (store l (handle_lock_delay dt (grid s2) p2) s2) !! a
            = heap self !! a) as Hstore.
  { intros a Ha. game_simpl. rewrite list_lookup_insert_ne by congruence.
    by rewrite Hh2, Hh1. }
  destruct (is_locked (handle_lock_delay dt (grid s2) p2)).
  - apply lock_and_advance_frame in Hrun as ([q Hheap] & Hheld & Hover).
    split; [|split].
    + rewrite Hheld. game_simpl. by rewrite Hd2, Hd1.
    + intros a Ha Hlt. rewrite Hheap, lookup_app_l, Hstore; [done..|].
      game_simpl. by rewrite length_insert, Hh2, Hh1.
    + destruct Hover as [?|[-> ->]]; [by left|]. right. game_simpl.
      rewrite Hg2, Hg1, Hs2, Hs1. auto.
  - injection Hrun as <-. split; [|split].
    + game_simpl. by rewrite Hd2, Hd1.
    + intros a Ha _. by apply Hstore.
    + right. game_simpl. rewrite Hg2, Hg1, Hs2, Hs1. auto.
Qed.

Lemma frame_effect_take_next_piece self self' :
  heap self' = heap (take_next_piece self) ->
  held_piece self' = held_piece self ->
  game_over self' = game_over self ->
  game_over self = false ->
  frame_effect self self'.
Proof.
  intros Hh Hd Hg Hfalse.
  destruct (take_next_piece_fields self) as (Hheap & _).
  split; [done|]. split; [|right; auto].
  intros a _ Hlt. by rewrite Hh, Hheap, lookup_app_l.
Qed.

Lemma frame_effect_same_heap self self' :
  heap self' = heap self -> held_piece self' = held_piece self ->
  game_over self' = game_over self ->
  current_screen self' = current_screen self \/ game_over self = false ->
  frame_effect self self'.
Proof.
  intros Hh Hd Hg Hs. split; [done|]. split; [|right; auto].
  intros a _ _. by rewrite Hh.
Qed.

(** One frame, on any screen: either nothing at all changes, or the session
    was running ([game_over] was false) and the frame had the effect above. *)
Lemma update_frame (fuel : nat) (t : Z) self self' :
  update fuel t self = Some self' ->
  self' = self \/ (over_inv self -> frame_effect self self').
Proof.
  unfold update, over_inv, session_ended. intros Hrun.
  destruct (current_screen self) eqn:Hscreen;
    try (left; congruence); right; intros Hinv;
    (assert (game_over self = false) as Hfalse
      by (destruct (game_over self); [|done];
          destruct Hinv as [_ [?|?]]; congruence)).
  - (* transition_to_game *)
    destruct (negb _); injection Hrun as <-;
      apply frame_effect_same_heap; auto.
  - (* countdown *)
    destruct (countdown_timer self) as [ct|]; [|done].
    cbn [mbind option_bind] in Hrun.
    destruct (timer_expired (timer_tick ct)); injection Hrun as <-.
    + apply frame_effect_take_next_piece; try done.
      all: match goal with
           | |- context [take_next_piece ?s] =>
               destruct (take_next_piece_fields s)
                 as (_ & _ & _ & _ & _ & Hg & _ & _ & Hd);
               game_simpl; try rewrite Hg; try rewrite Hd; game_simpl
           end; try done.
      unfold take_next_piece.
      by destruct (get_next_piece _ _).
    + apply frame_effect_same_heap; auto.
  - (* game *)
    unfold update_game in Hrun.
    destruct (start_timer self) as [st|].
    + destruct (timer_expired (timer_tick st)); injection Hrun as <-.
      * apply frame_effect_take_next_piece; try done.
        all: match goal with
             | |- context [take_next_piece ?s] =>
                 destruct (take_next_piece_fields s)
                   as (_ & _ & _ & _ & _ & Hg & _ & _ & Hd);
                 game_simpl; try rewrite Hg; try rewrite Hd; game_simpl
             end; try done.
        unfold take_next_piece.
        by destruct (get_next_piece _ _).
      * apply frame_effect_same_heap; auto.
    + rewrite Hfalse in Hrun. cbn [orb] in Hrun.
      destruct (is_paused self).
      { injection Hrun as <-. apply frame_effect_same_heap; auto. }
      game_simpl.
      destruct (current_piece self) as [l|] eqn:Hl.
      * match type of Hrun with
        | context [update_current_piece ?f ?t ?d ?l ?s] =>
            destruct (update_current_piece f t d l s) as [s1|] eqn:Hs1;
              [|done]
        end.
        cbn [mbind option_bind] in Hrun. injection Hrun as <-.
        apply update_current_piece_frame in Hs1; [|done].
        destruct (end_of_frame_same_core s1)
          as (Eh & _ & Ed & _ & _ & Eg & Es & _).
        destruct Hs1 as (Hd & Hheap & Hover). game_simpl.
        split; [by rewrite Ed|]. split.
        -- intros a Ha Hlt. rewrite Eh. by apply Hheap.
        -- unfold session_ended in *. rewrite Eg, Es.
           destruct Hover as [?|[-> _]]; auto.
      * cbn [mbind option_bind] in Hrun. injection Hrun as <-.
        match goal with
        | |- frame_effect _ (end_of_frame ?s) =>
            destruct (end_of_frame_same_core s)
              as (Eh & _ & Ed & _ & _ & Eg & Es & _)
        end.
        apply frame_effect_same_heap; game_simpl; auto.
Qed.

Lemma update_over_inv (fuel : nat) (t : Z) self self' :
  over_inv self -> update fuel t self = Some self' -> over_inv self'.
Proof.
  intros Hinv Hrun.
  destruct (update_frame fuel t self self' Hrun) as [->|Hframe]; [done|].
  destruct (Hframe Hinv) as (_ & _ & [Hend|[Hg Hs]]); [by intros _|].
  intros Hover. rewrite Hg in Hover.
  destruct Hs as [Hs|Hs]; [|congruence].
  destruct (Hinv Hover) as [_ Hscreen].
  split; [congruence|]. by rewrite Hs.
Qed.

Lemma start_new_game_over_inv (t : Z) self : over_inv (start_new_game t self).
Proof. unfold over_inv, start_new_game. game_simpl. discriminate. Qed.

Lemma return_to_menu_over_inv self : over_inv (return_to_menu self).
Proof. unfold over_inv, return_to_menu. game_simpl. discriminate. Qed.

(** *** Game over *)

(** A frame of a session that is over changes nothing. *)
Lemma update_game_over (fuel : nat) (t : Z) self :
  game_over self = true ->
  (current_screen self = ScreenGame -> start_timer self = None) ->
  current_screen self ≠ ScreenCountdown ->
  current_screen self ≠ ScreenTransitionToGame ->
  update fuel t self = Some self.
Proof.
  intros Hover Htimer Hc Ht. unfold update.
  destruct (current_screen self); try done.
  unfold update_game. rewrite Htimer by done. by rewrite Hover.
Qed.

(** C8: once [game_over] is true (which the lock step sets together with the
    move to the name-entry or high-score screen; also on the game screen
    itself when no start timer runs, on the menu and on the pause screen),
    every later call of [update], whatever the clock says, returns the state
    it was given: the grid, the score, the current piece and the objects of
    the heap are unchanged and [game_over] stays true. *)
Theorem game_over_freezes (fuel : nat) (times : list Z) self :
  game_over self = true ->
  (current_screen self = ScreenGame -> start_timer self = None) ->
  current_screen self ≠ ScreenCountdown ->
  current_screen self ≠ ScreenTransitionToGame ->
  exists self',
    run_updates fuel times self = Some self' /\
    self' = self /\
    grid self' = grid self /\ score self' = score self /\
    current_piece self' = current_piece self /\
    current self' = current self /\ game_over self' = true.
Proof.
  intros Hover Htimer Hc Ht. exists self.
  split; [|by repeat split].
  induction times as [|t times IH]; [done|].
  simpl. by rewrite update_game_over.
Qed.

(** The state in which the lock step leaves a session it has ended satisfies
    the conditions above. *)
Lemma session_ended_frozen self :
  session_ended self ->
  game_over self = true /\
  (current_screen self = ScreenGame -> start_timer self = None) /\
  current_screen self ≠ ScreenCountdown /\
  current_screen self ≠ ScreenTransitionToGame.
Proof.
  intros [Hover [Hs|Hs]]; rewrite Hs; by repeat split.
Qed.

(** *** Hold *)

Lemma hold_piece_first self cur :
  held_piece self = None -> current self = Some cur ->
  let h := Tetromino_init (shape_name cur) (grid self) in
  let piece := fst (get_next_piece (piece_generator self) (grid self)) in
  exists self',
    hold_piece self = Some self' /\
    heap self' = (heap self ++ [h]) ++ [piece] /\
    held_piece self' = Some (length (heap self)) /\
    current_piece self' = Some (S (length (heap self))) /\
    grid self' = grid self /\ score self' = score self /\
    game_over self' = game_over self /\
    current_screen self' = current_screen self.
Proof.
  intros Hheld Hcur h piece. unfold hold_piece.
  rewrite Hheld, Hcur. cbn [mbind option_bind alloc]. fold h.
  eexists. split; [done|].
  match goal with
  | |- context [take_next_piece ?s] =>
      destruct (take_next_piece_fields s)
        as (Hh & Hc & _ & Hg & Hsc & Hgo & Hscr & _ & Hhd)
  end.
  rewrite Hh, Hc, Hg, Hsc, Hgo, Hscr, Hhd. game_simpl.
  rewrite length_app. simpl. rewrite Nat.add_1_r. done.
Qed.

Lemma hold_piece_swap self cur (lh : loc) held :
  held_piece self = Some lh -> current self = Some cur ->
  heap self !! lh = Some held ->
  let c := reset_position (grid self)
             (Tetromino_init (shape_name held) (grid self)) in
  let h := Tetromino_init (shape_name cur) (grid self) in
  exists self',
    hold_piece self = Some self' /\
    heap self' = (heap self ++ [c]) ++ [h] /\
    current_piece self' = Some (length (heap self)) /\
    held_piece self' = Some (S (length (heap self))) /\
    grid self' = grid self /\ score self' = score self /\
    game_over self' = game_over self /\
    current_screen self' = current_screen self /\
    piece_generator self' = piece_generator self.
Proof.
  intros Hheld Hcur Hlh c h. unfold hold_piece.
  rewrite Hheld, Hcur. cbn [mbind option_bind]. rewrite Hlh.
  cbn [mbind option_bind]. game_simpl.
  eexists. split; [done|]. game_simpl.
  rewrite insert_app_r_alt, Nat.sub_diag by lia. simpl.
  rewrite length_app. simpl. rewrite Nat.add_1_r. done.
Qed.

(** A first hold installs the next piece of the generator as the current
    piece without looking at the grid: when that piece collides where it
    spawns, the session goes on all the same. *)
Lemma hold_piece_no_spawn_check self cur :
  held_piece self = None -> current self = Some cur ->
  let piece := fst (get_next_piece (piece_generator self) (grid self)) in
  exists self',
    hold_piece self = Some self' /\
    current self' = Some piece /\ grid self' = grid self /\
    game_over self' = game_over self /\
    current_screen self' = current_screen self.
Proof.
  intros Hheld Hcur piece.
  destruct (hold_piece_first self cur Hheld Hcur)
    as (self' & Hrun & Hh & _ & Hc & Hg & _ & Hgo & Hs).
  exists self'. split; [done|]. split; [|done].
  unfold current. rewrite Hc, Hh. simpl.
  rewrite lookup_app_r; rewrite length_app; simpl; [|lia].
  by replace (S (length (heap self)) - (length (heap self) + 1))%nat
    with 0%nat by lia.
Qed.

(** A held piece that is another object than the current piece is out of
    reach of the writes to the current piece, those of a frame included. *)
Lemma held_survives self (lh lc : loc) :
  held_piece self = Some lh -> current_piece self = Some lc -> lh ≠ lc ->
  is_Some (heap self !! lh) ->
  (forall q : Tetromino, heap (store lc q self) !! lh = heap self !! lh) /\
  (forall (fuel : nat) (t : Z) (self' : Game),
     over_inv self -> update fuel t self = Some self' ->
     heap self' !! lh = heap self !! lh /\ held_piece self' = Some lh).
Proof.
  intros Hheld Hcur Hne Hlive. split.
  - intros q. game_simpl. by rewrite list_lookup_insert_ne.
  - intros fuel t self' Hinv Hrun.
    destruct (update_frame fuel t self self' Hrun) as [->|Hframe]; [done|].
    destruct (Hframe Hinv) as (Hhd & Hheap & _).
    split; [|congruence].
    apply Hheap; [congruence|]. by apply lookup_lt_is_Some.
Qed.

Lemma key_hold_over_inv self self' :
  over_inv self -> current self ≠ None ->
  (forall lh, held_piece self = Some lh -> is_Some (heap self !! lh)) ->
  key_hold self = Some self' -> over_inv self'.
Proof.
  unfold key_hold, over_inv, session_ended. intros Hinv Hcur Hlive Hrun.
  destruct (can_hold self); [|by injection Hrun as <-].
  destruct (current self) as [cur|] eqn:Ecur; [|done].
  destruct (held_piece self) as [lh|] eqn:Eheld.
  - destruct (Hlive lh eq_refl) as [held Hlh].
    destruct (hold_piece_swap self cur lh held Eheld Ecur Hlh)
      as (s & Hs & _ & _ & _ & _ & _ & Hgo & Hscr & _).
    rewrite Hs in Hrun. cbn [mbind option_bind] in Hrun.
    injection Hrun as <-. game_simpl. by rewrite Hgo, Hscr.
  - destruct (hold_piece_first self cur Eheld Ecur)
      as (s & Hs & _ & _ & _ & _ & _ & Hgo & Hscr).
    rewrite Hs in Hrun. cbn [mbind option_bind] in Hrun.
    injection Hrun as <-. game_simpl. by rewrite Hgo, Hscr.
Qed.

(** C9: [hold_piece] with an empty slot stores in the slot a piece newly
    constructed from the shape name of the current piece and makes the next
    piece of the generator the current piece; with a piece in the slot it
    makes a piece newly constructed from the shape name of the held piece,
    its position reset, the current piece and stores in the slot a piece
    newly constructed from the shape name of the former current piece.  In
    both cases the held piece is an object that did not exist before, other
    than the current piece, so a write to the current piece, and every
    later frame, leaves it as it is. *)
Theorem hold_piece_fresh_copy self cur :
  current self = Some cur ->
  (forall lh, held_piece self = Some lh -> is_Some (heap self !! lh)) ->
  exists (self' : Game) (lh' lc' : loc),
    hold_piece self = Some self' /\
    held_piece self' = Some lh' /\ current_piece self' = Some lc' /\
    lh' ≠ lc' /\ (length (heap self) <= lh')%nat /\
    (forall a : loc, (a < length (heap self))%nat ->
       heap self' !! a = heap self !! a) /\
    heap self' !! lh' = Some (Tetromino_init (shape_name cur) (grid self)) /\
    match held_piece self with
    | None =>
        heap self' !! lc' =
        Some (fst (get_next_piece (piece_generator self) (grid self)))
    | Some lh =>
        exists held,
          heap self !! lh = Some held /\
          heap self' !! lc' =
          Some (reset_position (grid self)
                  (Tetromino_init (shape_name held) (grid self)))
    end /\
    (forall q : Tetromino,
       heap (store lc' q self') !! lh' = heap self' !! lh') /\
    (forall (fuel : nat) (t : Z) (self'' : Game),
       over_inv self' -> update fuel t self' = Some self'' ->
       heap self'' !! lh' = heap self' !! lh' /\
       held_piece self'' = Some lh').
Proof.
  intros Hcur Hlive.
  destruct (held_piece self) as [lh|] eqn:Hheld.
  - destruct (Hlive lh eq_refl) as [held Hlh].
    destruct (hold_piece_swap self cur lh held Hheld Hcur Hlh)
      as (self' & Hrun & Hh & Hc & Hhd & _).
    exists self', (S (length (heap self))), (length (heap self)).
    split; [done|]. split; [done|]. split; [done|]. split; [lia|].
    split; [lia|]. rewrite Hh. split; [|split; [|split]].
    + intros a Ha. rewrite !lookup_app_l; [done | lia |].
      rewrite length_app. lia.
    + rewrite lookup_app_r; rewrite length_app; simpl; [|lia].
      by replace (S (length (heap self)) - (length (heap self) + 1))%nat
        with 0%nat by lia.
    + exists held. split; [done|].
      rewrite lookup_app_l by (rewrite length_app; simpl; lia).
      rewrite lookup_app_r by lia. by rewrite Nat.sub_diag.
    + rewrite <- Hh. apply held_survives; [done | done | lia |].
      apply lookup_lt_is_Some. rewrite Hh, !length_app. simpl. lia.
  - destruct (hold_piece_first self cur Hheld Hcur)
      as (self' & Hrun & Hh & Hhd & Hc & _).
    exists self', (length (heap self)), (S (length (heap self))).
    split; [done|]. split; [done|]. split; [done|]. split; [lia|].
    split; [lia|]. rewrite Hh. split; [|split; [|split]].
    + intros a Ha. rewrite !lookup_app_l; [done | lia |].
      rewrite length_app. lia.
    + rewrite lookup_app_l by (rewrite length_app; simpl; lia).
      rewrite lookup_app_r by lia. by rewrite Nat.sub_diag.
    + rewrite lookup_app_r; rewrite length_app; simpl; [|lia].
      by replace (S (length (heap self)) - (length (heap self) + 1))%nat
        with 0%nat by lia.
    + rewrite <- Hh. apply held_survives; [done | done | lia |].
      apply lookup_lt_is_Some. rewrite Hh, !length_app. simpl. lia.
Qed.

End Properties.

(** ** The properties on concrete boards *)

Import Sample.
Import SampleKeys.

(** The lock step that deals the I piece on the same board does end the
    session. *)
Example spawn_after_lock_crowded :
  option_map (fun s => (option_map shape_name (current s), game_over s,
                        current_screen s))
    (spawn_after_lock Boards.crowded)
  = Some (Some "I"%string, true, ScreenHighScores).
Proof. reflexivity. Qed.

(** So it does on a board whose tower is in column 4, where every piece of
    the bag spawns on the tower. *)
Example spawn_after_lock_blocked :
  option_map (fun s => (game_over s, current_screen s))
    (spawn_after_lock Boards.blocked)
  = Some (true, ScreenHighScores).
Proof. reflexivity. Qed.

(** One frame of 16 ms in which the T piece locks: a T-spin that clears the
    tenth line; the four remaining blocks drop by one row, the session
    reaches level 2 and the next piece spawns. *)
Example update_locking_frame :
  option_map
    (fun s => (points (score s), level (score s), drop_speed s,
               option_map shape_name (current s), current_piece s,
               is_cell_filled s 3 18, is_cell_filled s 3 19,
               can_hold s, game_over s))
    (update 0 16 Boards.about_to_lock)
  = Some (500, 2, 950, Some "T"%string, Some 1%nat,
          Some true, Some true, true, false).
Proof. vm_compute. reflexivity. Qed.


Example check_t_spin_pocket_mini :
  check_t_spin Boards.pocket_mini = Some SpinMini.
Proof. reflexivity. Qed.

(** A T piece resting in the slot locks when its timer passes 500 ms. *)
Lemma lock_delay_expiry_witness :
  is_locked
    (handle_lock_delay 16 (grid Boards.pocket_normal) Boards.t_resting)
  = true.
Proof.
  destruct (lock_delay_expiry 16 (grid Boards.pocket_normal)
              Boards.t_resting eq_refl) as (Hlock & _).
  - left. vm_compute. discriminate.
  - apply Hlock. reflexivity.
Defined.

(** Locking the T piece into the slot fills the bottom row. *)
Lemma lines_to_clear_post_lock_witness :
  exists rows : list Z,
    find_lines_to_clear
      (lock_piece (grid Boards.line_ready) Boards.t_down) = Some rows /\
    StronglySorted Z.gt rows.
Proof.
  destruct (lines_to_clear_post_lock true Boards.line_ready Boards.t_down)
    as (rows & t & Hrows & _ & Hsorted & _);
    [reflexivity | vm_compute; reflexivity | vm_compute; reflexivity |].
  exists rows. split; [exact Hrows | exact Hsorted].
Defined.

Example lines_to_clear_line_ready :
  find_lines_to_clear (lock_piece (grid Boards.line_ready) Boards.t_down)
  = Some [19].
Proof. reflexivity. Qed.

(** A cell left of the board counts as filled. *)
Lemma is_cell_filled_total_guarded_witness :
  is_cell_filled Boards.pocket_normal (-1) 5 = Some true.
Proof.
  destruct (is_cell_filled_total_guarded Boards.pocket_normal (-1) 5
              eq_refl) as (_ & Hout & _).
  apply Hout. left. reflexivity.
Defined.

Example is_cell_filled_samples :
  is_cell_filled Boards.pocket_normal 3 19 = Some true /\
  is_cell_filled Boards.pocket_normal 4 19 = Some false /\
  is_cell_filled Boards.pocket_normal 10 0 = Some true /\
  is_cell_filled Boards.pocket_normal 0 20 = Some true.
Proof. repeat split. Qed.

(** The tenth line takes the session to level 2 and the drop speed to
    950 ms. *)
Lemma drop_speed_after_lock_witness :
  exists self' : Game,
    lock_and_advance true Boards.line_ready = Some self' /\
    drop_speed self' = 950.
Proof.
  destruct (drop_speed_after_lock true Boards.line_ready Boards.t_down)
    as (rows & t & self' & Hrows & Ht & Hrun & Hpos & _);
    [reflexivity | vm_compute; reflexivity | vm_compute; reflexivity |].
  exists self'. split; [exact Hrun|].
  vm_compute in Hrows. injection Hrows as <-.
  vm_compute in Ht. injection Ht as <-.
  rewrite Hpos by discriminate. reflexivity.
Defined.

(** A session that has ended ignores three further frames. *)
Lemma game_over_freezes_witness :
  run_updates 0 [16; 33; 50] Boards.ended = Some Boards.ended.
Proof.
  destruct (game_over_freezes 0 [16; 33; 50] Boards.ended eq_refl)
    as (self' & Hrun & -> & _).
  - discriminate.
  - discriminate.
  - discriminate.
  - exact Hrun.
Defined.

(** The first hold of a session. *)
Lemma hold_piece_fresh_copy_witness :
  exists (self' : Game) (lh' lc' : loc),
    hold_piece Boards.pocket_normal = Some self' /\
    held_piece self' = Some lh' /\ current_piece self' = Some lc' /\
    lh' ≠ lc' /\
    heap self' !! lh' = Some (Tetromino_init "T" (grid Boards.pocket_normal)).
Proof.
  destruct (hold_piece_fresh_copy Boards.pocket_normal Boards.t_down eq_refl)
    as (self' & lh' & lc' & Hrun & Hheld & Hcur & Hne & _ & _ & Hh & _).
  - intros lh Hlh. discriminate Hlh.
  - exists self', lh', lc'. repeat split; assumption.
Defined.

(** ** Further properties of [game.py] *)

Section MoreProperties.

Context {constants : Constants} {tetromino_ops : TetrominoOps}
        {grid_ops : GridOps} {generator_ops : GeneratorOps}
        {score_ops : ScoreOps} {ai_ops : AIOps} {frame_ops : FrameOps}
        {key_ops : TetrominoKeyOps} {button_ops : ButtonOps}
        {geometry : GridGeometry}.

Implicit Types (self : Game) (g : Grid) (p piece : Tetromino) (keys : Keys).

(** *** The shape of a frame *)

Lemma lock_and_advance_inv (was : bool) self self' :
  lock_and_advance was self = Some self' ->
  exists (t : TSpin) p (rows : list Z),
    (if was then check_t_spin self else Some NoSpin) = Some t /\
    current self = Some p /\
    find_lines_to_clear (lock_piece (grid self) p) = Some rows /\
    spawn_after_lock
      (score_and_reset t (Z.of_nat (length rows))
         (if decide (rows = [])
          then set_grid (lock_piece (grid self) p) self
          else set_grid (clear_lines (lock_piece (grid self) p)) self))
    = Some self'.
Proof.
  intros Hrun.
  destruct (if was then check_t_spin self else Some NoSpin) as [t|] eqn:Ht;
    [|by unfold lock_and_advance in Hrun; rewrite Ht in Hrun].
  destruct (current self) as [p|] eqn:Hcur;
    [|by unfold lock_and_advance in Hrun; rewrite Ht, Hcur in Hrun].
  destruct (find_lines_to_clear (lock_piece (grid self) p)) as [rows|]
    eqn:Hrows.
  - exists t, p, rows. repeat split; try done.
    by rewrite <- (lock_and_advance_unfold was self p t rows).
  - unfold lock_and_advance in Hrun. rewrite Ht, Hcur in Hrun.
    cbn [mbind option_bind] in Hrun. game_simpl. by rewrite Hrows in Hrun.
Qed.

Lemma update_current_piece_inv (fuel : nat) (t dt : Z) (l : loc)
    self self' :
  update_current_piece fuel t dt l self = Some self' ->
  exists p p1 s1,
    heap self !! l = Some p /\
    ai_block fuel t (update_position (grid self) p) self = Some (p1, s1) /\
    let p3 :=
      handle_lock_delay dt (grid (snd (apply_gravity p1 s1)))
        (fst (apply_gravity p1 s1)) in
    let s3 := store l p3 (snd (apply_gravity p1 s1)) in
    (is_locked p3 = false /\ self' = s3) \/
    (is_locked p3 = true /\
     lock_and_advance (last_move_was_rotation s1) s3 = Some self').
Proof.
  unfold update_current_piece. intros Hrun.
  destruct (heap self !! l) as [p|]; [|done].
  cbn [mbind option_bind] in Hrun.
  destruct (ai_block fuel t _ self) as [[p1 s1]|] eqn:Hai; [|done].
  cbn [mbind option_bind] in Hrun.
  exists p, p1, s1. split; [done|]. split; [done|].
  destruct (apply_gravity p1 s1) as [p2 s2]. cbn [fst snd].
  destruct (is_locked (handle_lock_delay dt (grid s2) p2)).
  - by right.
  - left. split; [done|]. by injection Hrun as <-.
Qed.

(** The five ways a call of [update] goes. *)
Lemma update_inv (fuel : nat) (t : Z) self self' :
  update fuel t self = Some self' ->
  self' = self \/
  (current_screen self = ScreenTransitionToGame /\
   let s1 := set_transition (transition_update (transition self)) self in
   (self' = s1 \/
    self' = set_countdown_timer (Some timer_three)
              (set_current_screen ScreenCountdown s1))) \/
  (current_screen self = ScreenCountdown /\
   exists ct, countdown_timer self = Some ct /\
     let s1 := set_countdown_timer (Some (timer_tick ct)) self in
     (self' = s1 \/
      self' = set_can_hold true
                (take_next_piece (set_current_screen ScreenGame s1)))) \/
  (current_screen self = ScreenGame /\
   exists st, start_timer self = Some st /\
     (self' = set_start_timer (Some (timer_tick st)) self \/
      self' = set_can_hold true
                (take_next_piece (set_start_timer None self)))) \/
  (current_screen self = ScreenGame /\ start_timer self = None /\
   game_over self = false /\ is_paused self = false /\
   let dt := t - last_update_time self in
   let s0 :=
     set_last_update_time t (set_drop_timer (drop_timer self + dt) self) in
   (current_piece self = None /\ self' = end_of_frame s0) \/
   (exists (l : loc) (s1 : Game),
      current_piece self = Some l /\
      update_current_piece fuel t dt l s0 = Some s1 /\
      self' = end_of_frame s1)).
Proof.
  unfold update. intros Hrun.
  destruct (current_screen self) eqn:Hscreen;
    try (left; congruence).
  - right; left. split; [done|]. cbn zeta.
    destruct (negb _); injection Hrun as <-; auto.
  - right; right; left. split; [done|].
    destruct (countdown_timer self) as [ct|]; [|done].
    cbn [mbind option_bind] in Hrun. exists ct. split; [done|]. cbn zeta.
    destruct (timer_expired (timer_tick ct)); injection Hrun as <-; auto.
  - unfold update_game in Hrun.
    destruct (start_timer self) as [st|] eqn:Hst.
    + right; right; right; left. split; [done|]. exists st. split; [done|].
      destruct (timer_expired (timer_tick st)); injection Hrun as <-; auto.
    + destruct (game_over self) eqn:Hover;
        [left; cbn [orb] in Hrun; congruence|].
      destruct (is_paused self) eqn:Hpaused;
        [left; cbn [orb] in Hrun; congruence|].
      cbn [orb] in Hrun.
      right; right; right; right. repeat (split; [done|]). cbn zeta.
      game_simpl.
      destruct (current_piece self) as [l|] eqn:Hl.
      * match type of Hrun with
        | context [update_current_piece ?f ?t ?d ?l ?s] =>
            destruct (update_current_piece f t d l s) as [s1|] eqn:Hs1;
              [|done]
        end.
        cbn [mbind option_bind] in Hrun. injection Hrun as <-.
        right. by exists l, s1.
      * cbn [mbind option_bind] in Hrun. injection Hrun as <-. by left.
Qed.

(** *** What a frame keeps *)

Lemma frame_keeps_refl self : frame_keeps self self.
Proof. unfold frame_keeps. intuition lia. Qed.

Lemma frame_keeps_trans (s1 s2 s3 : Game) :
  frame_keeps s1 s2 -> frame_keeps s2 s3 -> frame_keeps s1 s3.
Proof.
  intros (M1 & P1 & H1 & L1 & E1 & S1 & V1 & R1)
         (M2 & P2 & H2 & L2 & E2 & S2 & V2 & R2).
  unfold frame_keeps. intuition (congruence || lia).
Qed.

(** A state that differs only in fields no condition mentions. *)
Lemma frame_keeps_fields' self self' :
  mode self' = mode self -> is_paused self' = is_paused self ->
  held_piece self' = held_piece self -> heap self' = heap self ->
  current_piece self' = current_piece self ->
  level_up_effect self' = level_up_effect self ->
  drop_speed self' = drop_speed self ->
  next_pieces self' = next_pieces self ->
  piece_generator self' = piece_generator self ->
  (countdown_ok self -> countdown_ok self') ->
  (grid_laws -> grid_wf (grid self) = true -> grid_wf (grid self') = true) ->
  frame_keeps self self'.
Proof.
  intros Hm Hp Hh Hheap Hc He Hs Hn Hg Hcd Hwf.
  unfold frame_keeps, preview_ok, refs_ok.
  rewrite Hm, Hp, Hh, Hheap, Hc, He, Hs, Hn, Hg. intuition lia.
Qed.

Lemma frame_keeps_fields self self' :
  mode self' = mode self -> is_paused self' = is_paused self ->
  held_piece self' = held_piece self -> heap self' = heap self ->
  current_piece self' = current_piece self ->
  level_up_effect self' = level_up_effect self ->
  drop_speed self' = drop_speed self ->
  next_pieces self' = next_pieces self ->
  piece_generator self' = piece_generator self ->
  grid self' = grid self ->
  current_screen self' = current_screen self ->
  countdown_timer self' = countdown_timer self ->
  frame_keeps self self'.
Proof.
  intros Hm Hp Hh Hheap Hc He Hs Hn Hg Hgr Hscr Hct.
  apply frame_keeps_fields'; try done.
  - unfold countdown_ok. by rewrite Hscr, Hct.
  - by rewrite Hgr.
Qed.

Lemma frame_keeps_store (l : loc) p self :
  frame_keeps self (store l p self).
Proof.
  unfold frame_keeps, preview_ok, refs_ok, countdown_ok. game_simpl.
  rewrite length_insert. intuition lia.
Qed.

Lemma frame_keeps_take_next_piece self :
  frame_keeps self (take_next_piece self).
Proof.
  unfold frame_keeps, preview_ok, refs_ok, countdown_ok, take_next_piece.
  destruct (get_next_piece (piece_generator self) (grid self))
    as [piece generator].
  game_simpl. rewrite length_app. simpl.
  do 3 (split; [done|]). split; [lia|]. do 3 (split; [done|]).
  split; [|done].
  intros (_ & Hheld & _). split; [|split].
  - intros l [= <-]. lia.
  - intros l Hl. apply Hheld in Hl. lia.
  - intros l [= <-] Hl. apply Hheld in Hl. lia.
Qed.

Lemma frame_keeps_end_of_frame self : frame_keeps self (end_of_frame self).
Proof.
  unfold end_of_frame. game_simpl.
  destruct (level_up_effect self) as [t|] eqn:He.
  - destruct (timer_expired (timer_tick t));
      unfold frame_keeps, preview_ok, refs_ok, countdown_ok; game_simpl;
      intuition (congruence || lia).
  - by apply frame_keeps_fields.
Qed.

Lemma frame_keeps_score_and_reset (t : TSpin) (lines : Z) self :
  frame_keeps self (score_and_reset t lines self).
Proof.
  unfold score_and_reset, update_drop_speed.
  destruct (Score_update lines t false (drop_height self)
              (soft_drop_count self) (hard_drop_count self) (score self))
    as [[turn_score notifications] new_score].
  destruct (lines >? 0); game_simpl;
    destruct (is_board_clear (grid self));
    unfold frame_keeps, preview_ok, refs_ok, countdown_ok; game_simpl;
    pose proof (Z.le_max_l MIN_DROP_SPEED
                  (INITIAL_DROP_SPEED
                   - (level (update_level new_score) - 1) * SPEED_INCREMENT));
    intuition lia.
Qed.

Lemma frame_keeps_spawn_after_lock self self' :
  spawn_after_lock self = Some self' -> frame_keeps self self'.
Proof.
  unfold spawn_after_lock. intros Hrun.
  apply (frame_keeps_trans _ (take_next_piece self)).
  { apply frame_keeps_take_next_piece. }
  destruct (current (set_can_hold true (take_next_piece self))); [|done].
  cbn [mbind option_bind] in Hrun.
  destruct (is_collision _ _); injection Hrun as <-.
  - unfold check_high_score. game_simpl.
    destruct (is_high_score _); apply frame_keeps_fields'; try done;
      unfold countdown_ok; game_simpl; done.
  - by apply frame_keeps_fields.
Qed.

Lemma frame_keeps_lock_and_advance (was : bool) self self' :
  lock_and_advance was self = Some self' -> frame_keeps self self'.
Proof.
  intros Hrun.
  apply lock_and_advance_inv in Hrun as (t & p & rows & _ & _ & _ & Hrun).
  apply frame_keeps_spawn_after_lock in Hrun.
  eapply frame_keeps_trans; [|eapply frame_keeps_trans; [|exact Hrun]].
  2: apply frame_keeps_score_and_reset.
  destruct (decide (rows = [])); apply frame_keeps_fields'; try done;
    game_simpl; intros (_ & Hlock & Hclear) Hwf; auto.
Qed.

Lemma frame_keeps_ai_block (fuel : nat) (t : Z) p self p' self' :
  ai_block fuel t p self = Some (p', self') -> frame_keeps self self'.
Proof.
  unfold ai_block. intros Hrun.
  destruct (String.eqb (mode self) "AI" && negb (is_paused self)).
  - destruct (match get_best_move (grid self) p with
              | Some _ => _ | None => _ end) as [q|]; [|done].
    cbn [mbind option_bind] in Hrun.
    destruct (t - ai_debug_timer self >? ai_debug_interval);
      injection Hrun as <- <-; by apply frame_keeps_fields.
  - injection Hrun as <- <-. apply frame_keeps_refl.
Qed.

Lemma frame_keeps_apply_gravity p self :
  frame_keeps self (snd (apply_gravity p self)).
Proof.
  unfold apply_gravity.
  destruct (drop_timer self >? drop_speed self); by apply frame_keeps_fields.
Qed.

Lemma frame_keeps_update_current_piece (fuel : nat) (t dt : Z) (l : loc)
    self self' :
  update_current_piece fuel t dt l self = Some self' ->
  frame_keeps self self'.
Proof.
  intros Hrun.
  apply update_current_piece_inv in Hrun
    as (p & p1 & s1 & _ & Hai & [[_ ->]|[_ Hlock]]).
  - eapply frame_keeps_trans; [eapply frame_keeps_ai_block, Hai|].
    eapply frame_keeps_trans; [apply (frame_keeps_apply_gravity p1)|].
    apply frame_keeps_store.
  - eapply frame_keeps_trans; [eapply frame_keeps_ai_block, Hai|].
    eapply frame_keeps_trans; [apply (frame_keeps_apply_gravity p1)|].
    eapply frame_keeps_trans; [apply frame_keeps_store|].
    eapply frame_keeps_lock_and_advance, Hlock.
Qed.

Ltac keeps_spawn :=
  match goal with
  | |- frame_keeps _ (set_can_hold true (take_next_piece ?s)) =>
      apply (frame_keeps_trans _ s);
        [apply frame_keeps_fields'; try done;
         unfold countdown_ok; game_simpl; congruence|];
      apply (frame_keeps_trans _ (take_next_piece s));
        [apply frame_keeps_take_next_piece | by apply frame_keeps_fields]
  end.

Lemma frame_keeps_update (fuel : nat) (t : Z) self self' :
  update fuel t self = Some self' -> frame_keeps self self'.
Proof.
  intros Hrun.
  destruct (update_inv fuel t self self' Hrun)
    as [->|[(_ & [->| ->])|[(_ & ct & _ & [->| ->])
       |[(_ & st & _ & [->| ->])|(_ & _ & _ & _ & [[_ ->]|Hpiece])]]]].
  - apply frame_keeps_refl.
  - by apply frame_keeps_fields.
  - apply frame_keeps_fields'; try done;
      unfold countdown_ok; game_simpl; done.
  - apply frame_keeps_fields'; try done;
      unfold countdown_ok; game_simpl; done.
  - keeps_spawn.
  - by apply frame_keeps_fields.
  - keeps_spawn.
  - match goal with
    | |- frame_keeps _ (end_of_frame ?s) =>
        apply (frame_keeps_trans _ s);
          [by apply frame_keeps_fields | apply frame_keeps_end_of_frame]
    end.
  - destruct Hpiece as (l & s1 & _ & Hs1 & ->).
    apply (frame_keeps_trans _ s1); [|apply frame_keeps_end_of_frame].
    eapply frame_keeps_trans;
      [|eapply frame_keeps_update_current_piece, Hs1].
    by apply frame_keeps_fields.
Qed.

(** *** What the input handling keeps *)

Lemma input_keeps_refl self : input_keeps self self.
Proof. unfold input_keeps. intuition lia. Qed.

Lemma input_keeps_trans (s1 s2 s3 : Game) :
  input_keeps s1 s2 -> input_keeps s2 s3 -> input_keeps s1 s3.
Proof. unfold input_keeps. intuition (congruence || lia). Qed.

(** A state that differs only in fields no condition mentions. *)
Lemma input_keeps_fields self self' :
  grid self' = grid self -> score self' = score self ->
  drop_speed self' = drop_speed self -> drop_timer self' = drop_timer self ->
  drop_height self' = drop_height self ->
  last_update_time self' = last_update_time self ->
  level_up_effect self' = level_up_effect self -> mode self' = mode self ->
  heap self' = heap self -> current_piece self' = current_piece self ->
  held_piece self' = held_piece self ->
  next_pieces self' = next_pieces self ->
  piece_generator self' = piece_generator self ->
  game_over self' = game_over self ->
  current_screen self' = current_screen self ->
  countdown_timer self' = countdown_timer self ->
  input_keeps self self'.
Proof.
  intros Hg Hsc Hds Hdt Hdh Hlt He Hm Hh Hc Hhd Hn Hpg Hgo Hscr Hct.
  unfold input_keeps, preview_ok, refs_ok, over_inv, session_ended.
  rewrite Hg, Hsc, Hds, Hdt, Hdh, Hlt, He, Hm, Hh, Hc, Hhd, Hn, Hpg, Hgo,
    Hscr, Hct.
  intuition lia.
Qed.

Lemma input_keeps_store (l : loc) p self :
  input_keeps self (store l p self).
Proof.
  unfold input_keeps, preview_ok, refs_ok, over_inv, session_ended.
  game_simpl. rewrite length_insert. intuition lia.
Qed.

Lemma input_keeps_return_to_menu self :
  input_keeps self (return_to_menu self).
Proof.
  unfold input_keeps, preview_ok, refs_ok, over_inv, session_ended,
    return_to_menu.
  game_simpl. intuition (lia || discriminate).
Qed.

Lemma input_keeps_translate (dx dy : Z) (soft : bool) (l : loc)
    self self' :
  translate dx dy soft l self = Some self' -> input_keeps self self'.
Proof.
  unfold translate. intros Hrun.
  destruct (heap self !! l) as [p|]; [|done].
  cbn [mbind option_bind] in Hrun.
  destruct (move dx dy (grid self) p) as [p' moved].
  apply (input_keeps_trans _ (store l p' self));
    [apply input_keeps_store|].
  destruct moved; [|injection Hrun as <-; apply input_keeps_refl].
  match type of Hrun with
  | (if is_touching_ground _ _ then Some (store _ _ ?s) else _) = _ =>
      apply (input_keeps_trans _ s);
        [destruct soft; by apply input_keeps_fields|];
      destruct (is_touching_ground _ _); injection Hrun as <-;
        [apply input_keeps_store | apply input_keeps_refl]
  end.
Qed.

Lemma input_keeps_key_translate (dx dy : Z) (soft : bool) self self' :
  key_translate dx dy soft self = Some self' -> input_keeps self self'.
Proof.
  unfold key_translate. intros Hrun.
  destruct (current_piece self) as [l|];
    [|injection Hrun as <-; apply input_keeps_refl].
  destruct (negb (is_paused self) && negb (game_over self));
    [|injection Hrun as <-; apply input_keeps_refl].
  eapply input_keeps_translate, Hrun.
Qed.

Lemma input_keeps_key_rotate self self' :
  key_rotate self = Some self' -> input_keeps self self'.
Proof.
  unfold key_rotate. intros Hrun.
  destruct (current_piece self) as [l|]; [|done].
  cbn [mbind option_bind] in Hrun.
  destruct (heap self !! l) as [p|]; [|done].
  cbn [mbind option_bind] in Hrun.
  destruct (rotate (grid self) p) as [p' rotated].
  apply (input_keeps_trans _ (store l p' self));
    [apply input_keeps_store|].
  destruct rotated;
    [|injection Hrun as <-; by apply input_keeps_fields].
  destruct (negb _ || negb _);
    [|injection Hrun as <-; by apply input_keeps_fields].
  match type of Hrun with
  | (if is_touching_ground _ _ then Some (store _ _ ?s) else _) = _ =>
      apply (input_keeps_trans _ s); [by apply input_keeps_fields|];
      destruct (is_touching_ground _ _); injection Hrun as <-;
        [apply input_keeps_store | apply input_keeps_refl]
  end.
Qed.

Lemma input_keeps_key_hard_drop self self' :
  key_hard_drop self = Some self' -> input_keeps self self'.
Proof.
  unfold key_hard_drop. intros Hrun.
  destruct (current_piece self) as [l|]; [|done].
  cbn [mbind option_bind] in Hrun.
  destruct (heap self !! l) as [p|]; [|done].
  cbn [mbind option_bind] in Hrun.
  destruct (hard_drop (grid self) p) as [p' rows].
  injection Hrun as <-.
  apply (input_keeps_trans _ (store l p' self));
    [apply input_keeps_store | by apply input_keeps_fields].
Qed.

Lemma input_keeps_take_next_piece self :
  input_keeps self (take_next_piece self).
Proof.
  unfold input_keeps, preview_ok, refs_ok, over_inv, session_ended,
    take_next_piece.
  destruct (get_next_piece (piece_generator self) (grid self))
    as [piece generator].
  game_simpl. rewrite length_app. simpl.
  do 8 (split; [done|]). split; [lia|]. split; [done|].
  split; [|split; [done|split; [by left | done]]].
  intros (_ & Hheld & _). split; [|split].
  - intros l [= <-]. lia.
  - intros l Hl. apply Hheld in Hl. lia.
  - intros l [= <-] Hl. apply Hheld in Hl. lia.
Qed.

Lemma input_keeps_hold_piece self self' :
  hold_piece self = Some self' -> input_keeps self self'.
Proof.
  unfold hold_piece. intros Hrun.
  destruct (held_piece self) as [lh|] eqn:Hheld.
  - destruct (current self) as [cur|]; [|done].
    cbn [mbind option_bind] in Hrun.
    destruct (heap self !! lh) as [held|]; [|done].
    cbn [mbind option_bind] in Hrun. injection Hrun as <-.
    unfold input_keeps, preview_ok, refs_ok, over_inv, session_ended.
    game_simpl. rewrite !length_app, length_insert, length_app. simpl.
    do 8 (split; [done|]). split; [lia|]. split; [done|].
  split; [|split; [done|split; [by left | done]]].
    intros _. split; [|split].
    + intros l [= <-]. lia.
    + intros l [= <-]. lia.
    + intros l [= <-] [= E]. lia.
  - destruct (current self) as [cur|]; [|done].
    cbn [mbind option_bind] in Hrun. injection Hrun as <-.
    match goal with
    | |- input_keeps _ (take_next_piece ?s) =>
        apply (input_keeps_trans _ s);
          [|apply input_keeps_take_next_piece]
    end.
    unfold input_keeps, preview_ok, refs_ok, over_inv, session_ended.
    game_simpl. rewrite Hheld, length_app. simpl.
    do 8 (split; [done|]). split; [lia|]. split; [done|].
  split; [|split; [done|split; [by left | done]]].
    intros (Hcur & _ & _). split; [|split].
    + intros l Hl. apply Hcur in Hl. lia.
    + intros l [= <-]. lia.
    + intros l Hl [= E]. apply Hcur in Hl. lia.
Qed.

Lemma input_keeps_key_hold self self' :
  key_hold self = Some self' -> input_keeps self self'.
Proof.
  unfold key_hold. intros Hrun.
  destruct (can_hold self); [|injection Hrun as <-; apply input_keeps_refl].
  destruct (hold_piece self) as [s|] eqn:Hs; [|done].
  cbn [mbind option_bind] in Hrun. injection Hrun as <-.
  apply (input_keeps_trans _ s); [by apply input_keeps_hold_piece|].
  by apply input_keeps_fields.
Qed.

Lemma input_keeps_handle_game_event (t : Z) (event : Event) keys self
    keys' self' :
  handle_game_event t event keys self = Some (keys', self') ->
  input_keeps self self'.
Proof.
  unfold handle_game_event. intros Hrun.
  match type of Hrun with
  | (if is_paused ?s then _ else _) = _ => remember s as s0 eqn:Hs0
  end.
  assert (input_keeps self s0) as Hfirst.
  { subst s0. destruct event as [|[]|[]|]; try apply input_keeps_refl.
    - apply input_keeps_return_to_menu.
    - destruct (current_screen self) eqn:Hscr;
        try apply input_keeps_refl.
      unfold input_keeps, preview_ok, refs_ok, over_inv, session_ended.
      game_simpl. rewrite Hscr. intuition (lia || discriminate). }
  apply (input_keeps_trans _ s0); [exact Hfirst|].
  clear Hfirst Hs0 self. rename s0 into s.
  destruct (is_paused s).
  { injection Hrun as <- <-.
    destruct (back_button_fires event);
      [apply input_keeps_return_to_menu | apply input_keeps_refl]. }
  destruct event as [|[]|[]|];
    try (injection Hrun as <- <-; apply input_keeps_refl);
    match type of Hrun with
    | (?f ≫= _) = _ =>
        destruct f as [s'|] eqn:Hs'; [|done];
        cbn [mbind option_bind] in Hrun; injection Hrun as <- <-
    end.
  - by apply input_keeps_key_translate in Hs'.
  - by apply input_keeps_key_translate in Hs'.
  - by apply input_keeps_key_translate in Hs'.
  - by apply input_keeps_key_rotate in Hs'.
  - by apply input_keeps_key_hard_drop in Hs'.
  - by apply input_keeps_key_hold in Hs'.
Qed.

Lemma input_keeps_repeat_move (dx dy : Z) (soft pressed : bool)
    (press_time t : Z) (l : loc) keys self keys' self' :
  repeat_move dx dy soft pressed press_time t l keys self
  = Some (keys', self') ->
  input_keeps self self'.
Proof.
  unfold repeat_move. intros Hrun.
  destruct (pressed && _);
    [|injection Hrun as <- <-; apply input_keeps_refl].
  destruct (_ >=? REPEAT_DELAY);
    [|injection Hrun as <- <-; apply input_keeps_refl].
  destruct (translate dx dy soft l self) as [s|] eqn:Hs; [|done].
  cbn [mbind option_bind] in Hrun. injection Hrun as <- <-.
  by apply input_keeps_translate in Hs.
Qed.

Lemma input_keeps_continuous_movement (t : Z) keys self keys' self' :
  continuous_movement t keys self = Some (keys', self') ->
  input_keeps self self'.
Proof.
  unfold continuous_movement. intros Hrun.
  destruct (negb (is_paused self) && negb (game_over self));
    [|injection Hrun as <- <-; apply input_keeps_refl].
  destruct (current_piece self) as [l|];
    [|injection Hrun as <- <-; apply input_keeps_refl].
  destruct (repeat_move (-1) 0 false _ _ t l keys self)
    as [[k1 s1]|] eqn:H1; [|done].
  cbn [mbind option_bind] in Hrun.
  destruct (repeat_move 1 0 false _ _ t l k1 s1)
    as [[k2 s2]|] eqn:H2; [|done].
  cbn [mbind option_bind] in Hrun.
  apply input_keeps_repeat_move in H1, H2, Hrun.
  eauto using input_keeps_trans.
Qed.

Lemma input_keeps_process_events (t : Z) (events : list Event) keys self
    keys' self' :
  process_events t events keys self = Some (Running keys' self') ->
  input_keeps self self'.
Proof.
  revert keys self. induction events as [|event events IH];
    intros keys self Hrun.
  - injection Hrun as <- <-. apply input_keeps_refl.
  - assert (exists k1 s1,
              handle_game_event t event keys self = Some (k1, s1) /\
              process_events t events k1 s1 = Some (Running keys' self'))
      as (k1 & s1 & H1 & H2).
    { destruct event; try done; simpl in Hrun;
        match type of Hrun with
        | (?f ≫= _) = _ => destruct f as [[k1 s1]|]; [|done]
        end; eauto. }
    apply input_keeps_handle_game_event in H1. apply IH in H2.
    eauto using input_keeps_trans.
Qed.

Lemma input_keeps_handle_events_game (t : Z) (events : list Event) keys
    self keys' self' :
  handle_events_game t events keys self = Some (Running keys' self') ->
  input_keeps self self'.
Proof.
  unfold handle_events_game. intros Hrun.
  destruct (process_events t events keys self) as [[|k1 s1]|] eqn:H1;
    try done.
  cbn [mbind option_bind] in Hrun.
  destruct (continuous_movement t k1 s1) as [[k2 s2]|] eqn:H2; [|done].
  cbn [mbind option_bind] in Hrun. injection Hrun as <- <-.
  apply input_keeps_process_events in H1.
  apply input_keeps_continuous_movement in H2.
  eauto using input_keeps_trans.
Qed.

(** *** The playfield changes by locking only *)

(** X1: a frame leaves the grid and the score as they are unless it locks
    the current piece; in that case the line scan has run on the old grid
    with the piece, as the frame left it, locked into it, and the new grid
    is that grid when the scan has found no full row and [clear_lines] of it
    when it has found one; the current piece is a newly allocated object. *)
Theorem update_changes_grid_by_locking (fuel : nat) (t : Z) self self' :
  update fuel t self = Some self' ->
  (grid self' = grid self /\ score self' = score self) \/
  (exists (l : loc) p (rows : list Z),
     current_piece self = Some l /\ heap self' !! l = Some p /\
     is_locked p = true /\
     find_lines_to_clear (lock_piece (grid self) p) = Some rows /\
     grid self' =
       (if decide (rows = []) then lock_piece (grid self) p
        else clear_lines (lock_piece (grid self) p)) /\
     current_piece self' ≠ Some l).
Proof.
  intros Hrun.
  destruct (update_inv fuel t self self' Hrun)
    as [->|[(_ & [->| ->])|[(_ & ct & _ & [->| ->])
       |[(_ & st & _ & [->| ->])|(_ & _ & _ & _ & [[_ ->]|Hpiece])]]]];
    try (left; game_simpl; done);
    try (left;
         match goal with
         | |- context [take_next_piece ?s] =>
             destruct (take_next_piece_fields s)
               as (_ & _ & _ & Hg & Hsc & _)
         end; game_simpl; by rewrite Hg, Hsc).
  - left.
    match goal with
    | |- context [end_of_frame ?s] =>
        destruct (end_of_frame_same_core s) as (_ & _ & _ & Hg & Hsc & _)
    end.
    by rewrite Hg, Hsc.
  - destruct Hpiece as (l & s1 & Hl & Hs1 & ->).
    destruct (end_of_frame_same_core s1) as (Hh & Hc & _ & Hg & Hsc & _).
    rewrite Hg, Hsc, Hh, Hc. clear Hg Hsc Hh Hc.
    apply update_current_piece_inv in Hs1
      as (p & p1 & s2 & Hp & Hai & Hcases).
    apply ai_block_same_core in Hai
      as (Hh2 & Hc2 & _ & Hg2 & Hsc2 & _).
    pose proof (apply_gravity_same_core p1 s2)
      as (Hh3 & Hc3 & _ & Hg3 & Hsc3 & _).
    game_simpl.
    destruct Hcases as [[_ ->]|[Hlocked Hlock]].
    + left. game_simpl. by rewrite Hg3, Hsc3, Hg2, Hsc2.
    + right.
      assert (grid (snd (apply_gravity p1 s2)) = grid self) as Eg
        by (by rewrite Hg3, Hg2).
      rewrite Eg in Hlock, Hlocked.
      apply lock_and_advance_inv in Hlock
        as (ts & q & rows & _ & Hq & Hrows & Hspawn).
      unfold current in Hq. game_simpl. rewrite Hc3, Hc2, Hl in Hq.
      cbn [mbind option_bind] in Hq.
      assert (l < length (heap (snd (apply_gravity p1 s2))))%nat as Hlt.
      { apply lookup_lt_Some in Hq. by rewrite length_insert in Hq. }
      rewrite list_lookup_insert_eq in Hq by done. injection Hq as <-.
      match type of Hspawn with
      | spawn_after_lock (score_and_reset ?a ?b ?s) = _ =>
          destruct (score_and_reset_frame a b s)
            as (Fh & _ & _ & Fg & _ & _);
          destruct (spawn_after_lock_spec (score_and_reset a b s))
            as (s' & Hs' & _ & Sg & _ & _ & Sh & Sc & _)
      end.
      rewrite Hs' in Hspawn. injection Hspawn as <-.
      game_simpl. rewrite ?Eg in Hrows, Fh, Fg, Sh, Sg, Sc.
      exists l, (handle_lock_delay (t - last_update_time self) (grid self)
                   (fst (apply_gravity p1 s2))), rows.
      split; [done|]. rewrite Sh, Sg, Sc, Fh, Fg.
      split; [|split; [done|split; [exact Hrows|split]]].
      * destruct (decide (rows = [])); game_simpl;
          rewrite lookup_app_l by (by rewrite length_insert);
          by rewrite list_lookup_insert_eq.
      * destruct (decide (rows = [])); game_simpl; by rewrite ?Eg.
      * intros [= E]. destruct (decide (rows = [])); game_simpl;
          rewrite length_insert in E; lia.
Qed.

(** *** Invariants of a session *)

Lemma reachable_invariants self :
  reachable self ->
  refs_ok self /\ preview_ok self /\ over_inv self /\ countdown_ok self /\
  (MIN_DROP_SPEED <= INITIAL_DROP_SPEED ->
   MIN_DROP_SPEED <= drop_speed self) /\
  (grid_laws -> grid_wf (grid self) = true).
Proof.
  induction 1 as [t self|fuel t self self' _ IH Hrun
                 |t events keys keys' self self' _ IH Hscr Hrun
                 |self _ IH|self _ IH Hscr].
  - unfold refs_ok, preview_ok, over_inv, countdown_ok, start_new_game.
    game_simpl. repeat split; try done. by intros (? & _).
  - destruct IH as (Hr & Hp & Ho & Hc & Hs & Hg).
    destruct (frame_keeps_update fuel t self self' Hrun)
      as (_ & _ & _ & _ & _ & Ks & Kp & Kr & Kc & Kg).
    pose proof (update_over_inv fuel t self self' Ho Hrun).
    tauto.
  - destruct IH as (Hr & Hp & Ho & Hc & Hs & Hg).
    destruct (input_keeps_handle_events_game _ _ _ _ _ _ Hrun)
      as (Eg & _ & Es & _ & _ & _ & _ & _ & _ & Kp & Kr & Ko & Kscr & _).
    rewrite Eg, Es.
    assert (countdown_ok self') as Hc'
      by (unfold countdown_ok; destruct Kscr as [-> | ->];
          by rewrite ?Hscr).
    tauto.
  - destruct IH as (Hr & Hp & Ho & Hc & Hs & Hg).
    destruct (input_keeps_return_to_menu self)
      as (Eg & _ & Es & _ & _ & _ & _ & _ & _ & Kp & Kr & Ko & _).
    rewrite Eg, Es.
    assert (countdown_ok (return_to_menu self)) as Hc'
      by (unfold countdown_ok, return_to_menu; game_simpl; done).
    tauto.
  - destruct IH as (Hr & Hp & Ho & Hc & Hs & Hg).
    unfold refs_ok, preview_ok, over_inv, session_ended, countdown_ok in *.
    game_simpl. intuition (auto || discriminate).
Qed.

(** X2: in every state a session goes through, the current piece and the
    held piece are references to allocated objects, and they are never the
    same object: no write to the current piece can reach the held piece. *)
Theorem reachable_refs_ok self : reachable self -> refs_ok self.
Proof. intros Hreach. apply (reachable_invariants self Hreach). Qed.

(** X3: in every state a session goes through, the preview [next_pieces] is
    the preview of the generator as it is: every operation that draws a
    piece refreshes it. *)
Theorem reachable_preview_ok self : reachable self -> preview_ok self.
Proof. intros Hreach. apply (reachable_invariants self Hreach). Qed.

(** X4: in every state a session goes through, [game_over] is true only on
    the name-entry and high-score screens; on the game screen it is never
    true, so the test of line 287 only ever fires for the pause. *)
Theorem reachable_game_over_screen self :
  reachable self -> game_over self = true ->
  current_screen self = ScreenEnterName
  \/ current_screen self = ScreenHighScores.
Proof.
  intros Hreach Hover.
  destruct (reachable_invariants self Hreach) as (_ & _ & Ho & _).
  by destruct (Ho Hover).
Qed.

(** X5: provided [MIN_DROP_SPEED <= INITIAL_DROP_SPEED], the drop speed is
    never below [MIN_DROP_SPEED] in any state a session goes through. *)
Theorem reachable_drop_speed_floor self :
  MIN_DROP_SPEED <= INITIAL_DROP_SPEED -> reachable self ->
  MIN_DROP_SPEED <= drop_speed self.
Proof.
  intros Hmin Hreach.
  by apply (reachable_invariants self Hreach).
Qed.

(** *** [update] does not raise *)

Lemma lock_and_advance_total (was : bool) self p :
  grid_laws -> current self = Some p -> grid_wf (grid self) = true ->
  is_Some (lock_and_advance was self).
Proof.
  intros (_ & Hlock & _) Hcur Hwf.
  destruct (t_spin_type_total was self p Hcur Hwf) as [ts Hts].
  destruct (find_lines_to_clear_wf (lock_piece (grid self) p))
    as (rows & Hrows & _); [by apply Hlock|].
  rewrite (lock_and_advance_unfold was self p ts rows Hcur Hts Hrows).
  match goal with
  | |- is_Some (spawn_after_lock ?s) =>
      destruct (spawn_after_lock_spec s) as (s' & -> & _)
  end.
  done.
Qed.

Lemma update_current_piece_total (fuel : nat) (t dt : Z) (l : loc) self :
  grid_laws -> mode self ≠ "AI"%string -> current_piece self = Some l ->
  (l < length (heap self))%nat -> grid_wf (grid self) = true ->
  is_Some (update_current_piece fuel t dt l self).
Proof.
  intros Hlaws Hmode Hl Hlt Hwf.
  destruct (lookup_lt_is_Some_2 (heap self) l Hlt) as [p Hp].
  rewrite (update_current_piece_classic fuel t dt l self p Hmode Hp).
  cbn zeta.
  pose proof (apply_gravity_same_core (update_position (grid self) p) self)
    as (Hh & Hc & _ & Hg & _).
  destruct (is_locked _) eqn:Hlocked; [|done].
  eapply lock_and_advance_total; [done| |].
  - unfold current. game_simpl. rewrite Hc, Hl.
    cbn [mbind option_bind].
    apply list_lookup_insert_eq. by rewrite Hh.
  - game_simpl. by rewrite Hg.
Qed.

(** X6: outside the AI mode, in every state a session goes through, a call
    of [update] returns, whatever the clock reads and without any fuel: no
    access outside the grid, no use of a missing piece or timer.  The grid
    class is assumed to build a well-formed grid and to keep it well-formed
    when it locks a piece and clears lines. *)
Theorem update_never_raises (fuel : nat) (t : Z) self :
  grid_laws -> reachable self -> mode self ≠ "AI"%string ->
  is_Some (update fuel t self).
Proof.
  intros Hlaws Hreach Hmode.
  destruct (reachable_invariants self Hreach)
    as ((Hcur & _) & _ & _ & Hcd & _ & Hwf).
  unfold update.
  destruct (current_screen self) eqn:Hscr; try done.
  - by destruct (negb _).
  - destruct (countdown_timer self) as [ct|] eqn:Hct;
      [|by destruct (Hcd Hscr)].
    cbn [mbind option_bind]. by destruct (timer_expired _).
  - unfold update_game.
    destruct (start_timer self) as [st|];
      [by destruct (timer_expired _)|].
    destruct (game_over self || is_paused self); [done|].
    game_simpl.
    destruct (current_piece self) as [l|] eqn:Hl; [|done].
    match goal with
    | |- context [update_current_piece ?f ?a ?d ?l ?s] =>
        destruct (update_current_piece_total f a d l s) as [s1 ->];
          try done; game_simpl; auto
    end.
Qed.

(** *** Drop speed, level-up effect, pause *)

(** X7: the drop speed [update_drop_speed] sets is never below
    [MIN_DROP_SPEED]; with a non-negative [SPEED_INCREMENT] it does not
    exceed [INITIAL_DROP_SPEED] from level 1 on (when
    [MIN_DROP_SPEED <= INITIAL_DROP_SPEED]), it does not grow with the
    level, and it is [MIN_DROP_SPEED] once the level term has reached it. *)
Theorem update_drop_speed_bounds self :
  MIN_DROP_SPEED <= drop_speed (update_drop_speed self) /\
  (0 <= SPEED_INCREMENT -> 1 <= level (score self) ->
   MIN_DROP_SPEED <= INITIAL_DROP_SPEED ->
   drop_speed (update_drop_speed self) <= INITIAL_DROP_SPEED) /\
  (forall other : Game,
     0 <= SPEED_INCREMENT -> level (score self) <= level (score other) ->
     drop_speed (update_drop_speed other)
     <= drop_speed (update_drop_speed self)) /\
  (INITIAL_DROP_SPEED - (level (score self) - 1) * SPEED_INCREMENT
   <= MIN_DROP_SPEED ->
   drop_speed (update_drop_speed self) = MIN_DROP_SPEED).
Proof.
  unfold update_drop_speed. game_simpl. repeat split.
  - apply Z.le_max_l.
  - intros Hinc Hlevel Hmin. apply Z.max_lub; [done|]. nia.
  - intros other Hinc Hlevel.
    apply Z.max_le_compat_l. nia.
  - intros Hfloor. by apply Z.max_l.
Qed.

(** X8: neither a frame of [update] nor the input handling ever starts the
    level-up effect: off before, it is off after.  Only [Game.update_level]
    starts it, when the level rises, and [update] calls
    [score.update_level] instead. *)
Theorem level_up_effect_never_started :
  (forall (fuel : nat) (t : Z) self self',
     level_up_effect self = None -> update fuel t self = Some self' ->
     level_up_effect self' = None) /\
  (forall (t : Z) (events : list Event) keys self keys' self',
     handle_events_game t events keys self = Some (Running keys' self') ->
     level_up_effect self' = level_up_effect self) /\
  (forall (duration : Timer) self,
     level (score self) < level (update_level (score self)) ->
     level_up_effect (Game_update_level duration self) = Some duration).
Proof.
  split; [|split].
  - intros fuel t self self' Hoff Hrun.
    by apply (frame_keeps_update fuel t self self' Hrun).
  - intros t events keys self keys' self' Hrun.
    by apply (input_keeps_handle_events_game _ _ _ _ _ _ Hrun).
  - intros duration self Hup. unfold Game_update_level. game_simpl.
    by destruct (Z.gtb_spec (level (update_level (score self)))
                   (level (score self))); [|lia].
Qed.

(** X9: while the game is paused, frames change nothing, not even
    [last_update_time]: the first frame after the pause takes the whole
    pause for its elapsed time. *)
Theorem paused_frames_identity (fuel : nat) (times : list Z) self :
  is_paused self = true -> current_screen self = ScreenGame ->
  start_timer self = None ->
  run_updates fuel times self = Some self.
Proof.
  intros Hpaused Hscreen Htimer.
  assert (forall t, update fuel t self = Some self) as Hupdate.
  { intros t. unfold update, update_game.
    rewrite Hscreen, Htimer, Hpaused. by rewrite orb_true_r. }
  induction times as [|t times IH]; [done|].
  simpl. by rewrite Hupdate.
Qed.

(** X10: the input handling of the game screen never changes the grid, the
    score, the drop speed, the drop timer, the drop height or the clock of
    the frames, whatever the events. *)
Theorem handle_events_game_keeps (t : Z) (events : list Event) keys self
    keys' self' :
  handle_events_game t events keys self = Some (Running keys' self') ->
  grid self' = grid self /\ score self' = score self /\
  drop_speed self' = drop_speed self /\ drop_timer self' = drop_timer self /\
  drop_height self' = drop_height self /\
  last_update_time self' = last_update_time self.
Proof.
  intros Hrun.
  destruct (input_keeps_handle_events_game _ _ _ _ _ _ Hrun)
    as (? & ? & ? & ? & ? & ? & _).
  by repeat split.
Qed.

(** *** Hold and lock *)

(** X11: the hold key works once per piece: after a hold [can_hold] is
    false and a further press of the key changes nothing. *)
Theorem key_hold_once self self' :
  can_hold self = true -> key_hold self = Some self' ->
  can_hold self' = false /\ key_hold self' = Some self'.
Proof.
  unfold key_hold. intros Hcan Hrun. rewrite Hcan in Hrun.
  destruct (hold_piece self) as [s|]; [|done].
  cbn [mbind option_bind] in Hrun. injection Hrun as <-.
  by game_simpl.
Qed.

(** X12: [hold_piece] does not reset what belongs to the piece it replaces:
    the drop height, the soft-drop and hard-drop counts, the drop timer and
    the flag of the last rotation pass to the new current piece. *)
Theorem hold_piece_keeps_counters self self' :
  hold_piece self = Some self' ->
  drop_height self' = drop_height self /\
  soft_drop_count self' = soft_drop_count self /\
  hard_drop_count self' = hard_drop_count self /\
  drop_timer self' = drop_timer self /\
  last_move_was_rotation self' = last_move_was_rotation self.
Proof.
  unfold hold_piece. intros Hrun.
  destruct (held_piece self) as [lh|].
  - destruct (current self) as [cur|]; [|done].
    cbn [mbind option_bind] in Hrun.
    destruct (heap self !! lh) as [held|]; [|done].
    cbn [mbind option_bind] in Hrun. injection Hrun as <-.
    by game_simpl.
  - destruct (current self) as [cur|]; [|done].
    cbn [mbind option_bind] in Hrun. injection Hrun as <-.
    unfold take_next_piece. game_simpl.
    by destruct (get_next_piece (piece_generator self) (grid self)).
Qed.

(** X13: whenever the lock step returns, the drop height, the soft-drop and
    hard-drop counts are 0, the rotation flags are off, hold is available
    again, the current piece is a newly allocated object and the held piece
    is the one it was. *)
Theorem lock_step_resets (was : bool) self self' :
  lock_and_advance was self = Some self' ->
  drop_height self' = 0 /\ soft_drop_count self' = 0 /\
  hard_drop_count self' = 0 /\ last_move_was_rotation self' = false /\
  last_rotation self' = false /\ can_hold self' = true /\
  current_piece self' = Some (length (heap self)) /\
  held_piece self' = held_piece self.
Proof.
  intros Hrun.
  destruct (lock_and_advance_frame was self self' Hrun) as (_ & Hheld & _).
  apply lock_and_advance_inv in Hrun as (ts & p & rows & _ & _ & _ & Hrun).
  match type of Hrun with
  | spawn_after_lock ?s = _ =>
      assert (drop_height s = 0 /\ soft_drop_count s = 0 /\
              hard_drop_count s = 0 /\ last_move_was_rotation s = false /\
              last_rotation s = false /\ heap s = heap self)
        as (H1 & H2 & H3 & H4 & H5 & H6);
        [|remember s as s0 eqn:Hs0; clear Hs0]
  end.
  { unfold score_and_reset, update_drop_speed.
    destruct (Score_update _ _ _ _ _ _ _) as [[turn_score notes] new_score].
    destruct (decide (rows = [])); destruct (Z.of_nat (length rows) >? 0);
      game_simpl;
      match goal with
      | |- context [is_board_clear ?g] => destruct (is_board_clear g)
      end; by game_simpl. }
  unfold spawn_after_lock, take_next_piece, check_high_score in Hrun.
  destruct (get_next_piece (piece_generator s0) (grid s0))
    as [piece generator].
  game_simpl.
  destruct (current _) as [q|]; [|done].
  cbn [mbind option_bind] in Hrun.
  destruct (is_collision (grid s0) q);
    [destruct (is_high_score (points (score s0)))|];
    injection Hrun as <-; game_simpl; by rewrite H6.
Qed.

(** *** Keys *)

Lemma store_same (l : loc) p self :
  heap self !! l = Some p -> store l p self = self.
Proof.
  intros Hp. unfold store, set_heap. rewrite list_insert_id by done.
  by destruct self.
Qed.

(** X14: an arrow key whose move is refused (the piece is returned as it
    was) changes nothing at all, so it keeps the flag of the last rotation;
    a move that succeeds clears the flag, counts one soft drop when it is
    downward, and restarts the lock delay when the piece then touches the
    ground. *)
Theorem key_translate_effect (dx dy : Z) (soft : bool) (l : loc) self p :
  current_piece self = Some l -> heap self !! l = Some p ->
  is_paused self = false -> game_over self = false ->
  (move dx dy (grid self) p = (p, false) ->
   key_translate dx dy soft self = Some self) /\
  (forall p', move dx dy (grid self) p = (p', true) ->
     exists self',
       key_translate dx dy soft self = Some self' /\
       last_move_was_rotation self' = false /\
       soft_drop_count self' =
         soft_drop_count self + (if soft then 1 else 0) /\
       heap self' !! l =
         Some (if is_touching_ground (grid self) p'
               then reset_lock_delay p' else p')).
Proof.
  intros Hl Hp Hpaused Hover.
  assert (l < length (heap self))%nat as Hlt by (by eapply lookup_lt_Some).
  unfold key_translate, translate. rewrite Hl, Hpaused, Hover, Hp.
  cbn [negb andb mbind option_bind]. split.
  - intros ->. by rewrite (store_same l p self Hp).
  - intros p' ->. destruct soft; game_simpl;
      destruct (is_touching_ground (grid self) p'); eexists;
      (split; [done|]); game_simpl;
      rewrite ?list_lookup_insert_eq; rewrite ?length_insert;
      repeat split; try done; lia.
Qed.

Ltac after_repeat E :=
  cbn [mbind option_bind last_movement_time set_last_movement_time
       left_pressed left_press_time right_pressed right_press_time
       down_pressed down_press_time];
  rewrite ?Z.sub_diag, ?E;
  change (0 >=? REPEAT_DELAY) with false;
  cbn [mbind option_bind].

(** X15: the key repeat makes at most one move per call, the first of left,
    right and down whose key has been held for [INITIAL_DELAY]: it needs
    [REPEAT_DELAY] since the last repeated move, and it records the time, so
    that the keys after it in the order find the delay not yet over. *)
Theorem continuous_movement_one_move (t : Z) keys self keys' self' :
  continuous_movement t keys self = Some (keys', self') ->
  (keys' = keys /\ self' = self) \/
  (exists l : loc,
     current_piece self = Some l /\
     REPEAT_DELAY <= t - last_movement_time keys /\
     keys' = set_last_movement_time t keys /\
     let held pressed press_time :=
       pressed && (t - press_time >=? INITIAL_DELAY) in
     if held (left_pressed keys) (left_press_time keys)
     then translate (-1) 0 false l self = Some self'
     else if held (right_pressed keys) (right_press_time keys)
          then translate 1 0 false l self = Some self'
          else held (down_pressed keys) (down_press_time keys) = true /\
               translate 0 1 true l self = Some self').
Proof.
  unfold continuous_movement, repeat_move.
  destruct (negb (is_paused self) && negb (game_over self));
    [|intros [= <- <-]; by left].
  destruct (current_piece self) as [l|]; [|intros [= <- <-]; by left].
  cbn zeta.
  destruct (t - last_movement_time keys >=? REPEAT_DELAY) eqn:Edelay.
  - assert (REPEAT_DELAY <= t - last_movement_time keys) as Hdelay
      by (by apply Z.geb_le).
    destruct (left_pressed keys && _) eqn:Hleft.
    + destruct (translate (-1) 0 false l self) as [s1|] eqn:Hs1;
        [|after_repeat Edelay; done].
      after_repeat Edelay.
      destruct (right_pressed keys && _); after_repeat Edelay;
        destruct (down_pressed keys && _); after_repeat Edelay;
        intros [= <- <-]; right; exists l; by repeat split.
    + after_repeat Edelay.
      destruct (right_pressed keys && _) eqn:Hright.
      * destruct (translate 1 0 false l self) as [s1|] eqn:Hs1;
          [|after_repeat Edelay; done].
        after_repeat Edelay.
        destruct (down_pressed keys && _); after_repeat Edelay;
          intros [= <- <-]; right; exists l; by repeat split.
      * after_repeat Edelay.
        destruct (down_pressed keys && _) eqn:Hdown.
        -- destruct (translate 0 1 true l self) as [s1|] eqn:Hs1;
             [|after_repeat Edelay; done].
           after_repeat Edelay.
           intros [= <- <-]. right. exists l. by repeat split.
        -- intros [= <- <-]. by left.
  - destruct (left_pressed keys && _); after_repeat Edelay;
      destruct (right_pressed keys && _); after_repeat Edelay;
      destruct (down_pressed keys && _); after_repeat Edelay;
      intros [= <- <-]; by left.
Qed.

Lemma key_translate_flags (dx dy : Z) (soft : bool) self self' :
  key_translate dx dy soft self = Some self' ->
  is_paused self' = is_paused self /\
  current_screen self' = current_screen self.
Proof.
  unfold key_translate, translate. intros Hrun.
  destruct (current_piece self) as [l|]; [|by injection Hrun as <-].
  destruct (negb (is_paused self) && negb (game_over self));
    [|by injection Hrun as <-].
  destruct (heap self !! l) as [p|]; [|done].
  cbn [mbind option_bind] in Hrun.
  destruct (move dx dy (grid self) p) as [p' moved].
  destruct moved; [|by injection Hrun as <-].
  destruct soft; game_simpl;
    destruct (is_touching_ground (grid self) p'); by injection Hrun as <-.
Qed.

(** X16: a key released while the game is paused is not seen: with a back
    button that ignores the keyboard, pressing left, pausing, releasing
    left and resuming leaves [left_pressed] set, so the key repeat goes on
    moving the piece; without the pause the release clears it. *)
Theorem pause_drops_key_release (t : Z) keys self :
  (forall key, back_button_fires (KEYDOWN key) = false) ->
  (forall key, back_button_fires (KEYUP key) = false) ->
  current_screen self = ScreenGame -> is_paused self = false ->
  (forall keys' self',
     process_events t [KEYDOWN K_LEFT; KEYUP K_LEFT] keys self
     = Some (Running keys' self') ->
     left_pressed keys' = false) /\
  (forall keys' self',
     process_events t
       [KEYDOWN K_LEFT; KEYDOWN K_p; KEYUP K_LEFT; KEYDOWN K_p] keys self
     = Some (Running keys' self') ->
     left_pressed keys' = true /\ is_paused self' = false).
Proof.
  intros Hdown Hup Hscreen Hpaused.
  assert (forall k s, current_screen s = ScreenGame ->
            handle_game_event t (KEYDOWN K_p) k s
            = Some (k, set_is_paused (negb (is_paused s)) s)) as Hpause.
  { intros k s Hs. unfold handle_game_event. rewrite Hs. game_simpl.
    destruct (is_paused s); cbn [negb]; [done|]. by rewrite Hdown. }
  assert (forall key k s, is_paused s = true ->
            handle_game_event t (KEYUP key) k s = Some (k, s)) as Hlost.
  { intros key k s Hs. unfold handle_game_event. by rewrite Hs, Hup. }
  assert (forall k s, is_paused s = false ->
            handle_game_event t (KEYUP K_LEFT) k s
            = Some (release_left k, s)) as Hrelease.
  { intros k s Hs. unfold handle_game_event. by rewrite Hs. }
  assert (handle_game_event t (KEYDOWN K_LEFT) keys self
          = (s ← key_translate (-1) 0 false self;
             Some (press_left t keys, s))) as Hpress.
  { unfold handle_game_event. by rewrite Hpaused. }
  split; intros keys' self'; cbn [process_events]; rewrite Hpress;
    (destruct (key_translate (-1) 0 false self) as [s1|] eqn:Hs1;
     [|done]);
    apply key_translate_flags in Hs1 as [Hp1 Hscr1];
    rewrite Hpaused in Hp1; rewrite Hscreen in Hscr1;
    cbn [mbind option_bind].
  - rewrite Hrelease by done. cbn [mbind option_bind].
    by intros [= <- <-].
  - rewrite Hpause by done. cbn [mbind option_bind].
    rewrite Hlost by (by rewrite Hp1). cbn [mbind option_bind].
    rewrite Hpause by done. cbn [mbind option_bind].
    intros [= <- <-]. game_simpl. by rewrite Hp1.
Qed.

(** X17: the events of a call are handled in order and one after the other:
    handling two batches in a row is handling their concatenation, and
    nothing after a [QUIT] is handled. *)
Theorem process_events_app (t : Z) (events rest : list Event) keys self :
  process_events t (events ++ rest) keys self =
  (r ← process_events t events keys self;
   match r with
   | Exited => Some Exited
   | Running keys' self' => process_events t rest keys' self'
   end) /\
  (forall keys' self',
     process_events t events keys self = Some (Running keys' self') ->
     process_events t (events ++ QUIT :: rest) keys self = Some Exited).
Proof.
  assert (forall keys self,
            process_events t (events ++ rest) keys self =
            (r ← process_events t events keys self;
             match r with
             | Exited => Some Exited
             | Running keys' self' => process_events t rest keys' self'
             end)) as Happ.
  { clear. intros keys self. revert rest keys self.
    induction events as [|event events IH]; intros rest keys self; [done|].
    destruct event; try done; simpl;
      (destruct (handle_game_event t _ keys self) as [[k1 s1]|];
       [|done]); cbn [mbind option_bind]; apply IH. }
  split; [apply Happ|].
  intros keys' self' Hrun. clear Happ.
  revert keys self Hrun.
  induction events as [|event events IH]; intros keys self Hrun.
  - by injection Hrun as <- <-.
  - destruct event; try done; simpl in *;
      (destruct (handle_game_event t _ keys self) as [[k1 s1]|];
       [|done]); cbn [mbind option_bind] in *; by apply IH.
Qed.

(** X18: with a constructor that records the shape name and a position
    reset that keeps it, holding twice in a row (hold made available again
    in between) gives back the two shapes: the current piece is a piece of
    the original shape, newly built and at its reset position, the held
    piece a newly built piece of the shape held before; the generator is
    not consulted. *)
Theorem hold_twice_restores_shapes self cur (lh : loc) held :
  (forall name g, shape_name (Tetromino_init name g) = name) ->
  (forall g p, shape_name (reset_position g p) = shape_name p) ->
  held_piece self = Some lh -> heap self !! lh = Some held ->
  current self = Some cur ->
  exists (s1 s2 : Game) (lh2 : loc),
    hold_piece self = Some s1 /\ hold_piece s1 = Some s2 /\
    current s2 =
      Some (reset_position (grid self)
              (Tetromino_init (shape_name cur) (grid self))) /\
    held_piece s2 = Some lh2 /\
    heap s2 !! lh2 = Some (Tetromino_init (shape_name held) (grid self)) /\
    piece_generator s2 = piece_generator self.
Proof.
  intros Hinit Hreset Hheld Hlh Hcur.
  destruct (hold_piece_swap self cur lh held Hheld Hcur Hlh)
    as (s1 & Hs1 & Hh1 & Hc1 & Hd1 & Hg1 & _ & _ & _ & Hpg1).
  assert (current s1 =
            Some (reset_position (grid self)
                    (Tetromino_init (shape_name held) (grid self))))
    as Hcur1.
  { unfold current. rewrite Hc1, Hh1. cbn [mbind option_bind].
    rewrite lookup_app_l by (rewrite length_app; simpl; lia).
    rewrite lookup_app_r by lia. by rewrite Nat.sub_diag. }
  assert (heap s1 !! S (length (heap self)) =
            Some (Tetromino_init (shape_name cur) (grid self))) as Hlh1.
  { rewrite Hh1. rewrite lookup_app_r; rewrite length_app; simpl; [|lia].
    by replace (S (length (heap self)) - (length (heap self) + 1))%nat
      with 0%nat by lia. }
  destruct (hold_piece_swap s1 _ _ _ Hd1 Hcur1 Hlh1)
    as (s2 & Hs2 & Hh2 & Hc2 & Hd2 & Hg2 & _ & _ & _ & Hpg2).
  rewrite Hg1, Hinit, Hreset, Hinit in Hh2.
  exists s1, s2, (S (length (heap s1))).
  split; [done|]. split; [done|]. split; [|split; [done|split]].
  - unfold current. rewrite Hc2, Hh2. cbn [mbind option_bind].
    rewrite lookup_app_l by (rewrite length_app; simpl; lia).
    rewrite lookup_app_r by lia. by rewrite Nat.sub_diag.
  - rewrite Hh2. rewrite lookup_app_r; rewrite length_app; simpl; [|lia].
    by replace (S (length (heap s1)) - (length (heap s1) + 1))%nat
      with 0%nat by lia.
  - congruence.
Qed.

(** *** Lock delay over several frames *)

Lemma lock_delay_frames_from g p (deltas : list Z) (q : Tetromino) :
  (forall r, shape_name r = shape_name p -> x r = x p -> y r = y p ->
     rotation_state r = rotation_state p -> is_touching_ground g r = true) ->
  Forall (fun delta => 0 <= delta) deltas ->
  shape_name q = shape_name p -> x q = x p -> y q = y p ->
  rotation_state q = rotation_state p ->
  lock_delay_active q = true -> lock_moves_count q < MAX_LOCK_MOVES ->
  is_locked q = bool_decide (LOCK_DELAY <= lock_delay_timer q) ->
  let q' := lock_delay_frames g deltas q in
  lock_delay_timer q' = lock_delay_timer q + foldr Z.add 0 deltas /\
  is_locked q' =
    bool_decide (LOCK_DELAY <= lock_delay_timer q + foldr Z.add 0 deltas).
Proof.
  intros Htouch Hpos. revert q.
  induction Hpos as [|delta deltas Hdelta _ IH];
    intros q Hs Hx Hy Hr Hactive Hcount Hlocked.
  - simpl. rewrite Z.add_0_r. done.
  - cbn zeta. cbn [foldr].
    change (lock_delay_frames g (delta :: deltas) q)
      with (lock_delay_frames g deltas (handle_lock_delay delta g q)).
    set (q1 := handle_lock_delay delta g q).
    assert (shape_name q1 = shape_name p /\ x q1 = x p /\ y q1 = y p /\
            rotation_state q1 = rotation_state p /\
            lock_delay_active q1 = true /\
            lock_moves_count q1 = lock_moves_count q /\
            lock_delay_timer q1 = lock_delay_timer q + delta /\
            is_locked q1 = bool_decide (LOCK_DELAY <= lock_delay_timer q1))
      as (Hs1 & Hx1 & Hy1 & Hr1 & Ha1 & Hc1 & Ht1 & Hl1).
    { assert ((lock_moves_count q >=? MAX_LOCK_MOVES) = false) as Hno
        by (destruct (Z.geb_spec (lock_moves_count q) MAX_LOCK_MOVES);
            [lia | done]).
      subst q1. unfold handle_lock_delay. rewrite Hactive.
      cbn [lock_moves_count lock_delay_timer set_lock_delay_timer].
      rewrite Hno, orb_false_r.
      destruct (Z.geb_spec (lock_delay_timer q + delta) LOCK_DELAY).
      - rewrite Htouch by done. simpl. repeat split; try done.
        symmetry. apply bool_decide_eq_true. lia.
      - simpl. repeat split; try done. rewrite Hlocked.
        apply bool_decide_ext. lia. }
    destruct (IH q1) as [Htimer Hlock]; try done; [lia|].
    cbn zeta in Htimer, Hlock.
    rewrite Htimer, Hlock, Ht1. split; [lia|].
    apply bool_decide_ext. lia.
Qed.

(** X19: a piece that rests on the ground (whatever its lock timer says, it
    touches the ground where it is), whose lock delay is active and whose
    move count is below [MAX_LOCK_MOVES], goes through frames of lock delay
    with its timer adding up the elapsed times, and is locked exactly from
    the frame on in which the timer reaches [LOCK_DELAY]. *)
Theorem lock_delay_locks_on_time g p (deltas : list Z) :
  lock_delay_active p = true -> is_locked p = false ->
  lock_delay_timer p < LOCK_DELAY -> lock_moves_count p < MAX_LOCK_MOVES ->
  Forall (fun delta => 0 <= delta) deltas ->
  (forall r, shape_name r = shape_name p -> x r = x p -> y r = y p ->
     rotation_state r = rotation_state p -> is_touching_ground g r = true) ->
  let p' := lock_delay_frames g deltas p in
  lock_delay_timer p' = lock_delay_timer p + foldr Z.add 0 deltas /\
  is_locked p' =
    bool_decide (LOCK_DELAY <= lock_delay_timer p + foldr Z.add 0 deltas).
Proof.
  intros Hactive Hlocked Htimer Hcount Hpos Htouch.
  apply (lock_delay_frames_from g p); try done.
  rewrite Hlocked. symmetry. apply bool_decide_eq_false. lia.
Qed.

(** *** The loops of the AI mode *)

(** X20: when a horizontal move that succeeds shifts the piece by one column
    and a move that fails leaves the piece as it was, the two horizontal
    loops of the AI block end within as many moves as there are columns
    between the piece and the target, and leave the piece between where it
    was and the target. *)
Theorem ai_moves_terminate g (target : Z) p (fuel : nat) :
  (forall dx q q', move dx 0 g q = (q', true) -> x q' = x q + dx) ->
  (forall dx q q', move dx 0 g q = (q', false) -> q' = q) ->
  (Z.to_nat (Z.abs (target - x p)) <= fuel)%nat ->
  (exists q, ai_move_right fuel g target p = Some q /\
             x p <= x q <= Z.max (x p) target) /\
  (exists q, ai_move_left fuel g target p = Some q /\
             Z.min (x p) target <= x q <= x p).
Proof.
  intros Hmoved Hstuck. revert p.
  induction fuel as [|fuel IH]; intros p Hfuel; split.
  - simpl. destruct (Z.ltb_spec (x p) target); [lia|].
    exists p. split; [done|]. lia.
  - simpl. destruct (Z.gtb_spec (x p) target); [lia|].
    exists p. split; [done|]. lia.
  - simpl. destruct (Z.ltb_spec (x p) target);
      [|exists p; split; [done|]; lia].
    destruct (move 1 0 g p) as [p' moved] eqn:Hmove. destruct moved.
    + apply Hmoved in Hmove.
      destruct (IH p') as [(q & -> & Hq) _]; [lia|].
      exists q. split; [done|]. lia.
    + apply Hstuck in Hmove as ->. exists p. split; [done|]. lia.
  - simpl. destruct (Z.gtb_spec (x p) target);
      [|exists p; split; [done|]; lia].
    destruct (move (-1) 0 g p) as [p' moved] eqn:Hmove. destruct moved.
    + apply Hmoved in Hmove.
      destruct (IH p') as [_ (q & -> & Hq)]; [lia|].
      exists q. split; [done|]. lia.
    + apply Hstuck in Hmove as ->. exists p. split; [done|]. lia.
Qed.

(** *** Particles *)

Lemma row_particles_full g (cy : Z) (row : list Cell) (n k : nat) :
  py_index (cells g) cy = Some row -> (k + n)%nat = length row ->
  Forall (fun c => c ≠ CInt 0) row ->
  exists ps,
    row_particles g cy (map Z.of_nat (seq k n)) = Some ps /\
    length ps = (5 * n)%nat /\
    forall q, q ∈ ps ->
      exists (cx : nat) (c : Cell),
        (k <= cx < k + n)%nat /\ row !! cx = Some c /\
        q = (x_offset g + Z.of_nat cx * cell_size g + cell_size g / 2,
             y_offset g + cy * cell_size g + cell_size g / 2, c).
Proof.
  intros Hrow. revert k. induction n as [|n IH]; intros k Hlen Hfull.
  - exists []. split; [done|]. split; [done|].
    intros q Hq. by apply elem_of_nil in Hq.
  - destruct (lookup_lt_is_Some_2 row k) as [c Hc]; [lia|].
    assert (py_index row (Z.of_nat k) = Some c) as Hidx.
    { destruct (py_index_in_range row (Z.of_nat k)) as [-> _]; [lia|].
      by rewrite Nat2Z.id. }
    destruct (IH (S k)) as (ps & Hps & Hlength & Hin); [lia | done |].
    assert (cell_ne_zero c = true) as Hne.
    { apply cell_ne_zero_spec.
      eapply (proj1 (Forall_forall _ row) Hfull), list_elem_of_lookup_2, Hc. }
    simpl. rewrite Hrow. simpl. rewrite Hidx. simpl. rewrite Hps. simpl.
    rewrite Hne. eexists. split; [done|]. split.
    + simpl. rewrite Hlength. lia.
    + intros q Hq.
      change (q ∈ repeat
                (x_offset g + Z.of_nat k * cell_size g + cell_size g / 2,
                 y_offset g + cy * cell_size g + cell_size g / 2, c) 5
              ++ ps) in Hq.
      apply elem_of_app in Hq as [Hq|Hq].
      * exists k, c. split; [lia|]. split; [done|].
        apply list_elem_of_In in Hq. by apply repeat_spec in Hq.
      * destruct (Hin q Hq) as (cx & c' & Hcx & Hc' & ->).
        exists cx, c'. split; [lia|]. by split.
Qed.

Lemma create_line_clear_particles_full g (rows : list Z) :
  grid_wf g = true -> (forall cy, cy ∈ rows -> full_row g cy) ->
  exists ps,
    create_line_clear_particles g rows = Some ps /\
    length ps = (5 * (length rows * Z.to_nat (width g)))%nat /\
    forall q, q ∈ ps ->
      exists (cx : nat) (cy : Z) (c : Cell),
        cy ∈ rows /\ 0 <= Z.of_nat cx < width g /\ c ≠ CInt 0 /\
        q = (x_offset g + Z.of_nat cx * cell_size g + cell_size g / 2,
             y_offset g + cy * cell_size g + cell_size g / 2, c).
Proof.
  intros Hwf. induction rows as [|cy rows IH]; intros Hfull.
  - exists []. split; [done|]. split; [done|].
    intros q Hq. by apply elem_of_nil in Hq.
  - destruct IH as (rest & Hrest & Hlength & Hin).
    { intros cy' Hcy'. apply Hfull. by right. }
    destruct (Hfull cy) as [Hrange (row & Hrow & Hall)]; [by left|].
    destruct (py_index_in_range (cells g) cy) as [Hidx _].
    { rewrite (grid_wf_rows g Hwf). lia. }
    pose proof (grid_wf_row g _ row Hwf Hrow) as Hwidth.
    destruct (row_particles_full g cy row (Z.to_nat (width g)) 0)
      as (ps & Hps & Hl & Hq); [by rewrite Hidx | lia | done |].
    simpl. unfold py_range. rewrite Hps. simpl. rewrite Hrest. simpl.
    eexists. split; [done|]. split.
    + rewrite length_app, Hl, Hlength. lia.
    + intros q Hin'. apply elem_of_app in Hin' as [Hin'|Hin'].
      * destruct (Hq q Hin') as (cx & c & Hcx & Hc & ->).
        exists cx, cy, c. split; [by left|]. split; [lia|]. split; [|done].
        eapply (proj1 (Forall_forall _ row) Hall), list_elem_of_lookup_2, Hc.
      * destruct (Hin q Hin') as (cx & cy' & c & Hcy' & Hcx & Hc & ->).
        exists cx, cy', c. split; [by right|]. split; [lia|]. by split.
Qed.

(** X21: for the rows the line scan has found on a well-formed grid,
    [create_line_clear_particles] does not raise and emits exactly five
    particles per cell of each row; each particle carries a colour that is
    not [0] and, the cell size being positive, lies inside the square on the
    screen of a cell of one of the rows. *)
Theorem line_clear_particles g (rows : list Z) :
  grid_wf g = true -> find_lines_to_clear g = Some rows ->
  0 < cell_size g ->
  exists ps,
    create_line_clear_particles g rows = Some ps /\
    length ps = (5 * (length rows * Z.to_nat (width g)))%nat /\
    forall (px py : Z) (c : Cell), (px, py, c) ∈ ps ->
      c ≠ CInt 0 /\
      exists cx cy : Z,
        cy ∈ rows /\ 0 <= cx < width g /\
        x_offset g + cx * cell_size g <= px
          < x_offset g + (cx + 1) * cell_size g /\
        y_offset g + cy * cell_size g <= py
          < y_offset g + (cy + 1) * cell_size g.
Proof.
  intros Hwf Hscan Hsize.
  destruct (find_lines_to_clear_wf g Hwf) as (rows' & Hrows' & Hfull & _).
  assert (rows' = rows) as -> by congruence.
  destruct (create_line_clear_particles_full g rows Hwf) as (ps & Hps & Hl & Hin).
  { intros cy Hcy. by apply Hfull. }
  exists ps. split; [done|]. split; [done|].
  intros px py c Hq.
  destruct (Hin _ Hq) as (cx & cy & c' & Hcy & Hcx & Hc & Heq).
  injection Heq as -> -> ->. split; [done|].
  exists (Z.of_nat cx), cy. split; [done|]. split; [done|].
  assert (0 <= cell_size g / 2 < cell_size g) as Hhalf.
  { split; [apply Z.div_pos; lia | apply Z.div_lt; lia]. }
  lia.
Qed.

(** *** Runs of frames *)

Lemma reachable_run_frames (fuel : nat) (frames : list (Z * list Event))
    keys self keys' self' :
  reachable self -> run_frames fuel frames keys self = Some (keys', self') ->
  reachable self'.
Proof.
  revert keys self.
  induction frames as [|[t events] frames IH]; intros keys self Hreach Hrun.
  - injection Hrun as _ <-. done.
  - cbn [run_frames] in Hrun.
    destruct (current_screen self) eqn:Hscreen;
      cbn [mbind option_bind] in Hrun;
      try (destruct (update fuel t self) as [s2|] eqn:Hupdate; [|done];
           eapply IH; [|exact Hrun]; by eapply reach_update).
    destruct (handle_events_game t events keys self) as [[|keys1 s1]|]
      eqn:Hevents; [done| |done].
    cbn [mbind option_bind] in Hrun.
    destruct (update fuel t s1) as [s2|] eqn:Hupdate; [|done].
    cbn [mbind option_bind] in Hrun.
    eapply IH; [|exact Hrun].
    eapply reach_update; [|exact Hupdate].
    by eapply reach_events.
Qed.

(** *** Gravity in a frame *)

Lemma ai_block_state (fuel : nat) (t : Z) p self p' self' :
  ai_block fuel t p self = Some (p', self') ->
  self' = self \/ self' = set_ai_debug_timer t self.
Proof.
  unfold ai_block. intros Hrun.
  destruct (String.eqb (mode self) "AI" && negb (is_paused self)).
  - destruct (match get_best_move (grid self) p with
              | Some _ => _ | None => _ end) as [q|]; [|done].
    cbn [mbind option_bind] in Hrun.
    destruct (t - ai_debug_timer self >? ai_debug_interval);
      injection Hrun as <- <-; auto.
  - injection Hrun as <- <-. auto.
Qed.

Lemma end_of_frame_counters self :
  let self' := end_of_frame self in
  heap self' = heap self /\ grid self' = grid self /\
  score self' = score self /\ drop_timer self' = drop_timer self /\
  drop_height self' = drop_height self.
Proof.
  unfold end_of_frame. game_simpl.
  destruct (level_up_effect self) as [t|]; [|done].
  by destruct (timer_expired (timer_tick t)).
Qed.

Lemma spawn_after_lock_counters self self' :
  spawn_after_lock self = Some self' ->
  drop_timer self' = drop_timer self /\
  drop_height self' = drop_height self /\
  score self' = score self /\ grid self' = grid self /\
  forall a : loc, (a < length (heap self))%nat ->
    heap self' !! a = heap self !! a.
Proof.
  unfold spawn_after_lock, take_next_piece, check_high_score, current.
  destruct (get_next_piece (piece_generator self) (grid self))
    as [piece generator].
  game_simpl. rewrite lookup_app_r by lia. rewrite Nat.sub_diag.
  cbn [lookup list_lookup mbind option_bind].
  intros Hrun.
  assert (forall a : loc, (a < length (heap self))%nat ->
            (heap self ++ [piece]) !! a = heap self !! a) as Hheap
    by (by intros a Ha; rewrite lookup_app_l).
  destruct (is_collision (grid self) piece);
    [destruct (is_high_score (points (score self)))|];
    injection Hrun as <-; game_simpl; done.
Qed.

Lemma score_and_reset_counters (t : TSpin) (lines : Z) self :
  let scored :=
    snd (Score_update lines t false (drop_height self)
           (soft_drop_count self) (hard_drop_count self) (score self)) in
  let levelled := if lines >? 0 then update_level scored else scored in
  let self' := score_and_reset t lines self in
  drop_timer self' = drop_timer self /\ drop_height self' = 0 /\
  heap self' = heap self /\ grid self' = grid self /\
  score self' =
    (if is_board_clear (grid self)
     then snd (add_tetris_clear_bonus levelled) else levelled).
Proof.
  unfold score_and_reset, update_drop_speed.
  destruct (Score_update lines t false (drop_height self)
              (soft_drop_count self) (hard_drop_count self) (score self))
    as [[turn_score notifications] new_score].
  cbn [snd].
  destruct (lines >? 0); game_simpl;
    destruct (is_board_clear (grid self)); game_simpl; done.
Qed.

(** C7: on a frame of the running game (game screen, no start timer, not
    paused, not over) with a live piece, the drop timer of the frame is the
    old one plus the elapsed time.  When it exceeds the drop speed, the piece
    goes through exactly one [move(0, 1)] of gravity between the AI block
    (which outside the AI mode leaves the piece as [update_position] made
    it) and the lock-delay step, and the drop timer ends at 0; when it does
    not, the piece goes through no such move and the drop timer keeps the
    accumulated value.  The drop height ends one up, respectively as it was,
    only if the piece is not locked in this frame: if it is, the lock step
    hands the counter (one up when gravity was due) to the score and the
    frame leaves it at 0. *)
Theorem gravity_tick (fuel : nat) (t : Z) (l : loc) p self self' :
  current_screen self = ScreenGame -> start_timer self = None ->
  game_over self = false -> is_paused self = false ->
  current_piece self = Some l -> heap self !! l = Some p ->
  update fuel t self = Some self' ->
  let delta_time := t - last_update_time self in
  let timer := drop_timer self + delta_time in
  let due := timer >? drop_speed self in
  let counter := drop_height self + (if due then 1 else 0) in
  exists p1 : Tetromino,
    (exists s1 : Game,
       ai_block fuel t (update_position (grid self) p)
         (set_last_update_time t (set_drop_timer timer self))
       = Some (p1, s1)) /\
    (mode self ≠ "AI"%string -> p1 = update_position (grid self) p) /\
    let p3 :=
      handle_lock_delay delta_time (grid self)
        (if due then fst (move 0 1 (grid self) p1) else p1) in
    heap self' !! l = Some p3 /\
    drop_timer self' = (if due then 0 else timer) /\
    (is_locked p3 = false -> drop_height self' = counter) /\
    (is_locked p3 = true ->
     drop_height self' = 0 /\
     exists (t_spin : TSpin) (lines : Z),
       let scored :=
         snd (Score_update lines t_spin false counter
                (soft_drop_count self) (hard_drop_count self)
                (score self)) in
       let levelled := if lines >? 0 then update_level scored else scored in
       score self' =
         (if is_board_clear (grid self')
          then snd (add_tetris_clear_bonus levelled) else levelled)).
Proof.
  intros Hscreen Hst Hover Hpaused Hl Hp Hrun delta_time timer due counter.
  unfold update in Hrun. rewrite Hscreen in Hrun.
  unfold update_game in Hrun. rewrite Hst, Hover, Hpaused in Hrun.
  cbn [orb] in Hrun. game_simpl. rewrite Hl in Hrun.
  match type of Hrun with
  | context [update_current_piece ?f ?t ?d ?l ?s] =>
      destruct (update_current_piece f t d l s) as [s1|] eqn:Hs1; [|done]
  end.
  cbn [mbind option_bind] in Hrun. injection Hrun as <-.
  destruct (end_of_frame_counters s1) as (-> & -> & -> & -> & ->).
  apply update_current_piece_inv in Hs1
    as (p' & p1 & s2 & Hp' & Hai & Hcases).
  game_simpl. rewrite Hp in Hp'. injection Hp' as <-.
  exists p1. split; [by exists s2|]. split.
  { intros Hmode. rewrite ai_block_classic in Hai by done.
    by injection Hai as <- _. }
  assert (heap s2 = heap self /\ grid s2 = grid self /\
          score s2 = score self /\ drop_timer s2 = timer /\
          drop_speed s2 = drop_speed self /\
          drop_height s2 = drop_height self /\
          soft_drop_count s2 = soft_drop_count self /\
          hard_drop_count s2 = hard_drop_count self)
    as (Hh & Hg & Hsc & Hdt & Hds & Hdh & Hsoft & Hhard)
    by (apply ai_block_state in Hai as [-> | ->]; game_simpl; done).
  assert (l < length (heap self))%nat as Hlt by (by eapply lookup_lt_Some).
  unfold apply_gravity in Hcases. rewrite Hdt, Hds, Hg in Hcases.
  fold due in Hcases.
  destruct due eqn:Hdue; game_simpl; rewrite ?Hg in Hcases.
  - (* gravity is due *)
    destruct Hcases as [[Hfree ->]|[Hlocked Hlock]]; game_simpl.
    + rewrite Hh, list_lookup_insert_eq by done.
      split; [done|]. split; [done|]. split; [by rewrite Hdh|].
      unfold delta_time; congruence.
    + apply lock_and_advance_inv in Hlock
        as (ts & q & rows & _ & _ & _ & Hspawn).
      match type of Hspawn with
      | spawn_after_lock (score_and_reset ?a ?b ?s) = _ =>
          destruct (score_and_reset_counters a b s)
            as (Rt & Rh & Rheap & Rg & Rsc);
          destruct (spawn_after_lock_counters _ _ Hspawn)
            as (St & Sh & Ssc & Sg & Sheap)
      end.
      rewrite St, Sh, Ssc, Sg, Rt, Rh, Rsc, Rg.
      rewrite Sheap, Rheap
        by (rewrite Rheap; destruct (decide (rows = [])); game_simpl;
            by rewrite length_insert, Hh).
      split.
      { destruct (decide (rows = [])); game_simpl;
          by rewrite Hh, list_lookup_insert_eq. }
      split; [by destruct (decide (rows = []))|].
      split; [unfold delta_time; congruence|]. intros _. split; [done|].
      exists ts, (Z.of_nat (length rows)).
      destruct (decide (rows = [])); game_simpl;
        by rewrite Hdh, Hsoft, Hhard, Hsc.
  - (* gravity is not due *)
    destruct Hcases as [[Hfree ->]|[Hlocked Hlock]]; game_simpl.
    + rewrite Hh, list_lookup_insert_eq by done.
      split; [done|]. split; [done|].
      split; [unfold counter; rewrite Hdh; lia|].
      unfold delta_time; congruence.
    + apply lock_and_advance_inv in Hlock
        as (ts & q & rows & _ & _ & _ & Hspawn).
      match type of Hspawn with
      | spawn_after_lock (score_and_reset ?a ?b ?s) = _ =>
          destruct (score_and_reset_counters a b s)
            as (Rt & Rh & Rheap & Rg & Rsc);
          destruct (spawn_after_lock_counters _ _ Hspawn)
            as (St & Sh & Ssc & Sg & Sheap)
      end.
      rewrite St, Sh, Ssc, Sg, Rt, Rh, Rsc, Rg.
      rewrite Sheap, Rheap
        by (rewrite Rheap; destruct (decide (rows = [])); game_simpl;
            by rewrite length_insert, Hh).
      split.
      { destruct (decide (rows = [])); game_simpl;
          by rewrite Hh, list_lookup_insert_eq. }
      split; [by destruct (decide (rows = []))|].
      split; [unfold delta_time; congruence|]. intros _. split; [done|].
      exists ts, (Z.of_nat (length rows)).
      destruct (decide (rows = [])); game_simpl;
        unfold counter; by rewrite Z.add_0_r, Hdh, Hsoft, Hhard, Hsc.
Qed.

End MoreProperties.

(** ** The further properties on the reference implementation *)


(** The reference grid satisfies what [update] relies on. *)
Lemma grid_wf_Forall (g : Grid) :
  grid_wf g = true <->
  Z.of_nat (length (cells g)) = height g /\
  Forall (fun row => Z.of_nat (length row) = width g) (cells g).
Proof.
  unfold grid_wf. rewrite andb_true_iff, Z.eqb_eq, forallb_forall.
  rewrite Forall_forall. split; intros [Hh Hw]; (split; [done|]).
  - intros row Hrow. apply Z.eqb_eq, Hw. by apply list_elem_of_In.
  - intros row Hrow. apply Z.eqb_eq, Hw. by apply list_elem_of_In.
Qed.

Lemma set_cell_rows (w : Z) (v : Cell) (c : Z * Z) (rows : list (list Cell)) :
  Forall (fun row => Z.of_nat (length row) = w) rows ->
  length (set_cell v c rows) = length rows /\
  Forall (fun row => Z.of_nat (length row) = w) (set_cell v c rows).
Proof.
  intros Hrows. unfold set_cell.
  destruct ((0 <=? c.1) && (0 <=? c.2)); [|done].
  destruct (rows !! Z.to_nat c.2) as [row|] eqn:Hrow; [|done].
  split; [by rewrite length_insert|].
  apply Forall_insert; [done|]. rewrite length_insert.
  eapply (proj1 (Forall_forall _ rows) Hrows), list_elem_of_lookup_2, Hrow.
Qed.

Lemma sample_lock_piece_wf (g : Grid) (p : Tetromino) :
  grid_wf g = true -> grid_wf (sample_lock_piece g p) = true.
Proof.
  rewrite !grid_wf_Forall. intros [Hh Hw]. unfold sample_lock_piece.
  cbn [cells width height].
  induction (get_block_positions p) as [|c cs IH]; [done|].
  destruct IH as [IHh IHw]. cbn [foldr].
  destruct (set_cell_rows (width g) (CColor 160 0 240) c _ IHw) as [Hl Hr].
  split; [by rewrite Hl | done].
Qed.

Lemma sample_clear_lines_wf (g : Grid) :
  grid_wf g = true -> grid_wf (sample_clear_lines g) = true.
Proof.
  rewrite !grid_wf_Forall. intros [Hh Hw]. unfold sample_clear_lines.
  cbn [cells width height].
  pose proof (length_filter (fun row => row_full row = false) (cells g))
    as Hkept.
  split.
  - rewrite length_app, repeat_length. lia.
  - apply Forall_app. split.
    + destruct (cells g) as [|row rows] eqn:Hcells.
      { cbn. constructor. }
      apply Forall_forall. intros r Hr.
      apply list_elem_of_In, repeat_spec in Hr as ->.
      unfold empty_row. rewrite repeat_length.
      apply Forall_cons in Hw as [Hrow _]. lia.
    + apply Forall_forall. intros r Hr.
      apply list_elem_of_filter in Hr as [_ Hr].
      by apply (proj1 (Forall_forall _ _) Hw).
Qed.

Lemma sample_grid_laws : grid_laws.
Proof.
  split; [by vm_compute|]. split.
  - apply sample_lock_piece_wf.
  - apply sample_clear_lines_wf.
Qed.

(** Frames keep a session among the states it goes through. *)
Lemma reachable_run_updates (fuel : nat) (times : list Z) self self' :
  reachable self -> run_updates fuel times self = Some self' ->
  reachable self'.
Proof.
  revert self. induction times as [|t times IH]; intros self Hreach Hrun.
  - injection Hrun as <-. done.
  - cbn [run_updates] in Hrun.
    destruct (update fuel t self) as [s|] eqn:Hupdate; [|done].
    eapply IH; [|exact Hrun]. by eapply reach_update.
Qed.

(** The frame in which the T piece locks and the tenth line goes: the grid
    changes, by that lock followed by [clear_lines], the scan having found
    the bottom row. *)
Lemma update_changes_grid_by_locking_witness :
  let self' := default Boards.about_to_lock (update 0 16 Boards.about_to_lock) in
  exists p : Tetromino,
    heap self' !! 0%nat = Some p /\ is_locked p = true /\
    find_lines_to_clear (lock_piece (grid Boards.about_to_lock) p)
    = Some [19] /\
    grid self' = clear_lines (lock_piece (grid Boards.about_to_lock) p).
Proof.
  intros self'.
  destruct (update_changes_grid_by_locking 0 16 Boards.about_to_lock self')
    as [[Hgrid _]|(l & p & rows & Hl & Hp & Hlocked & Hrows & Hgrid & _)].
  - vm_compute. reflexivity.
  - vm_compute in Hgrid. discriminate Hgrid.
  - injection Hl as <-. exists p.
    assert (p = set_is_locked true
                  (set_lock_delay_timer 506 Boards.t_resting)) as ->.
    { vm_compute in Hp. injection Hp as <-. reflexivity. }
    assert (rows = [19]) as ->.
    { vm_compute in Hrows. injection Hrows as <-. reflexivity. }
    split; [exact Hp|]. split; [exact Hlocked|]. split; [exact Hrows|].
    exact Hgrid.
Defined.

(** A new game has its references in order. *)
Lemma reachable_refs_ok_witness : refs_ok fresh.
Proof. apply reachable_refs_ok. apply reach_start. Defined.

(** A new game shows the preview of its generator. *)
Lemma reachable_preview_ok_witness : preview_ok fresh.
Proof. apply reachable_preview_ok. apply reach_start. Defined.

(** A new game played at two seconds per frame is over after 400 frames,
    the stack having reached the top; it is on the high-score screen, its
    score being 0. *)
Lemma reachable_game_over_screen_witness :
  let self' := default fresh (run_updates 0 (slow_frames 400) fresh) in
  game_over self' = true /\
  (current_screen self' = ScreenEnterName
   \/ current_screen self' = ScreenHighScores).
Proof.
  intros self'.
  assert (game_over self' = true) as Hover by (vm_compute; reflexivity).
  split; [exact Hover|].
  apply reachable_game_over_screen; [|exact Hover].
  apply (reachable_run_updates 0 (slow_frames 400) fresh);
    [apply reach_start | vm_compute; reflexivity].
Defined.

(** The drop speed of a new game. *)
Lemma reachable_drop_speed_floor_witness : MIN_DROP_SPEED <= drop_speed fresh.
Proof.
  apply reachable_drop_speed_floor; [vm_compute; discriminate|].
  apply reach_start.
Defined.

(** The first frame of a new game returns. *)
Lemma update_never_raises_witness : is_Some (update 0 16 fresh).
Proof.
  apply update_never_raises;
    [apply sample_grid_laws | apply reach_start | vm_compute; discriminate].
Defined.

(** Three frames of a paused session. *)
Lemma paused_frames_identity_witness :
  run_updates 0 [16; 33; 5000] paused = Some paused.
Proof.
  apply paused_frames_identity; reflexivity.
Defined.

(** The left and the right key held at the left wall, with an event for the
    rotation: the playfield and the clocks are as before. *)
Lemma handle_events_game_keeps_witness :
  exists (keys' : Keys) (self' : Game),
    handle_events_game 200 [KEYDOWN K_UP] both_held at_wall
    = Some (Running keys' self') /\
    grid self' = grid at_wall /\ score self' = score at_wall /\
    drop_speed self' = drop_speed at_wall /\
    drop_timer self' = drop_timer at_wall /\
    drop_height self' = drop_height at_wall /\
    last_update_time self' = last_update_time at_wall.
Proof.
  eexists _, _.
  match goal with
  | |- ?run /\ _ => assert run as Hrun by (vm_compute; reflexivity)
  end.
  split; [exact Hrun|].
  exact (handle_events_game_keeps 200 [KEYDOWN K_UP] both_held at_wall
           _ _ Hrun).
Defined.

(** The hold key pressed twice on the same piece. *)
Lemma key_hold_once_witness :
  let self' := default Boards.pocket_normal (key_hold Boards.pocket_normal) in
  can_hold self' = false /\ key_hold self' = Some self'.
Proof.
  apply (key_hold_once Boards.pocket_normal); vm_compute; reflexivity.
Defined.

(** A swap with the held I piece. *)
Lemma hold_piece_keeps_counters_witness :
  let self' := default with_held (hold_piece with_held) in
  drop_height self' = drop_height with_held /\
  soft_drop_count self' = soft_drop_count with_held /\
  hard_drop_count self' = hard_drop_count with_held /\
  drop_timer self' = drop_timer with_held /\
  last_move_was_rotation self' = last_move_was_rotation with_held.
Proof.
  apply (hold_piece_keeps_counters with_held); vm_compute; reflexivity.
Defined.

(** The lock step that clears the tenth line. *)
Lemma lock_step_resets_witness :
  let self' :=
    default Boards.line_ready (lock_and_advance true Boards.line_ready) in
  drop_height self' = 0 /\ soft_drop_count self' = 0 /\
  hard_drop_count self' = 0 /\ last_move_was_rotation self' = false /\
  last_rotation self' = false /\ can_hold self' = true /\
  current_piece self' = Some (length (heap Boards.line_ready)) /\
  held_piece self' = held_piece Boards.line_ready.
Proof.
  apply (lock_step_resets true Boards.line_ready); vm_compute; reflexivity.
Defined.

(** The left key at the left wall changes nothing. *)
Lemma key_translate_effect_witness :
  key_translate (-1) 0 false at_wall = Some at_wall.
Proof.
  destruct (key_translate_effect (-1) 0 false 0%nat at_wall
              (mkTetromino "T" 0 5 0 false 0 0 false))
    as [Hrefused _]; [reflexivity | reflexivity | reflexivity | reflexivity |].
  apply Hrefused. vm_compute. reflexivity.
Defined.

(** Left and right both held: the repeat moves the piece to the left only. *)
Lemma continuous_movement_one_move_witness :
  exists (keys' : Keys) (self' : Game),
    continuous_movement 200 both_held Boards.pocket_normal
    = Some (keys', self') /\
    ((keys' = both_held /\ self' = Boards.pocket_normal) \/
     (exists l : loc,
        current_piece Boards.pocket_normal = Some l /\
        REPEAT_DELAY <= 200 - last_movement_time both_held /\
        keys' = set_last_movement_time 200 both_held /\
        translate (-1) 0 false l Boards.pocket_normal = Some self')).
Proof.
  eexists _, _.
  match goal with
  | |- ?run /\ _ => assert run as Hrun by (vm_compute; reflexivity)
  end.
  split; [exact Hrun|].
  exact (continuous_movement_one_move 200 both_held Boards.pocket_normal
           _ _ Hrun).
Defined.

(** The release of the left key during a pause. *)
Lemma pause_drops_key_release_witness :
  exists (keys' : Keys) (self' : Game),
    process_events 0
      [KEYDOWN K_LEFT; KEYDOWN K_p; KEYUP K_LEFT; KEYDOWN K_p]
      no_keys Boards.pocket_normal
    = Some (Running keys' self') /\
    left_pressed keys' = true /\ is_paused self' = false.
Proof.
  destruct (pause_drops_key_release 0 no_keys Boards.pocket_normal)
    as [_ Hpaused];
    [intros key; reflexivity | intros key; reflexivity
     | reflexivity | reflexivity |].
  eexists _, _.
  match goal with
  | |- ?run /\ _ => assert run as Hrun by (vm_compute; reflexivity)
  end.
  split; [exact Hrun | exact (Hpaused _ _ Hrun)].
Defined.

(** A T piece falling, an I piece held: two holds later a T piece falls and
    an I piece is held. *)
Lemma hold_twice_restores_shapes_witness :
  exists (s1 s2 : Game) (lh2 : loc),
    hold_piece with_held = Some s1 /\ hold_piece s1 = Some s2 /\
    current s2 =
      Some (reset_position (grid with_held)
              (Tetromino_init "T" (grid with_held))) /\
    held_piece s2 = Some lh2 /\
    heap s2 !! lh2 = Some (Tetromino_init "I" (grid with_held)) /\
    piece_generator s2 = piece_generator with_held.
Proof.
  apply (hold_twice_restores_shapes with_held
           (mkTetromino "T" 4 5 1 false 0 0 false) 1%nat
           (mkTetromino "I" 3 0 0 false 0 0 false));
    [intros name g; reflexivity | intros g p; reflexivity
     | reflexivity | reflexivity | reflexivity].
Defined.

(** The T piece in its slot is locked after three frames of 200 ms. *)
Lemma lock_delay_locks_on_time_witness :
  is_locked
    (lock_delay_frames (grid Boards.pocket_normal) [200; 200; 200]
       Boards.t_down)
  = true.
Proof.
  destruct (lock_delay_locks_on_time (grid Boards.pocket_normal)
              Boards.t_down [200; 200; 200]) as [_ Hlocked].
  - reflexivity.
  - reflexivity.
  - vm_compute. reflexivity.
  - vm_compute. reflexivity.
  - repeat constructor; lia.
  - intros r Hshape Hx Hy Hrotation.
    change (is_touching_ground (grid Boards.pocket_normal) r)
      with (sample_is_collision (grid Boards.pocket_normal)
              (with_position (x r) (y r + 1) (rotation_state r) r)).
    unfold sample_is_collision, get_block_positions.
    cbn [with_position shape_name x y rotation_state].
    rewrite Hshape, Hx, Hy, Hrotation. vm_compute. reflexivity.
  - rewrite Hlocked. vm_compute. reflexivity.
Defined.

(** The moves of the reference piece are by one column, or refused. *)
Lemma sample_move_shift (dx : Z) (g : Grid) (q q' : Tetromino) :
  sample_move dx 0 g q = (q', true) -> x q' = x q + dx.
Proof.
  unfold sample_move.
  destruct (sample_is_collision g _); intros [= <-].
  unfold after_action. by destruct (lock_delay_active _).
Qed.

Lemma sample_move_refused (dx : Z) (g : Grid) (q q' : Tetromino) :
  sample_move dx 0 g q = (q', false) -> q' = q.
Proof.
  unfold sample_move.
  by destruct (sample_is_collision g _); intros [= <-].
Qed.

(** A piece at the left wall sent to column 4 of an empty board. *)
Lemma ai_moves_terminate_witness :
  (exists q,
     ai_move_right 4 (grid at_wall) 4
       (mkTetromino "T" 0 5 0 false 0 0 false) = Some q /\
     0 <= x q <= Z.max 0 4) /\
  (exists q,
     ai_move_left 4 (grid at_wall) 4
       (mkTetromino "T" 0 5 0 false 0 0 false) = Some q /\
     Z.min 0 4 <= x q <= 0).
Proof.
  apply (ai_moves_terminate (grid at_wall) 4
           (mkTetromino "T" 0 5 0 false 0 0 false) 4).
  - intros dx q q'. apply sample_move_shift.
  - intros dx q q'. apply sample_move_refused.
  - vm_compute. lia.
Defined.

(** The bottom row, full once the T piece is locked, gives 50 particles. *)
Lemma line_clear_particles_witness :
  exists ps,
    create_line_clear_particles
      (lock_piece (grid Boards.line_ready) Boards.t_down) [19] = Some ps /\
    length ps = 50%nat.
Proof.
  destruct (line_clear_particles
              (lock_piece (grid Boards.line_ready) Boards.t_down) [19])
    as (ps & Hps & Hlength & _);
    [vm_compute; reflexivity | vm_compute; reflexivity
     | vm_compute; reflexivity |].
  exists ps. split; [exact Hps | exact Hlength].
Defined.

(** Two seconds after the last frame a T piece in mid-air goes down one row:
    the drop timer is back at 0 and the drop height is 1. *)
Lemma gravity_tick_witness :
  let self' := default at_wall (update 0 2000 at_wall) in
  heap self' !! 0%nat = Some (mkTetromino "T" 0 6 0 false 0 0 false) /\
  drop_timer self' = 0 /\ drop_height self' = 1.
Proof.
  intros self'.
  destruct (gravity_tick 0 2000 0%nat
              (mkTetromino "T" 0 5 0 false 0 0 false) at_wall self')
    as (p1 & _ & Hp1 & Hheap & Htimer & Hfree & _);
    [reflexivity | reflexivity | reflexivity | reflexivity | reflexivity
     | reflexivity | vm_compute; reflexivity |].
  assert (p1 = update_position (grid at_wall)
                 (mkTetromino "T" 0 5 0 false 0 0 false)) as ->
    by (apply Hp1; vm_compute; discriminate).
  split; [etransitivity; [exact Hheap|]; vm_compute; reflexivity|].
  split; [etransitivity; [exact Htimer|]; vm_compute; reflexivity|].
  etransitivity; [apply Hfree|]; vm_compute; reflexivity.
Defined.

(** The frame in which the piece locks: with the drop height at 3 and no
    gravity due (16 ms on the drop timer against a drop speed of 1000 ms) the
    counter is not left as it was but ends at 0; with 990 ms on the drop
    timer gravity is due and the counter ends at 0 again, not at 4. *)
Lemma gravity_tick_counterexample :
  let resting := set_drop_height 3 Boards.about_to_lock in
  let due := set_drop_timer 990 resting in
  (drop_timer resting + (16 - last_update_time resting)
   >? drop_speed resting) = false /\
  option_map drop_height (update 0 16 resting) = Some 0 /\
  (drop_timer due + (16 - last_update_time due) >? drop_speed due) = true /\
  option_map drop_height (update 0 16 due) = Some 0 /\
  option_map drop_timer (update 0 16 due) = Some 0.
Proof. repeat split; vm_compute; reflexivity. Qed.

(** C3: a first hold makes the next piece of the generator the current
    piece although it overlaps the stack where it spawns, and the session is
    not ended: [game_over] stays false and the game screen stays on.

    First on the board with a tower in column 3: the O piece the lock step
    has dealt is at its spawn position and free of the tower (the spawn
    check of the lock step has passed); after the hold the I piece lies on
    the cell (3, 1) of the tower; play goes on, the right key moves the
    piece off the tower and the frame after it leaves [game_over] false.

    Then in a game played from [start_new_game]: [played] is a state the
    session goes through, with the O piece newly spawned and free; after
    the hold the I piece lies on the cell (6, 1) of the pile, and the left
    key moves it off.

    (The lock step ends the session when it deals the same piece on the same
    board, see [spawn_after_lock_crowded] and [spawn_after_lock_spec].) *)
Theorem hold_piece_spawn_collision_not_game_over :
  (current Boards.crowded = Some (Tetromino_init "O" (grid Boards.crowded)) /\
   is_collision (grid Boards.crowded)
     (Tetromino_init "O" (grid Boards.crowded)) = false /\
   held_piece Boards.crowded = None /\ game_over Boards.crowded = false /\
   exists (self' : Game) (piece : Tetromino),
     hold_piece Boards.crowded = Some self' /\
     current self' = Some piece /\
     piece = Tetromino_init "I" (grid Boards.crowded) /\
     is_collision (grid self') piece = true /\
     game_over self' = false /\
     current_screen self' = ScreenGame /\
     exists (moved : Game) (piece' : Tetromino),
       key_translate 1 0 false self' = Some moved /\
       current moved = Some piece' /\
       is_collision (grid moved) piece' = false /\
       option_map game_over (update 0 16 moved) = Some false) /\
  (reachable played /\
   (exists keys : Keys,
      run_frames 0 tower_game no_keys (start_new_game 0 Boards.ended)
      = Some (keys, played)) /\
   current played = Some (Tetromino_init "O" (grid played)) /\
   is_collision (grid played) (Tetromino_init "O" (grid played)) = false /\
   held_piece played = None /\ game_over played = false /\
   exists (self' : Game) (piece : Tetromino),
     hold_piece played = Some self' /\
     current self' = Some piece /\
     piece = Tetromino_init "I" (grid played) /\
     is_collision (grid self') piece = true /\
     game_over self' = false /\
     current_screen self' = ScreenGame /\
     exists (moved : Game) (piece' : Tetromino),
       key_translate (-1) 0 false self' = Some moved /\
       current moved = Some piece' /\
       is_collision (grid moved) piece' = false /\
       option_map game_over (update 0 3136 moved) = Some false).
Proof.
  split.
  - do 4 (split; [reflexivity|]).
    destruct (hold_piece_no_spawn_check Boards.crowded
                (Tetromino_init "O" (grid Boards.crowded)))
      as (self' & Hrun & Hcur & Hg & Hgo & Hs); [reflexivity | reflexivity |].
    assert (hold_piece Boards.crowded
            = Some (default Boards.crowded (hold_piece Boards.crowded)))
      as Hrun' by (vm_compute; reflexivity).
    assert (self' = default Boards.crowded (hold_piece Boards.crowded))
      as -> by congruence.
    eexists _, _. split; [exact Hrun|]. split; [exact Hcur|].
    split; [reflexivity|]. rewrite Hg, Hgo, Hs.
    split; [vm_compute; reflexivity|]. split; [reflexivity|].
    split; [reflexivity|].
    eexists _, _. split; [vm_compute; reflexivity|].
    split; [vm_compute; reflexivity|].
    split; vm_compute; reflexivity.
  - assert (run_frames 0 tower_game no_keys fresh
            = Some (default no_keys
                      (fst <$> run_frames 0 tower_game no_keys fresh),
                    played)) as Hplay by (vm_compute; reflexivity).
    split.
    { eapply (reachable_run_frames 0 tower_game no_keys fresh);
        [apply reach_start | exact Hplay]. }
    split; [eexists; exact Hplay|].
    split; [vm_compute; reflexivity|]. split; [vm_compute; reflexivity|].
    split; [vm_compute; reflexivity|]. split; [vm_compute; reflexivity|].
    destruct (hold_piece_no_spawn_check played
                (Tetromino_init "O" (grid played)))
      as (self' & Hrun & Hcur & Hg & Hgo & Hs);
      [vm_compute; reflexivity | vm_compute; reflexivity |].
    assert (hold_piece played = Some (default played (hold_piece played)))
      as Hrun' by (vm_compute; reflexivity).
    assert (self' = default played (hold_piece played)) as -> by congruence.
    eexists _, _. split; [exact Hrun|]. split; [exact Hcur|].
    split; [vm_compute; reflexivity|]. rewrite Hg, Hgo, Hs.
    split; [vm_compute; reflexivity|].
    split; [vm_compute; reflexivity|].
    split; [vm_compute; reflexivity|].
    eexists _, _. split; [vm_compute; reflexivity|].
    split; [vm_compute; reflexivity|].
    split; vm_compute; reflexivity.
Qed.
